(** * OmniLRS: the streaming high-resolution DEM cache

    A shallow embedding of [HighResDEMGen]
    (src/terrain_management/large_scale_terrain/high_resolution_DEM_generator.py)
    and the properties of its block grid tracker, its buffer shifting and
    its height queries.

    Modelling conventions.
    - Python floats (positions in meters, [resolution], buffer samples) are
      exact rationals [Q]; rounding of binary floating point is not modelled,
      and [Q] has no nan and no infinity. [int(x)] is truncation toward
      zero, [x // y] is the floor of the quotient, and a division by zero
      raises [ZeroDivisionError]. The properties about the value of
      [x // block_size] at an arbitrary position bound the magnitudes by
      [2 ^ 53] ([exact_range]), below which binary floating point computes
      that floor exactly.
    - [block_size] is an integer number of meters, so block coordinates and
      the keys of the two dictionaries are pairs of integers.
    - The [BlockState] dictionaries are mutable objects that the tracker holds
      by reference: the model keeps them in a store ([blocks]) addressed by
      locations, and the tracker maps a relative slot to a location.
    - A numpy 2D array is its shape together with its samples as a function
      of the two indices; only the samples inside the shape are meaningful.
    - Exceptions are values of [exn]; a computation that may raise returns a
      [result]. *)

From Stdlib Require Import ZArith QArith Qround Lia.
From stdpp Require Import gmap list.

Local Open Scope Z_scope.

(** ** Exceptions *)

Inductive exn : Set :=
  | KeyError
  | IndexError
  | ValueError
  | ZeroDivisionError.

Definition result (A : Type) : Type := (exn + A)%type.

Definition Ok {A} (a : A) : result A := inr a.
Definition Raise {A} (e : exn) : result A := inl e.

Global Instance result_ret : MRet result := fun A a => inr a.
Global Instance result_bind : MBind result := fun A B f m =>
  match m with
  | inl e => inl e
  | inr a => f a
  end.

(** [d[k]] on a dictionary. *)
Definition dict_get `{Countable K} {V} (d : gmap K V) (k : K) : result V :=
  match d !! k with
  | Some v => Ok v
  | None => Raise KeyError
  end.

(** A [for] loop over a list whose body may raise. *)
Fixpoint for_each {A S} (body : A -> S -> result S) (l : list A) (s : S)
  : result S :=
  match l with
  | [] => Ok s
  | a :: l' =>
      match body a s with
      | inl e => inl e
      | inr s' => for_each body l' s'
      end
  end.

(** ** Python numbers *)

(** [int(q)]: truncation toward zero. *)
Definition py_int (q : Q) : Z := Z.quot (Qnum q) (Z.pos (Qden q)).

(** [a / b] on floats. *)
Definition py_div (a b : Q) : result Q :=
  if Qeq_bool b 0 then Raise ZeroDivisionError else Ok (a / b)%Q.

(** [a // b] on floats: the floor of the quotient, still a float. *)
Definition py_floordiv (a b : Q) : result Q :=
  if Qeq_bool b 0 then Raise ZeroDivisionError
  else Ok (inject_Z (Qfloor (a / b)%Q)).

(** [range(lo, hi)]. *)
Definition py_range (lo hi : Z) : list Z := seqZ lo (hi - lo).

(** ** numpy arrays (two dimensions) *)

Module Np.

Record ndarray : Type := mk_ndarray {
  shape0 : Z;
  shape1 : Z;
  cell : Z -> Z -> Q
}.

Definition in_bounds (a : ndarray) (i j : Z) : Prop :=
  0 <= i < shape0 a /\ 0 <= j < shape1 a.

(** The array of shape [(n, m)] filled with [x]. *)
Definition const (n m : Z) (x : Q) : ndarray :=
  {| shape0 := n; shape1 := m; cell := fun _ _ => x |}.

(** [np.zeros((n, m))]: a negative dimension raises [ValueError]. *)
Definition zeros (n m : Z) : result ndarray :=
  if (n <? 0) || (m <? 0) then Raise ValueError else Ok (const n m 0%Q).

(** A slice [start:stop] (step 1); [None] is an omitted bound. *)
Record slice : Type := mk_slice {
  start : option Z;
  stop : option Z
}.

Definition full : slice := mk_slice None None.
Definition from_to (lo hi : Z) : slice := mk_slice (Some lo) (Some hi).
Definition from (lo : Z) : slice := mk_slice (Some lo) None.
Definition up_to (hi : Z) : slice := mk_slice None (Some hi).

(** Normalisation of one bound of a slice against an axis of length [len]:
    a negative bound counts from the end, and the result is clipped to
    [0 .. len]. *)
Definition adjust (b : option Z) (dflt len : Z) : Z :=
  match b with
  | None => dflt
  | Some i => if i <? 0 then Z.max (i + len) 0 else Z.min i len
  end.

Definition lower (s : slice) (len : Z) : Z := adjust (start s) 0 len.
Definition upper (s : slice) (len : Z) : Z := adjust (stop s) len len.

(** Number of indices the slice selects. *)
Definition extent (s : slice) (len : Z) : Z :=
  Z.max 0 (upper s len - lower s len).

(** Is index [i] selected by the slice? *)
Definition selects (s : slice) (len i : Z) : bool :=
  (lower s len <=? i) && (i <? lower s len + extent s len).

(** [a[rs, cs]] read as a value: a snapshot of the selected region. numpy
    assigns overlapping slices of one array as if the right-hand side had
    been copied first, so the snapshot is also what [a[ts, tc] = a[rs, cs]]
    writes. *)
Definition getslice (a : ndarray) (rs cs : slice) : ndarray :=
  {| shape0 := extent rs (shape0 a);
     shape1 := extent cs (shape1 a);
     cell := fun i j =>
       cell a (lower rs (shape0 a) + i) (lower cs (shape1 a) + j) |}.

(** Broadcasting of an axis of length [src] to an axis of length [tgt]. *)
Definition broadcastable (src tgt : Z) : bool :=
  (src =? tgt) || (src =? 1).

Definition bcast_index (src i : Z) : Z := if src =? 1 then 0 else i.

(** The selected region after an element-wise update [upd old new] with the
    broadcast values of [v]; the other samples are kept. *)
Definition update_region (upd : Q -> Q -> Q) (a : ndarray) (rs cs : slice)
    (v : ndarray) : result ndarray :=
  if broadcastable (shape0 v) (extent rs (shape0 a))
     && broadcastable (shape1 v) (extent cs (shape1 a))
  then
    Ok {| shape0 := shape0 a;
          shape1 := shape1 a;
          cell := fun i j =>
            if selects rs (shape0 a) i && selects cs (shape1 a) j
            then upd (cell a i j)
                   (cell v (bcast_index (shape0 v) (i - lower rs (shape0 a)))
                           (bcast_index (shape1 v) (j - lower cs (shape1 a))))
            else cell a i j |}
  else Raise ValueError.

(** [a[rs, cs] = v]. *)
Definition setslice (a : ndarray) (rs cs : slice) (v : ndarray)
  : result ndarray :=
  update_region (fun _ new => new) a rs cs v.

(** [a[rs, cs] += v]. *)
Definition addslice (a : ndarray) (rs cs : slice) (v : ndarray)
  : result ndarray :=
  update_region (fun old new => (old + new)%Q) a rs cs v.

(** [a[rs, cs] = x] for a scalar [x]. *)
Definition fillslice (a : ndarray) (rs cs : slice) (x : Q) : ndarray :=
  {| shape0 := shape0 a;
     shape1 := shape1 a;
     cell := fun i j =>
       if selects rs (shape0 a) i && selects cs (shape1 a) j
       then x else cell a i j |}.

(** [a[i, j]] with integer indices: a negative index counts from the end,
    and an index outside [-len .. len-1] raises [IndexError]. *)
Definition norm_index (len i : Z) : result Z :=
  if (0 <=? i) && (i <? len) then Ok i
  else if (- len <=? i) && (i <? 0) then Ok (i + len)
  else Raise IndexError.

Definition getitem (a : ndarray) (i j : Z) : result Q :=
  i' ← norm_index (shape0 a) i;
  j' ← norm_index (shape1 a) j;
  Ok (cell a i' j').

End Np.

(** ** Data model *)

(** The per-block dictionary of [build_block_grid]. *)
Record BlockState : Set := mk_BlockState {
  has_crater_metadata : bool;
  has_crater_data : bool;
  has_terrain_data : bool;
  is_padding : bool
}.

Global Instance BlockState_inhabited : Inhabited BlockState :=
  populate (mk_BlockState false false false false).

Definition set_has_crater_metadata (v : bool) (b : BlockState) : BlockState :=
  mk_BlockState v (has_crater_data b) (has_terrain_data b) (is_padding b).
Definition set_has_crater_data (v : bool) (b : BlockState) : BlockState :=
  mk_BlockState (has_crater_metadata b) v (has_terrain_data b) (is_padding b).
Definition set_has_terrain_data (v : bool) (b : BlockState) : BlockState :=
  mk_BlockState (has_crater_metadata b) (has_crater_data b) v (is_padding b).
Definition set_is_padding (v : bool) (b : BlockState) : BlockState :=
  mk_BlockState (has_crater_metadata b) (has_crater_data b)
    (has_terrain_data b) v.

(** The three readiness flags of a block. *)
Definition readiness (b : BlockState) : bool * bool * bool :=
  (has_crater_metadata b, has_crater_data b, has_terrain_data b).

Definition ready (b : BlockState) : bool :=
  has_crater_metadata b && has_crater_data b && has_terrain_data b.

(** Block coordinates (meters, multiples of [block_size]). *)
Abbreviation coord := (Z * Z)%type.

(** The store of [BlockState] objects: a location is an index, objects are
    never freed, and a new object takes the next index. *)
Abbreviation loc := nat (only parsing).
Abbreviation store := (list BlockState) (only parsing).

Definition alloc (b : BlockState) (h : store) : loc * store :=
  (length h, h ++ [b]).

(** Reading an object. Locations come from [alloc] and the store never
    shrinks, so the default of [!!!] is never reached by the program. *)
Definition deref (h : store) (l : loc) : BlockState := h !!! l.

(** [obj[field] = v] on the object at [l]. *)
Definition assign (f : BlockState -> BlockState) (l : loc) (h : store)
  : store := alter f l h.

(** The fields of [HighResDEMCfg] the modelled methods read. *)
Record HighResDEMCfg : Type := mk_HighResDEMCfg {
  num_blocks : Z;
  block_size : Z;
  resolution : Q;
  generate_craters : bool
}.

Record HighResDEMGen : Type := mk_HighResDEMGen {
  settings : HighResDEMCfg;
  current_block_coord : coord;
  sim_is_warm : bool;
  blocks : store;
  block_grid_tracker : gmap coord loc;
  map_grid_block2coords : gmap coord coord;
  high_res_dem : Np.ndarray
}.

Definition with_grid (self : HighResDEMGen) (h : store)
    (t : gmap coord loc) (m : gmap coord coord) : HighResDEMGen :=
  mk_HighResDEMGen (settings self) (current_block_coord self)
    (sim_is_warm self) h t m (high_res_dem self).

Definition with_blocks (self : HighResDEMGen) (h : store) : HighResDEMGen :=
  with_grid self h (block_grid_tracker self) (map_grid_block2coords self).

Definition with_dem (self : HighResDEMGen) (a : Np.ndarray) : HighResDEMGen :=
  mk_HighResDEMGen (settings self) (current_block_coord self)
    (sim_is_warm self) (blocks self) (block_grid_tracker self)
    (map_grid_block2coords self) a.

Definition with_current (self : HighResDEMGen) (c : coord) : HighResDEMGen :=
  mk_HighResDEMGen (settings self) c (sim_is_warm self) (blocks self)
    (block_grid_tracker self) (map_grid_block2coords self)
    (high_res_dem self).

Definition with_warm (self : HighResDEMGen) (w : bool) : HighResDEMGen :=
  mk_HighResDEMGen (settings self) (current_block_coord self) w
    (blocks self) (block_grid_tracker self) (map_grid_block2coords self)
    (high_res_dem self).

(** ** The block grid *)

(** The pairs [(x, y)] visited by the two nested loops
    [for x in range(-num_blocks - 1, num_blocks + 2)] /
    [for y in range(-num_blocks - 1, num_blocks + 2)], in order. *)
Definition grid_cells (n : Z) : list (Z * Z) :=
  x ← py_range (- n - 1) (n + 2);
  y ← py_range (- n - 1) (n + 2);
  [(x, y)].

(** The [if / elif / else] that decides [is_padding] from the loop indices. *)
Definition ring (n x y : Z) : bool :=
  if (x =? - n - 1) || (x =? n + 1) then true
  else if (y =? - n - 1) || (y =? n + 1) then true
  else false.

(** The dictionary literal of a block without data. *)
Definition empty_state (cfg : HighResDEMCfg) : BlockState :=
  {| has_crater_metadata := negb (generate_craters cfg);
     has_crater_data := negb (generate_craters cfg);
     has_terrain_data := false;
     is_padding := false |}.

Definition rel_of (cfg : HighResDEMCfg) (xy : Z * Z) : coord :=
  (xy.1 * block_size cfg, xy.2 * block_size cfg).

Definition abs_of (cfg : HighResDEMCfg) (c : coord) (xy : Z * Z) : coord :=
  (xy.1 * block_size cfg + c.1, xy.2 * block_size cfg + c.2).

(** The loop state of both grid loops: the store, the tracker under
    construction and the map under construction. *)
Abbreviation grid_acc := (store * gmap coord loc * gmap coord coord)%type
  (only parsing).

(** One iteration of the loops of [build_block_grid]. *)
Definition build_block_grid_body (cfg : HighResDEMCfg) (c : coord)
    (xy : Z * Z) (acc : grid_acc) : result grid_acc :=
  let '(h, t, m) := acc in
  let '(l, h1) := alloc (empty_state cfg) h in
  let t1 := <[rel_of cfg xy := l]> t in
  lp ← dict_get t1 (rel_of cfg xy);
  let h2 := assign (set_is_padding (ring (num_blocks cfg) xy.1 xy.2)) lp h1 in
  Ok (h2, t1, <[abs_of cfg c xy := rel_of cfg xy]> m).

Definition build_block_grid (self : HighResDEMGen) : result HighResDEMGen :=
  let cfg := settings self in
  '(h, t, m) ← for_each (build_block_grid_body cfg (current_block_coord self))
                 (grid_cells (num_blocks cfg)) (blocks self, ∅, ∅);
  Ok (with_grid self h t m).

(** One iteration of the loops of [shift_block_grid]. The old tracker and
    the old map are those of [self]; the padding flag is written through the
    OLD tracker, as in the source. *)
Definition shift_block_grid_body (self : HighResDEMGen) (c : coord)
    (xy : Z * Z) (acc : grid_acc) : result grid_acc :=
  let cfg := settings self in
  let '(h, nt, nm) := acc in
  '(l, h1) ← match map_grid_block2coords self !! abs_of cfg c xy with
             | None => Ok (alloc (empty_state cfg) h)
             | Some rc => l ← dict_get (block_grid_tracker self) rc; Ok (l, h)
             end;
  let nt1 := <[rel_of cfg xy := l]> nt in
  let nm1 := <[abs_of cfg c xy := rel_of cfg xy]> nm in
  lp ← dict_get (block_grid_tracker self) (rel_of cfg xy);
  let h2 := assign (set_is_padding (ring (num_blocks cfg) xy.1 xy.2)) lp h1 in
  Ok (h2, nt1, nm1).

Definition shift_block_grid (self : HighResDEMGen) (coordinates : coord)
  : result HighResDEMGen :=
  let cfg := settings self in
  '(h, nt, nm) ← for_each (shift_block_grid_body self coordinates)
                   (grid_cells (num_blocks cfg)) (blocks self, ∅, ∅);
  Ok (with_grid self h nt nm).

(** ** The buffer *)

(** [instantiate_high_res_dem]: a square array of zeros of side
    [int((num_blocks * 2 + 3) * block_size / resolution)]. *)
Definition dem_side (cfg : HighResDEMCfg) : result Z :=
  q ← py_div (inject_Z ((num_blocks cfg * 2 + 3) * block_size cfg))
       (resolution cfg);
  Ok (py_int q).

Definition instantiate_high_res_dem (self : HighResDEMGen)
  : result HighResDEMGen :=
  side ← dem_side (settings self);
  dem ← Np.zeros side side;
  Ok (with_dem self dem).

(** Source and target bounds of [shift_dem] along one axis, in the order
    [(min_s, max_s, min_t, max_t)]. *)
Definition shift_bounds (shift len : Z) : Z * Z * Z * Z :=
  if shift >? 0 then (0, - shift, shift, len)
  else if shift =? 0 then (0, len, 0, len)
  else (- shift, len, 0, shift).

Definition shift_dem (dem : Np.ndarray) (pixel_shift : Z * Z)
  : result Np.ndarray :=
  let '(x_shift, y_shift) := pixel_shift in
  if (x_shift >? Np.shape0 dem) || (y_shift >? Np.shape1 dem) then
    Ok (Np.fillslice dem Np.full Np.full 0%Q)
  else
    let '(x_min_s, x_max_s, x_min_t, x_max_t) :=
      shift_bounds x_shift (Np.shape0 dem) in
    let '(y_min_s, y_max_s, y_min_t, y_max_t) :=
      shift_bounds y_shift (Np.shape1 dem) in
    dem1 ← Np.setslice dem
              (Np.from_to x_min_t x_max_t) (Np.from_to y_min_t y_max_t)
              (Np.getslice dem
                 (Np.from_to x_min_s x_max_s) (Np.from_to y_min_s y_max_s));
    let dem2 :=
      if x_shift <? 0 then Np.fillslice dem1 (Np.from x_max_t) Np.full 0%Q
      else if x_shift >? 0 then
        Np.fillslice dem1 (Np.up_to x_min_t) Np.full 0%Q
      else dem1 in
    let dem3 :=
      if y_shift <? 0 then Np.fillslice dem2 Np.full (Np.from y_max_t) 0%Q
      else if y_shift >? 0 then
        Np.fillslice dem2 Np.full (Np.up_to y_min_t) 0%Q
      else dem2 in
    Ok dem3.

(** ** Coordinates *)

(** [int(x // block_size) * block_size]. *)
Definition cast_axis (cfg : HighResDEMCfg) (x : Q) : result Z :=
  q ← py_floordiv x (inject_Z (block_size cfg));
  Ok (py_int q * block_size cfg).

Definition cast_coordinates_to_block_space (self : HighResDEMGen)
    (coordinates : Q * Q) : result coord :=
  x_block ← cast_axis (settings self) coordinates.1;
  y_block ← cast_axis (settings self) coordinates.2;
  Ok (x_block, y_block).

(** [get_coordinates], one axis: [len] is the buffer's size and [cur] the
    current block coordinate along that axis. *)
Definition local_axis (cfg : HighResDEMCfg) (len cur : Z) (p : Q) : Q :=
  (p + inject_Z (len / 2) * resolution cfg - inject_Z cur
     - inject_Z (block_size cfg / 2))%Q.

Definition get_coordinates (self : HighResDEMGen) (coordinates : Q * Q)
  : Q * Q :=
  (local_axis (settings self) (Np.shape0 (high_res_dem self))
     (current_block_coord self).1 coordinates.1,
   local_axis (settings self) (Np.shape1 (high_res_dem self))
     (current_block_coord self).2 coordinates.2).

Definition get_height (self : HighResDEMGen) (coordinates : Q * Q)
  : result Q :=
  let local_coordinates := get_coordinates self coordinates in
  x ← py_div local_coordinates.1 (resolution (settings self));
  y ← py_div local_coordinates.2 (resolution (settings self));
  Np.getitem (high_res_dem self) (py_int x) (py_int y).

(** ** Readiness *)

(** A list comprehension whose element expression may raise. *)
Fixpoint list_comp {A B} (f : A -> result B) (l : list A) : result (list B) :=
  match l with
  | [] => Ok []
  | a :: l' =>
      match f a with
      | inl e => inl e
      | inr b =>
          match list_comp f l' with
          | inl e => inl e
          | inr bs => Ok (b :: bs)
          end
      end
  end.

(** The element expression of the comprehension in [is_map_done]. *)
Definition block_is_ready (self : HighResDEMGen) (coords : coord)
  : result bool :=
  l ← dict_get (block_grid_tracker self) coords;
  Ok (ready (deref (blocks self) l)).

(** [all([... for coords in self.map_grid_block2coords.values()])]. *)
Definition is_map_done (self : HighResDEMGen) : result bool :=
  flags ← list_comp (block_is_ready self)
            (map_to_list (map_grid_block2coords self)).*2;
  Ok (forallb id flags).

(** ** Shifting *)

(** The local [pixel_shift] of [shift]. *)
Definition pixel_shift (self : HighResDEMGen) (coordinates : Q * Q)
  : result (Z * Z) :=
  new_block_coord ← cast_coordinates_to_block_space self coordinates;
  let delta_coord :=
    (new_block_coord.1 - (current_block_coord self).1,
     new_block_coord.2 - (current_block_coord self).2) in
  px ← py_div (inject_Z delta_coord.1) (resolution (settings self));
  py ← py_div (inject_Z delta_coord.2) (resolution (settings self));
  Ok (- py_int px, - py_int py).

(** [generate_craters_metadata]. The crater sampler and the crater database
    are not part of this file: [db coords] is the answer of
    [crater_db.check_block_exists(coords)] once the region has been sampled
    (the sampler is taken not to raise). The dictionary is visited in the
    order of [map_to_list]. *)
Definition generate_craters_metadata (db : coord -> bool)
    (self : HighResDEMGen) : result HighResDEMGen :=
  h ← for_each
        (fun (kv : coord * coord) (h : store) =>
           let exists_ := db kv.1 in
           l ← dict_get (block_grid_tracker self) kv.2;
           Ok (assign (set_has_crater_metadata exists_) l h))
        (map_to_list (map_grid_block2coords self)) (blocks self);
  Ok (with_blocks self h).

(** The two kinds of work sent to the worker managers. *)
Inductive job : Set := CraterJob | TerrainJob.

(** [generate_terrain_blocks] changes nothing in [self]: it sends work to
    the two worker managers. The model returns the work items sent (block
    coordinates only); their payloads, [crater_db.get_block_data(coords)]
    and [querry_low_res_dem(coords)], and the managers themselves are
    outside this file and are taken not to raise. *)
Definition generate_terrain_blocks (self : HighResDEMGen)
  : result (list (job * coord)) :=
  for_each
    (fun (kv : coord * coord) (sent : list (job * coord)) =>
       l ← dict_get (block_grid_tracker self) kv.2;
       let b := deref (blocks self) l in
       let sent1 :=
         if has_crater_data b then sent else sent ++ [(CraterJob, kv.1)] in
       let sent2 :=
         if has_terrain_data b then sent1
         else sent1 ++ [(TerrainJob, kv.1)] in
       Ok sent2)
    (map_to_list (map_grid_block2coords self)) [].

Definition shift (db : coord -> bool) (self : HighResDEMGen)
    (coordinates : Q * Q) : result HighResDEMGen :=
  new_block_coord ← cast_coordinates_to_block_space self coordinates;
  pixel_shift ← pixel_shift self coordinates;
  self1 ← shift_block_grid self new_block_coord;
  dem ← shift_dem (high_res_dem self1) pixel_shift;
  let self2 := with_current (with_dem self1 dem) new_block_coord in
  self3 ← (if generate_craters (settings self2)
           then generate_craters_metadata db self2 else Ok self2);
  _ ← generate_terrain_blocks self3;
  Ok self3.

Definition inject_coord (c : coord) : Q * Q := (inject_Z c.1, inject_Z c.2).

(** [update_high_res_dem]; the background thread it starts is the repeated
    [collect_terrain_data] below. *)
Definition update_high_res_dem (db : coord -> bool) (self : HighResDEMGen)
    (coords : Q * Q) : result (bool * HighResDEMGen) :=
  block_coordinates ← cast_coordinates_to_block_space self coords;
  '(updated, self1) ←
    (if negb (sim_is_warm self) then
       s ← shift db self (inject_coord block_coordinates);
       Ok (true, with_warm s true)
     else Ok (false, self));
  if decide (current_block_coord self1 ≠ block_coordinates) then
    s ← shift db self1 coords;
    Ok (true, s)
  else Ok (updated, self1).

(** ** Collecting the workers' results *)

(** The loop body shared by the two loops of [collect_terrain_data]:
    [mark] sets the flag of the loop. *)
Definition collect_body (mark : BlockState -> BlockState) (offset : Z)
    (r : coord * Np.ndarray) (self : HighResDEMGen) : result HighResDEMGen :=
  let cfg := settings self in
  let '(coords, data) := r in
  '(x_c, y_c) ← dict_get (map_grid_block2coords self) coords;
  x0 ← py_div (inject_Z x_c) (resolution cfg);
  x1 ← py_div (inject_Z (x_c + block_size cfg)) (resolution cfg);
  y0 ← py_div (inject_Z y_c) (resolution cfg);
  y1 ← py_div (inject_Z (y_c + block_size cfg)) (resolution cfg);
  dem ← Np.addslice (high_res_dem self)
          (Np.from_to (py_int x0 + offset) (py_int x1 + offset))
          (Np.from_to (py_int y0 + offset) (py_int y1 + offset))
          data;
  l ← dict_get (block_grid_tracker self) (x_c, y_c);
  Ok (with_blocks (with_dem self dem) (assign mark l (blocks self))).

(** [collect_terrain_data], given what the two [collect_results()] calls
    return. *)
Definition collect_terrain_data
    (crater_results terrain_results : list (coord * Np.ndarray))
    (self : HighResDEMGen) : result HighResDEMGen :=
  let cfg := settings self in
  q ← py_div (inject_Z ((num_blocks cfg + 1) * block_size cfg))
        (resolution cfg);
  let offset := py_int q in
  self1 ← for_each (collect_body (set_has_crater_data true) offset)
            crater_results self;
  for_each (collect_body (set_has_terrain_data true) offset)
    terrain_results self1.

(** ** Construction *)

(** The attributes set by [__init__] before it calls [build]; the grid and
    the buffer do not exist yet (empty dictionaries and an empty array stand
    for them). *)
Definition blank (cfg : HighResDEMCfg) : HighResDEMGen :=
  {| settings := cfg;
     current_block_coord := (0, 0);
     sim_is_warm := false;
     blocks := [];
     block_grid_tracker := ∅;
     map_grid_block2coords := ∅;
     high_res_dem := Np.const 0 0 0%Q |}.

(** [__init__] followed by [build]. *)
Definition init (cfg : HighResDEMCfg) : result HighResDEMGen :=
  self1 ← build_block_grid (blank cfg);
  instantiate_high_res_dem self1.

(** ** The low resolution DEM *)

(** The fields of [HighResDEMCfg] about the source DEM. *)
Record LowResCfg : Type := mk_LowResCfg {
  source_resolution : Q;
  interpolation_padding : Z
}.

(** The attributes set by [get_low_res_dem_offset]. *)
Record LowResOffsets : Type := mk_LowResOffsets {
  lr_dem_px_offset : Z * Z;
  lr_dem_ratio : Q;
  lr_dem_block_size : Z
}.

(** [get_low_res_dem_offset]: the center of the low resolution DEM, the
    ratio of the two resolutions and the number of source samples along a
    block. *)
Definition get_low_res_dem_offset (cfg : HighResDEMCfg) (lr : LowResCfg)
    (low_res_dem : Np.ndarray) : result LowResOffsets :=
  ratio ← py_div (source_resolution lr) (resolution cfg);
  size ← py_div (inject_Z (block_size cfg)) (source_resolution lr);
  Ok {| lr_dem_px_offset :=
          (Np.shape0 low_res_dem / 2, Np.shape1 low_res_dem / 2);
        lr_dem_ratio := ratio;
        lr_dem_block_size := py_int size |}.

(** The local [lr_dem_coordinates] of [querry_low_res_dem], one axis. *)
Definition lr_dem_coordinate (lr : LowResCfg) (offset : Z) (x : Q)
  : result Z :=
  q ← py_div x (source_resolution lr);
  Ok (py_int (q + inject_Z offset)%Q).

(** [querry_low_res_dem]: the patch of the low resolution DEM sent to the
    interpolation workers for a block. *)
Definition querry_low_res_dem (lr : LowResCfg) (off : LowResOffsets)
    (low_res_dem : Np.ndarray) (coordinates : Q * Q) : result Np.ndarray :=
  x ← lr_dem_coordinate lr (lr_dem_px_offset off).1 coordinates.1;
  y ← lr_dem_coordinate lr (lr_dem_px_offset off).2 coordinates.2;
  Ok (Np.getslice low_res_dem
        (Np.from_to (x - interpolation_padding lr)
           (x + lr_dem_block_size off + interpolation_padding lr))
        (Np.from_to (y - interpolation_padding lr)
           (y + lr_dem_block_size off + interpolation_padding lr))).

(** ** The region sampled for craters *)

(** The fields of [BoundingBox]. *)
Record BoundingBox : Set := mk_BoundingBox {
  x_min : Z;
  x_max : Z;
  y_min : Z;
  y_max : Z
}.

(** The [region] of [generate_craters_metadata]; [int] is the identity on
    the integer block coordinates. *)
Definition crater_region (self : HighResDEMGen) : BoundingBox :=
  let cfg := settings self in
  let c := current_block_coord self in
  {| x_min := c.1 - (num_blocks cfg + 2) * block_size cfg;
     x_max := c.1 + (num_blocks cfg + 2) * block_size cfg;
     y_min := c.2 - (num_blocks cfg + 2) * block_size cfg;
     y_max := c.2 + (num_blocks cfg + 2) * block_size cfg |}.

(** ** Construction and the update thread *)

(** [build] on the modelled attributes: the grid and the buffer ([init]),
    then the offsets of the low resolution DEM. The crater and worker
    objects it creates first are outside this file. *)
Definition build (cfg : HighResDEMCfg) (lr : LowResCfg)
    (low_res_dem : Np.ndarray) : result (HighResDEMGen * LowResOffsets) :=
  self ← init cfg;
  off ← get_low_res_dem_offset cfg lr low_res_dem;
  Ok (self, off).

(** [threaded_high_res_dem_update]: [while not self.is_map_done():
    self.collect_terrain_data()]. [batches] is what the successive calls of
    [collect_results()] return, a pair per pass; when it is used up while
    the map is not done the thread is still waiting ([None]). *)
Fixpoint threaded_high_res_dem_update
    (batches : list (list (coord * Np.ndarray) * list (coord * Np.ndarray)))
    (self : HighResDEMGen) : result (option HighResDEMGen) :=
  done ← is_map_done self;
  if done : bool then Ok (Some self)
  else
    match batches with
    | [] => Ok None
    | (crater_results, terrain_results) :: rest =>
        self1 ← collect_terrain_data crater_results terrain_results self;
        threaded_high_res_dem_update rest self1
    end.

(** * Specification

    The predicates the properties are stated with, the invariants of the
    loops, the reachable states and a small generator on which the
    properties are evaluated. *)

(** ** Tactics *)

(** Case analysis on the integer comparisons of the goal, innermost first. *)
Ltac no_if t :=
  lazymatch t with
  | context [if _ then _ else _] => fail
  | _ => idtac
  end.

Ltac cmp_cases :=
  repeat match goal with
    | |- context [?a >? ?b] => rewrite (Z.gtb_ltb a b)
    | |- context [?a <? ?b] => no_if a; no_if b; destruct (Z.ltb_spec a b)
    | |- context [?a <=? ?b] => no_if a; no_if b; destruct (Z.leb_spec a b)
    | |- context [?a =? ?b] => no_if a; no_if b; destruct (Z.eqb_spec a b)
    end.

(** Case analysis on the sign of the shift [d], then on the comparisons
    left by the slice bounds. *)
Ltac axis_cases :=
  unfold shift_bounds;
  unfold Np.selects, Np.extent, Np.upper, Np.lower, Np.adjust;
  repeat match goal with
    | |- context [?d >? 0] => rewrite (Z.gtb_ltb d 0)
    end;
  match goal with
  | |- context [0 <? ?d] =>
      destruct (Z.ltb_spec 0 d);
      [| destruct (Z.eqb_spec d 0);
         [| destruct (Z.ltb_spec d 0); [| lia]]]
  end;
  simpl; cmp_cases; simpl; repeat split; (lia || reflexivity).

(** ** Slices of a shift *)

(** The slices of the copy of [shift_dem] along an axis of length [len]
    shifted by [d]: where the samples are read, where they are written. *)
Definition source_slice (len d : Z) : Np.slice :=
  Np.from_to (shift_bounds d len).1.1.1 (shift_bounds d len).1.1.2.

Definition target_slice (len d : Z) : Np.slice :=
  Np.from_to (shift_bounds d len).1.2 (shift_bounds d len).2.

(** Is index [i] in the slice that [shift_dem] fills with zeros along the
    axis, if any? *)
Definition exposed (len d i : Z) : bool :=
  if d <? 0 then Np.selects (Np.from (shift_bounds d len).2) len i
  else if d >? 0 then Np.selects (Np.up_to (shift_bounds d len).1.2) len i
  else false.

(** ** Invariants of the store and of the grid loops *)

(** Every object of [h0] is still in [h], with the same value of [f]. *)
Definition keeps {X} (f : BlockState -> X) (h0 h : store) : Prop :=
  forall l b0, h0 !! l = Some b0 ->
    exists b, h !! l = Some b /\ f b = f b0.

(** What a grid loop has built after visiting the cells [done] around the
    center [c]: the map sends the absolute coordinate of each visited cell
    to its relative slot, and the tracker is defined on the visited slots. *)
Definition map_built (cfg : HighResDEMCfg) (c : coord) (done : list (Z * Z))
    (m : gmap coord coord) : Prop :=
  forall k v, m !! k = Some v <->
    exists xy, xy ∈ done /\ k = abs_of cfg c xy /\ v = rel_of cfg xy.

Definition tracker_built (cfg : HighResDEMCfg) (done : list (Z * Z))
    (t : gmap coord loc) : Prop :=
  forall k, is_Some (t !! k) <-> exists xy, xy ∈ done /\ k = rel_of cfg xy.

Definition tracker_valid (t : gmap coord loc) (h : store) : Prop :=
  forall k l, t !! k = Some l -> (l < length h)%nat.

(** The object the new tracker [nt] holds for the cell [xy] after a shift of
    [self] to the center [c]: the object the old tracker held for the same
    absolute coordinate, or an object allocated by the loop. *)
Definition carried (self : HighResDEMGen) (c : coord) (h : store)
    (nt : gmap coord loc) (xy : Z * Z) : Prop :=
  exists l, nt !! rel_of (settings self) xy = Some l /\
    match map_grid_block2coords self !! abs_of (settings self) c xy with
    | Some rc => block_grid_tracker self !! rc = Some l
    | None => (length (blocks self) <= l < length h)%nat
    end.

(** The invariant of the loop of [shift_block_grid self c]. *)
Definition shift_inv (self : HighResDEMGen) (c : coord)
    (done : list (Z * Z)) (acc : grid_acc) : Prop :=
  let '(h, nt, nm) := acc in
  (length (blocks self) <= length h)%nat
  /\ keeps readiness (blocks self) h
  /\ (forall l, (length (blocks self) <= l < length h)%nat ->
        h !! l = Some (empty_state (settings self)))
  /\ map_built (settings self) c done nm
  /\ tracker_built (settings self) done nt
  /\ (forall xy, xy ∈ done -> carried self c h nt xy).

(** The invariant of the loop of [build_block_grid] around the center [c],
    started from the store [h0]. *)
Definition build_inv (cfg : HighResDEMCfg) (c : coord) (h0 : store)
    (done : list (Z * Z)) (acc : grid_acc) : Prop :=
  let '(h, t, m) := acc in
  (length h0 <= length h)%nat
  /\ map_built cfg c done m
  /\ tracker_built cfg done t
  /\ (forall k l, t !! k = Some l ->
        (length h0 <= l)%nat
        /\ exists b, h !! l = Some b
                     /\ readiness b = readiness (empty_state cfg)).

(** The grid of [self] is the window of center [c]: the map sends the
    absolute coordinate of every cell of the window to its relative slot,
    the tracker is defined exactly on the relative slots, and the objects it
    refers to are in the store. *)
Definition grid_at (self : HighResDEMGen) (c : coord) : Prop :=
  let cfg := settings self in
  map_built cfg c (grid_cells (num_blocks cfg)) (map_grid_block2coords self)
  /\ tracker_built cfg (grid_cells (num_blocks cfg)) (block_grid_tracker self)
  /\ tracker_valid (block_grid_tracker self) (blocks self).

(** The flags that only the collection of worker results sets. *)
Definition data_flags (b : BlockState) : bool * bool :=
  (has_crater_data b, has_terrain_data b).

(** ** Reachable states *)

(** The states of a running generator: built by [__init__], then driven by
    [update_high_res_dem] and [shift] (with any answers of the crater
    database) and by [collect_terrain_data] (with any results of the
    workers). *)
Inductive reachable : HighResDEMGen -> Prop :=
  | reach_init cfg self :
      init cfg = Ok self -> reachable self
  | reach_update db self coords updated self' :
      reachable self ->
      update_high_res_dem db self coords = Ok (updated, self') ->
      reachable self'
  | reach_shift db self coords self' :
      reachable self ->
      shift db self coords = Ok self' ->
      reachable self'
  | reach_collect crater_results terrain_results self self' :
      reachable self ->
      collect_terrain_data crater_results terrain_results self = Ok self' ->
      reachable self'.

(** The grid of [self] is the window of its current block coordinate. *)
Definition wf (self : HighResDEMGen) : Prop :=
  grid_at self (current_block_coord self).

(** [self'] has the settings, the center and the warm flag of [self]. *)
Definition same_frame (self self' : HighResDEMGen) : Prop :=
  settings self' = settings self
  /\ current_block_coord self' = current_block_coord self
  /\ sim_is_warm self' = sim_is_warm self.

(** [self'] has the settings of [self] and a buffer of the same shape. *)
Definition same_shape (self self' : HighResDEMGen) : Prop :=
  settings self' = settings self
  /\ Np.shape0 (high_res_dem self') = Np.shape0 (high_res_dem self)
  /\ Np.shape1 (high_res_dem self') = Np.shape1 (high_res_dem self).

(** The resolution is not zero and the buffer has a shape. *)
Definition buffer_ok (self : HighResDEMGen) : Prop :=
  ~ (resolution (settings self) == 0)%Q
  /\ 0 <= Np.shape0 (high_res_dem self)
  /\ 0 <= Np.shape1 (high_res_dem self).

(** ** A small generator *)

(** The state of a computation that did not raise ([d] otherwise). *)
Definition or_else {A} (r : result A) (d : A) : A :=
  match r with
  | inr a => a
  | inl _ => d
  end.

(** One block of 50 m around the center plus the padding ring, 0.05 m per
    sample, no craters: a buffer of 3000 x 3000 samples. *)
Definition demo_cfg : HighResDEMCfg :=
  {| num_blocks := 0;
     block_size := 50;
     resolution := 1 # 20;
     generate_craters := false |}.

Definition no_db : coord -> bool := fun _ => false.

(** After construction. *)
Definition demo_init : HighResDEMGen :=
  or_else (init demo_cfg) (blank demo_cfg).

(** After [update_high_res_dem((0, 0))]. *)
Definition demo_warm : HighResDEMGen :=
  (or_else (update_high_res_dem no_db demo_init (0, 0)%Q)
     (false, demo_init)).2.

(** A raster of one block (1000 x 1000 samples) whose row [i] has the
    height [i + 1]. *)
Definition ramp : Np.ndarray :=
  {| Np.shape0 := 1000; Np.shape1 := 1000;
     Np.cell := fun i _ => inject_Z (i + 1) |}.

(** After the interpolation worker has returned the center block. *)
Definition demo_center : HighResDEMGen :=
  or_else (collect_terrain_data [] [((0, 0), ramp)] demo_warm) demo_warm.

(** After it has also returned the padding block at [(50, 0)]. *)
Definition demo_edge : HighResDEMGen :=
  or_else (collect_terrain_data [] [((50, 0), ramp)] demo_center) demo_center.

(** After [shift((60, 0))] on [demo_center]: the window moves to the block
    [(50, 0)]. *)
Definition demo_shifted : HighResDEMGen :=
  or_else (shift no_db demo_center (60, 0)%Q) demo_center.


(** A generator with blocks of an odd number of meters: 5 m, 0.5 m per
    sample, a buffer of 30 x 30 samples. *)
Definition odd_cfg : HighResDEMCfg :=
  {| num_blocks := 0;
     block_size := 5;
     resolution := 1 # 2;
     generate_craters := false |}.

(** A raster of one of its blocks (10 x 10 samples) whose row [i] has the
    height [i + 1]. *)
Definition odd_ramp : Np.ndarray :=
  {| Np.shape0 := 10; Np.shape1 := 10;
     Np.cell := fun i _ => inject_Z (i + 1) |}.

Definition odd_init : HighResDEMGen :=
  or_else (init odd_cfg) (blank odd_cfg).

Definition odd_warm : HighResDEMGen :=
  (or_else (update_high_res_dem no_db odd_init (0, 0)%Q)
     (false, odd_init)).2.

(** After the interpolation worker has returned its center block. *)
Definition odd_center : HighResDEMGen :=
  or_else (collect_terrain_data [] [((0, 0), odd_ramp)] odd_warm) odd_warm.

(** Did the computation return? *)
Definition returned {A} (r : result A) : bool :=
  match r with
  | inr _ => true
  | inl _ => false
  end.

(** ** The properties, and the claims as the specification words them *)

(** The claim C1 as the specification words it: only the blocks that are
    not padding have to be ready. *)
Definition done_iff_usable_ready (self : HighResDEMGen) : Prop :=
  exists b, is_map_done self = Ok b
    /\ (b = true <->
        forall rel l, block_grid_tracker self !! rel = Some l ->
          is_padding (deref (blocks self) l) = false ->
          ready (deref (blocks self) l) = true).

(** The index [get_height] reads along one axis of length [len]:
    [int((p + (len // 2) * resolution - cur - block_size // 2) / resolution)]. *)
Definition pixel_axis (cfg : HighResDEMCfg) (len cur : Z) (p : Q) : Z :=
  py_int ((p + inject_Z (len / 2) * resolution cfg - inject_Z cur
           - inject_Z (block_size cfg / 2)) / resolution cfg)%Q.

Definition pixel_of (self : HighResDEMGen) (p : Q * Q) : Z * Z :=
  (pixel_axis (settings self) (Np.shape0 (high_res_dem self))
     (current_block_coord self).1 p.1,
   pixel_axis (settings self) (Np.shape1 (high_res_dem self))
     (current_block_coord self).2 p.2).

(** The index of the specification: the floor of
    [(p + (len // 2) * resolution - cur) / resolution], without the half
    block. *)
Definition floored_axis (cfg : HighResDEMCfg) (len cur : Z) (p : Q) : Z :=
  Qfloor ((p + inject_Z (len / 2) * resolution cfg - inject_Z cur)
          / resolution cfg)%Q.

Definition floored_pixel (self : HighResDEMGen) (p : Q * Q) : Z * Z :=
  (floored_axis (settings self) (Np.shape0 (high_res_dem self))
     (current_block_coord self).1 p.1,
   floored_axis (settings self) (Np.shape1 (high_res_dem self))
     (current_block_coord self).2 p.2).






(** The claim C3 as the specification words it. *)
Definition raises_out_of_bounds (self : HighResDEMGen) (p : Q * Q) : Prop :=
  let '(i, j) := pixel_of self p in
  ~ Np.in_bounds (high_res_dem self) i j ->
  exists e, get_height self p = Raise e.

(** Python's reading of a negative index. *)
Definition wrap (len i : Z) : Z := if i <? 0 then i + len else i.

(** The claim C4 as the specification words it: the object carried over
    for a coordinate of the old map has identical flag values, all four of
    them, before and after the shift. *)
Definition carries_identical_blocks (self : HighResDEMGen) (c : coord)
  : Prop :=
  exists self',
    shift_block_grid self c = Ok self'
    /\ forall xy, xy ∈ grid_cells (num_blocks (settings self)) ->
         match map_grid_block2coords self !! abs_of (settings self) c xy with
         | Some rc =>
             exists l,
               block_grid_tracker self !! rc = Some l
               /\ block_grid_tracker self' !! rel_of (settings self) xy
                  = Some l
               /\ deref (blocks self') l = deref (blocks self) l
         | None =>
             exists l,
               block_grid_tracker self' !! rel_of (settings self) xy = Some l
               /\ blocks self !! l = None
               /\ has_terrain_data (deref (blocks self') l) = false
               /\ has_crater_metadata (deref (blocks self') l)
                  = negb (generate_craters (settings self))
               /\ has_crater_data (deref (blocks self') l)
                  = negb (generate_craters (settings self))
         end.

(** The grid of [demo_shifted] moved one block further, to [(100, 0)]. *)
Definition demo_grid_moved : HighResDEMGen :=
  or_else (shift_block_grid demo_shifted (100, 0)) demo_shifted.

(** The map of [self] is a bijection from the absolute coordinates of the
    window of center [c] onto the slots of the tracker: it sends an
    absolute coordinate to a slot of the tracker, namely the coordinate
    minus the center, and every slot of the tracker is the image of exactly
    one absolute coordinate. *)
Definition bijection_at (self : HighResDEMGen) (c : coord) : Prop :=
  (forall abs rel, map_grid_block2coords self !! abs = Some rel ->
     is_Some (block_grid_tracker self !! rel)
     /\ abs = (rel.1 + c.1, rel.2 + c.2))
  /\ (forall rel, is_Some (block_grid_tracker self !! rel) ->
        exists abs, map_grid_block2coords self !! abs = Some rel
          /\ forall abs', map_grid_block2coords self !! abs' = Some rel ->
               abs' = abs).

(** The claim C5: every slot [(x, y)] of the window holds a block whose
    [is_padding] flag tells whether the slot is in the outermost ring. *)
Definition padding_follows_ring (self : HighResDEMGen) : Prop :=
  let cfg := settings self in
  forall x y, (x, y) ∈ grid_cells (num_blocks cfg) ->
    exists l, block_grid_tracker self !! rel_of cfg (x, y) = Some l
      /\ (is_padding (deref (blocks self) l) = true
          <-> Z.abs x = num_blocks cfg + 1 \/ Z.abs y = num_blocks cfg + 1).

(** The same, as a test of one cell. *)
Definition padding_ok (self : HighResDEMGen) (xy : Z * Z) : bool :=
  let cfg := settings self in
  match block_grid_tracker self !! rel_of cfg xy with
  | Some l =>
      bool_decide
        (is_padding (deref (blocks self) l)
         = bool_decide (Z.abs xy.1 = num_blocks cfg + 1
                        \/ Z.abs xy.2 = num_blocks cfg + 1))
  | None => false
  end.

(** The grid of [demo_warm] moved to the block [(50, 0)]. *)
Definition demo_grid_shifted : HighResDEMGen :=
  or_else (shift_block_grid demo_warm (50, 0)) demo_warm.

(** The claim C10 for the grid: the shift to the current center leaves the
    map unchanged and every slot with the block state it had. *)
Definition same_center_is_identity (self : HighResDEMGen) : Prop :=
  exists self',
    shift_block_grid self (current_block_coord self) = Ok self'
    /\ map_grid_block2coords self' = map_grid_block2coords self
    /\ forall rel l, block_grid_tracker self !! rel = Some l ->
         exists l', block_grid_tracker self' !! rel = Some l'
           /\ deref (blocks self') l' = deref (blocks self) l.

(** The grid of [demo_shifted] shifted to its own center [(50, 0)]. *)
Definition demo_shifted_again : HighResDEMGen :=
  or_else (shift_block_grid demo_shifted (50, 0)) demo_shifted.

(** Any number of passes of the background collection. *)
Inductive collected : HighResDEMGen -> HighResDEMGen -> Prop :=
  | collected_refl self : collected self self
  | collected_step crater_results terrain_results self self1 self2 :
      collected self self1 ->
      collect_terrain_data crater_results terrain_results self1 = Ok self2 ->
      collected self self2.

(** The configuration of the scenario: blocks of 50 m, 0.05 m per sample. *)
Definition scenario_cfg (n : Z) (gc : bool) : HighResDEMCfg :=
  {| num_blocks := n; block_size := 50; resolution := 1 # 20;
     generate_craters := gc |}.

(** [self] is a generator of the scenario after [update((0, 0))] and any
    number of collection passes. *)
Definition warmed_at_origin (n : Z) (gc : bool) (db : coord -> bool)
    (self : HighResDEMGen) : Prop :=
  exists self0 self1,
    init (scenario_cfg n gc) = Ok self0
    /\ update_high_res_dem db self0 (0, 0)%Q = Ok (true, self1)
    /\ collected self1 self.

(** The pixel delta of the specification's scenario, [-60 / resolution]. *)
Definition claimed_pixel_delta : Z * Z := (- py_int (60 / (1 # 20))%Q, 0).

(** The claim C8 on the pixel delta: [update(coords)] returns [True] and
    shifts the buffer by [delta]. *)
Definition update_shifts_by (db : coord -> bool) (self : HighResDEMGen)
    (coords : Q * Q) (delta : Z * Z) : Prop :=
  exists self2,
    update_high_res_dem db self coords = Ok (true, self2)
    /\ pixel_shift self coords = Ok delta
    /\ shift_dem (high_res_dem self) delta = Ok (high_res_dem self2).

(** ** Blocks and the lattice *)

(** The block of corner [b] contains the position [x] along one axis. *)
Definition axis_contains (cfg : HighResDEMCfg) (b : Z) (x : Q) : Prop :=
  (inject_Z b <= x)%Q /\ (x < inject_Z (b + block_size cfg))%Q.

(** The block of lower corner [c] (in meters) contains the position [p]. *)
Definition block_contains (cfg : HighResDEMCfg) (c : coord) (p : Q * Q)
  : Prop :=
  axis_contains cfg c.1 p.1 /\ axis_contains cfg c.2 p.2.

(** [c] is a corner of the lattice of blocks. *)
Definition on_lattice (cfg : HighResDEMCfg) (c : coord) : Prop :=
  exists kx ky, c = rel_of cfg (kx, ky).

(** A magnitude below [2 ^ 53]. Up to there binary floating point holds
    the integers exactly, and [x // block_size] on a float [x] and an
    integer [block_size] is the exact floor of the quotient. *)
Definition exact_range (x : Q) : Prop :=
  (inject_Z (- 2 ^ 53) < x)%Q /\ (x < inject_Z (2 ^ 53))%Q.

(** ** More invariants of the reachable states *)

(** The state [shift] reaches before it looks at the craters. *)
Definition shifted_to (self : HighResDEMGen) (h : list BlockState)
    (nt : gmap coord nat) (nm : gmap coord coord) (dem : Np.ndarray)
    (nb : coord) : HighResDEMGen :=
  with_current (with_dem (with_grid self h nt nm) dem) nb.

(** The two flags the collection sets. *)
Definition collect_mark (mark : BlockState -> BlockState) : Prop :=
  mark = set_has_crater_data true \/ mark = set_has_terrain_data true.

(** Distinct slots of the tracker hold distinct objects. *)
Definition tracker_inj (t : gmap coord nat) : Prop :=
  forall k k' l, t !! k = Some l -> t !! k' = Some l -> k = k'.

(** The crater flags of an object are set. *)
Definition craters_done (b : BlockState) : Prop :=
  has_crater_metadata b = true /\ has_crater_data b = true.

(** What the loop of [shift_block_grid self c] keeps besides [shift_inv]:
    the new tracker refers to the store, holds an object once, and holds an
    old object only for the absolute coordinate it had. *)
Definition shift_inj_inv (self : HighResDEMGen) (c : coord)
    (acc : list BlockState * gmap coord nat * gmap coord coord) : Prop :=
  let '(h, nt, nm) := acc in
  (length (blocks self) <= length h)%nat
  /\ tracker_valid nt h
  /\ tracker_inj nt
  /\ (forall k l, nt !! k = Some l -> (l < length (blocks self))%nat ->
        exists xy rc,
          k = rel_of (settings self) xy
          /\ map_grid_block2coords self !! abs_of (settings self) c xy
             = Some rc
          /\ block_grid_tracker self !! rc = Some l).

(** The same for the loop of [build_block_grid]. *)
Definition build_inj_inv
    (acc : list BlockState * gmap coord nat * gmap coord coord) : Prop :=
  let '(h, t, m) := acc in tracker_valid t h /\ tracker_inj t.

(** ** Collected results and sent work *)

(** A result for the object at [l] is among [results]: one of them names a
    block coordinate whose slot holds [l]. *)
Definition collected_at (self : HighResDEMGen)
    (results : list (coord * Np.ndarray)) (l : nat) : Prop :=
  exists k d rel,
    (k, d) ∈ results
    /\ map_grid_block2coords self !! k = Some rel
    /\ block_grid_tracker self !! rel = Some l.

(** The store [h] is [h0] with [mark] applied to the objects for which a
    result of [results] has been collected. *)
Definition marked (self : HighResDEMGen) (mark : BlockState -> BlockState)
    (results : list (coord * Np.ndarray)) (h0 h : list BlockState) : Prop :=
  length h = length h0
  /\ forall l b, h0 !! l = Some b ->
       exists b', h !! l = Some b'
         /\ (b' = b \/ (b' = mark b /\ collected_at self results l))
         /\ (collected_at self results l -> b' = mark b).

(** What a block lacks for a job to be sent. *)
Definition lacks (j : job) (b : BlockState) : Prop :=
  match j with
  | CraterJob => has_crater_data b = false
  | TerrainJob => has_terrain_data b = false
  end.

(** What the loop of [generate_craters_metadata] has done to the store
    after the entries [done] of the map. *)
Definition metadata_inv (db : coord -> bool) (self : HighResDEMGen)
    (done : list (coord * coord)) (h : list BlockState) : Prop :=
  length h = length (blocks self)
  /\ (forall kv, kv ∈ done -> map_grid_block2coords self !! kv.1 = Some kv.2)
  /\ (forall l b, blocks self !! l = Some b ->
        exists v, h !! l = Some (set_has_crater_metadata v b))
  /\ (forall k rel l, (k, rel) ∈ done ->
        block_grid_tracker self !! rel = Some l ->
        exists b', h !! l = Some b' /\ has_crater_metadata b' = db k).

(** What the loop of [generate_terrain_blocks] has sent after the entries
    [done] of the map. *)
Definition sent_inv (self : HighResDEMGen) (done : list (coord * coord))
    (sent : list (job * coord)) : Prop :=
  forall j k, (j, k) ∈ sent <->
    exists rel l,
      (k, rel) ∈ done
      /\ block_grid_tracker self !! rel = Some l
      /\ lacks j (deref (blocks self) l).

(** ** Moved samples *)

(** Is [(i, j)] an index of the array? *)
Definition in_boundsb (a : Np.ndarray) (i j : Z) : bool :=
  (0 <=? i) && (i <? Np.shape0 a) && (0 <=? j) && (j <? Np.shape1 a).

(** The sample of [dem] moved by [(dx, dy)] that lands on [(i, j)], zero
    where nothing lands. *)
Definition moved (dem : Np.ndarray) (dx dy i j : Z) : Q :=
  if in_boundsb dem (i - dx) (j - dy) then Np.cell dem (i - dx) (j - dy)
  else 0%Q.

(** ** The slices of a collection *)

(** The local [offset] of [collect_terrain_data]:
    [int((num_blocks + 1) * block_size / resolution)]. *)
Definition collect_offset (cfg : HighResDEMCfg) : Z :=
  py_int (inject_Z ((num_blocks cfg + 1) * block_size cfg) / resolution cfg).

(** The slice of the buffer to which [collect_terrain_data] adds the raster
    of the block of relative coordinate [x_c], along one axis:
    [int(x_c / resolution) + offset
     : int((x_c + block_size) / resolution) + offset]. *)
Definition collect_slice (cfg : HighResDEMCfg) (x_c : Z) : Np.slice :=
  Np.from_to
    (py_int (inject_Z x_c / resolution cfg) + collect_offset cfg)
    (py_int (inject_Z (x_c + block_size cfg) / resolution cfg)
     + collect_offset cfg).

(** The raster [data] can be added to the slices of the block of relative
    coordinates [rel]: along each axis it has the length of the slice, or
    the length 1. *)
Definition fits_block (self : HighResDEMGen) (rel : coord)
    (data : Np.ndarray) : Prop :=
  Np.broadcastable (Np.shape0 data)
    (Np.extent (collect_slice (settings self) rel.1)
       (Np.shape0 (high_res_dem self))) = true
  /\ Np.broadcastable (Np.shape1 data)
       (Np.extent (collect_slice (settings self) rel.2)
          (Np.shape1 (high_res_dem self))) = true.

(** The sample [(i, j)] of the buffer lies in the slices of a block that
    one of the [results] names. *)
Definition in_collected_region (self : HighResDEMGen)
    (results : list (coord * Np.ndarray)) (i j : Z) : Prop :=
  exists k d rel,
    (k, d) ∈ results
    /\ map_grid_block2coords self !! k = Some rel
    /\ Np.selects (collect_slice (settings self) rel.1)
         (Np.shape0 (high_res_dem self)) i = true
    /\ Np.selects (collect_slice (settings self) rel.2)
         (Np.shape1 (high_res_dem self)) j = true.

(** What a loop of [collect_terrain_data] over [results] has done to the
    buffer of [self] when it leaves [self']: the settings, the map and the
    shape are the same, every result named a block of the window with a
    raster that fits its slices, and the samples outside those slices have
    their old values. *)
Definition collect_frame (self : HighResDEMGen)
    (results : list (coord * Np.ndarray)) (self' : HighResDEMGen) : Prop :=
  settings self' = settings self
  /\ map_grid_block2coords self' = map_grid_block2coords self
  /\ Np.shape0 (high_res_dem self') = Np.shape0 (high_res_dem self)
  /\ Np.shape1 (high_res_dem self') = Np.shape1 (high_res_dem self)
  /\ (forall k d, (k, d) ∈ results ->
        exists rel, map_grid_block2coords self !! k = Some rel
                    /\ fits_block self rel d)
  /\ (forall i j, ~ in_collected_region self results i j ->
        Np.cell (high_res_dem self') i j = Np.cell (high_res_dem self) i j).

(** ** Patches and regions *)

(** The side of a full patch: a block and the padding on both sides. *)
Definition patch_side (lr : LowResCfg) (off : LowResOffsets) : Z :=
  lr_dem_block_size off + 2 * interpolation_padding lr.

(** The block of corner [k] lies inside the box, [margin] meters from its
    low sides. *)
Definition block_inside (cfg : HighResDEMCfg) (box : BoundingBox)
    (margin : Z) (k : coord) : Prop :=
  x_min box + margin <= k.1 /\ k.1 + block_size cfg <= x_max box
  /\ y_min box + margin <= k.2 /\ k.2 + block_size cfg <= y_max box.

(** ** The grid after construction *)

(** What the loop of [build_block_grid] has done for the cells [done]:
    each of them has a slot whose object is empty and carries the padding
    flag of the cell. *)
Definition build_ring_inv (cfg : HighResDEMCfg) (done : list (Z * Z))
    (acc : list BlockState * gmap coord nat * gmap coord coord) : Prop :=
  let '(h, t, m) := acc in
  tracker_valid t h
  /\ forall xy, xy ∈ done ->
       exists l b,
         t !! rel_of cfg xy = Some l
         /\ h !! l = Some b
         /\ b = set_is_padding (ring (num_blocks cfg) xy.1 xy.2)
                  (empty_state cfg).

(** Every slot of the window holds an object without data. *)
Definition all_empty (self : HighResDEMGen) : Prop :=
  forall xy, xy ∈ grid_cells (num_blocks (settings self)) ->
    exists l,
      block_grid_tracker self !! rel_of (settings self) xy = Some l
      /\ readiness (deref (blocks self) l)
         = readiness (empty_state (settings self)).

(** ** More states of the small generator *)

(** The nine blocks of the window of [demo_warm], each with a raster. *)
Definition demo_rasters : list (coord * Np.ndarray) :=
  (fun k => (k, ramp)) <$>
    [(-50, -50); (-50, 0); (-50, 50); (0, -50); (0, 0); (0, 50);
     (50, -50); (50, 0); (50, 50)].

(** After the interpolation worker has returned every block. *)
Definition demo_full : HighResDEMGen :=
  or_else (collect_terrain_data [] demo_rasters demo_warm) demo_warm.

(** A generator that samples craters. *)
Definition crater_init : HighResDEMGen :=
  or_else (init (scenario_cfg 0 true)) (blank (scenario_cfg 0 true)).

(** A crater database that knows the blocks of the column [x = 50]. *)
Definition column_db : coord -> bool := fun k => k.1 =? 50.

(** After [shift((60, 0))] on [crater_init]. *)
Definition crater_moved : HighResDEMGen :=
  or_else (shift column_db crater_init (60 # 1, 0)%Q) crater_init.

(** A low resolution DEM of 100 x 100 samples at 5 m per sample, read with
    a padding of 2 samples. *)
Definition demo_lr : LowResCfg :=
  {| source_resolution := 5 # 1; interpolation_padding := 2 |}.

(** Its sample [(i, j)] is [100 * i + j]. *)
Definition demo_low_res : Np.ndarray :=
  {| Np.shape0 := 100; Np.shape1 := 100;
     Np.cell := fun i j => inject_Z (100 * i + j) |}.

(** The offsets [get_low_res_dem_offset] computes for it. *)
Definition demo_offsets : LowResOffsets :=
  {| lr_dem_px_offset := (50, 50);
     lr_dem_ratio := 100 # 1;
     lr_dem_block_size := 10 |}.

(** A raster of 10 x 10 samples. *)
Definition small_raster : Np.ndarray := Np.const 10 10 (1 # 1).

(** * Properties *)

(** ** Shifting the buffer *)

(** One axis of [shift_dem], for an index [i] of an axis of length [len]
    shifted by [d]: after the copy and the two fills, the sample comes from
    index [i - d] when that index is on the axis, and is zero otherwise. *)
Lemma shift_axis_extent len d :
  d <= len ->
  Np.extent (source_slice len d) len = Np.extent (target_slice len d) len.
Proof. intros Hd. unfold source_slice, target_slice. axis_cases. Qed.

Lemma shift_axis_source len d i :
  Z.abs d < len -> 0 <= i < len -> 0 <= i - d < len ->
  Np.selects (target_slice len d) len i = true
  /\ exposed len d i = false
  /\ Np.lower (source_slice len d) len
     + (i - Np.lower (target_slice len d) len) = i - d.
Proof.
  intros Hd Hi Hs. unfold exposed, source_slice, target_slice. axis_cases.
Qed.

Lemma shift_axis_exposed len d i :
  Z.abs d < len -> 0 <= i < len -> ~ 0 <= i - d < len ->
  exposed len d i = true.
Proof. intros Hd Hi Hs. unfold exposed. axis_cases. Qed.

(** A shift beyond the axis in the negative direction passes the first
    test of [shift_dem] and exposes the whole axis. *)
Lemma shift_axis_overflow len d i :
  d < - len -> 0 <= i < len -> exposed len d i = true.
Proof. intros Hd Hi. unfold exposed. axis_cases. Qed.

Lemma selects_full len i : 0 <= i < len -> Np.selects Np.full len i = true.
Proof.
  intros Hi. unfold Np.selects, Np.extent, Np.upper, Np.lower; simpl.
  cmp_cases; (lia || reflexivity).
Qed.

Lemma bcast_index_selected s len i :
  Np.selects s len i = true ->
  Np.bcast_index (Np.extent s len) (i - Np.lower s len) = i - Np.lower s len.
Proof.
  unfold Np.bcast_index, Np.selects. intros Hs.
  destruct (Z.eqb_spec (Np.extent s len) 1) as [E|]; [| reflexivity].
  apply andb_true_iff in Hs as [H1 H2].
  apply Z.leb_le in H1. apply Z.ltb_lt in H2. lia.
Qed.

(** The samples of the buffer after [shift_dem] when the first test of the
    method is not taken: zero where an axis is exposed, the copied sample
    in the target region, the old sample elsewhere. *)
Lemma shift_dem_cells dem dx dy :
  dx <= Np.shape0 dem -> dy <= Np.shape1 dem ->
  exists dem',
    shift_dem dem (dx, dy) = Ok dem'
    /\ Np.shape0 dem' = Np.shape0 dem
    /\ Np.shape1 dem' = Np.shape1 dem
    /\ forall i j, Np.in_bounds dem i j ->
         Np.cell dem' i j =
           if exposed (Np.shape1 dem) dy j then 0%Q
           else if exposed (Np.shape0 dem) dx i then 0%Q
           else if Np.selects (target_slice (Np.shape0 dem) dx)
                     (Np.shape0 dem) i
                   && Np.selects (target_slice (Np.shape1 dem) dy)
                        (Np.shape1 dem) j
           then Np.cell dem
                  (Np.lower (source_slice (Np.shape0 dem) dx) (Np.shape0 dem)
                   + (i - Np.lower (target_slice (Np.shape0 dem) dx)
                            (Np.shape0 dem)))
                  (Np.lower (source_slice (Np.shape1 dem) dy) (Np.shape1 dem)
                   + (j - Np.lower (target_slice (Np.shape1 dem) dy)
                            (Np.shape1 dem)))
           else Np.cell dem i j.
Proof.
  intros Hx Hy. unfold shift_dem.
  replace ((dx >? Np.shape0 dem) || (dy >? Np.shape1 dem)) with false
    by (rewrite !Z.gtb_ltb; symmetry; apply orb_false_iff;
        split; apply Z.ltb_ge; lia).
  pose proof (shift_axis_extent (Np.shape0 dem) dx Hx) as Ex.
  pose proof (shift_axis_extent (Np.shape1 dem) dy Hy) as Ey.
  unfold exposed, source_slice, target_slice in *.
  revert Ex Ey.
  destruct (shift_bounds dx (Np.shape0 dem))
    as [[[x_min_s x_max_s] x_min_t] x_max_t].
  destruct (shift_bounds dy (Np.shape1 dem))
    as [[[y_min_s y_max_s] y_min_t] y_max_t].
  cbn [fst snd]. intros Ex Ey.
  unfold Np.setslice, Np.update_region.
  cbn [Np.shape0 Np.shape1 Np.getslice].
  rewrite Ex, Ey. unfold Np.broadcastable. rewrite !Z.eqb_refl. cbn [orb andb].
  cbn [mbind result_bind].
  eexists. split; [reflexivity |].
  split; [by repeat case_match |]. split; [by repeat case_match |].
  intros i j [Hi Hj].
  rewrite <- Ex, <- Ey.
  destruct (dx <? 0) eqn:Dx1; [| destruct (dx >? 0) eqn:Dx2];
    (destruct (dy <? 0) eqn:Dy1; [| destruct (dy >? 0) eqn:Dy2]);
    cbn [Np.cell Np.fillslice Np.shape0 Np.shape1 Np.getslice];
    rewrite ?(selects_full _ _ Hi), ?(selects_full _ _ Hj), ?andb_true_r;
    cbn [andb];
    repeat match goal with
      | |- context [Np.selects ?s ?l ?k] =>
          let E := fresh "S" in
          destruct (Np.selects s l k) eqn:E; cbn [andb]
      end;
    try reflexivity.
  all: rewrite Ex, Ey.
  all: rewrite ?bcast_index_selected by assumption; reflexivity.
Qed.

(** C6. A pixel shift smaller than the buffer in both axes succeeds; every
    sample whose source pixel (its index minus the shift) was inside the
    buffer has the value the source pixel had before the shift, and every
    sample without a source pixel inside the buffer is exactly zero. *)
Theorem shift_dem_partial_reuse (dem : Np.ndarray) (dx dy : Z) :
  Z.abs dx < Np.shape0 dem ->
  Z.abs dy < Np.shape1 dem ->
  exists dem',
    shift_dem dem (dx, dy) = Ok dem'
    /\ Np.shape0 dem' = Np.shape0 dem
    /\ Np.shape1 dem' = Np.shape1 dem
    /\ forall i j, Np.in_bounds dem i j ->
         (Np.in_bounds dem (i - dx) (j - dy) ->
            Np.cell dem' i j = Np.cell dem (i - dx) (j - dy))
         /\ (~ Np.in_bounds dem (i - dx) (j - dy) ->
               Np.cell dem' i j = 0%Q).
Proof.
  intros Hx Hy.
  destruct (shift_dem_cells dem dx dy) as (dem' & E & S0 & S1 & Hc);
    [lia | lia |].
  exists dem'. repeat split; try assumption.
  - intros [Sx Sy]. rewrite (Hc i j H).
    destruct (shift_axis_source _ _ i Hx (proj1 H) Sx) as (Tx & Ex & Ix).
    destruct (shift_axis_source _ _ j Hy (proj2 H) Sy) as (Ty & Ey & Iy).
    rewrite Ex, Ey, Tx, Ty, Ix, Iy. reflexivity.
  - intros Hout. rewrite (Hc i j H).
    destruct (decide (0 <= j - dy < Np.shape1 dem)) as [Sy | Sy].
    + assert (Sx : ~ 0 <= i - dx < Np.shape0 dem)
        by (intros Sx; apply Hout; split; assumption).
      rewrite (shift_axis_exposed _ _ i Hx (proj1 H) Sx).
      by destruct (exposed (Np.shape1 dem) dy j).
    + by rewrite (shift_axis_exposed _ _ j Hy (proj2 H) Sy).
Qed.

Lemma shift_dem_partial_reuse_witness :
  let dem := Np.mk_ndarray 4 4 (fun i j => inject_Z (1 + 4 * i + j)) in
  Z.abs 1 < Np.shape0 dem
  /\ Z.abs (-2) < Np.shape1 dem
  /\ exists dem',
       shift_dem dem (1, -2) = Ok dem'
       /\ Np.shape0 dem' = Np.shape0 dem
       /\ Np.shape1 dem' = Np.shape1 dem
       /\ forall i j, Np.in_bounds dem i j ->
            (Np.in_bounds dem (i - 1) (j - -2) ->
               Np.cell dem' i j = Np.cell dem (i - 1) (j - -2))
            /\ (~ Np.in_bounds dem (i - 1) (j - -2) ->
                  Np.cell dem' i j = 0%Q).
Proof.
  intros dem.
  assert (Hx : Z.abs 1 < Np.shape0 dem) by (simpl; lia).
  assert (Hy : Z.abs (-2) < Np.shape1 dem) by (simpl; lia).
  split; [exact Hx |]. split; [exact Hy |].
  exact (shift_dem_partial_reuse dem 1 (-2) Hx Hy).
Defined.

(** C7. A pixel shift whose magnitude exceeds the buffer size along either
    axis, of either sign, succeeds and leaves every sample of the buffer
    equal to zero. *)
Theorem shift_dem_full_invalidation (dem : Np.ndarray) (dx dy : Z) :
  Z.abs dx > Np.shape0 dem \/ Z.abs dy > Np.shape1 dem ->
  exists dem',
    shift_dem dem (dx, dy) = Ok dem'
    /\ Np.shape0 dem' = Np.shape0 dem
    /\ Np.shape1 dem' = Np.shape1 dem
    /\ forall i j, Np.in_bounds dem i j -> Np.cell dem' i j = 0%Q.
Proof.
  intros Hbig.
  destruct (decide (dx > Np.shape0 dem \/ dy > Np.shape1 dem)) as [Hpos | Hneg].
  - unfold shift_dem.
    replace ((dx >? Np.shape0 dem) || (dy >? Np.shape1 dem)) with true
      by (rewrite !Z.gtb_ltb; symmetry; apply orb_true_iff;
          destruct Hpos; [left | right]; apply Z.ltb_lt; lia).
    eexists. repeat split. intros i j [Hi Hj]. cbn [Np.cell Np.fillslice].
    by rewrite (selects_full _ _ Hi), (selects_full _ _ Hj).
  - destruct (shift_dem_cells dem dx dy) as (dem' & E & S0 & S1 & Hc);
      [lia | lia |].
    exists dem'. repeat split; try assumption.
    intros i j H. rewrite (Hc i j H).
    destruct (decide (dy < - Np.shape1 dem)) as [Hy | Hy].
    + by rewrite (shift_axis_overflow _ _ j Hy (proj2 H)).
    + assert (Hx : dx < - Np.shape0 dem) by lia.
      rewrite (shift_axis_overflow _ _ i Hx (proj1 H)).
      by destruct (exposed (Np.shape1 dem) dy j).
Qed.

Lemma shift_dem_full_invalidation_witness :
  let dem := Np.mk_ndarray 4 4 (fun i j => inject_Z (1 + 4 * i + j)) in
  (Z.abs (-5) > Np.shape0 dem \/ Z.abs 2 > Np.shape1 dem)
  /\ exists dem',
       shift_dem dem (-5, 2) = Ok dem'
       /\ Np.shape0 dem' = Np.shape0 dem
       /\ Np.shape1 dem' = Np.shape1 dem
       /\ forall i j, Np.in_bounds dem i j -> Np.cell dem' i j = 0%Q.
Proof.
  intros dem.
  assert (H : Z.abs (-5) > Np.shape0 dem \/ Z.abs 2 > Np.shape1 dem)
    by (left; simpl; lia).
  split; [exact H |].
  exact (shift_dem_full_invalidation dem (-5) 2 H).
Defined.

(** A zero pixel shift leaves every sample of the buffer as it was. *)
Lemma shift_dem_zero (dem : Np.ndarray) :
  0 <= Np.shape0 dem -> 0 <= Np.shape1 dem ->
  exists dem',
    shift_dem dem (0, 0) = Ok dem'
    /\ Np.shape0 dem' = Np.shape0 dem
    /\ Np.shape1 dem' = Np.shape1 dem
    /\ forall i j, Np.in_bounds dem i j -> Np.cell dem' i j = Np.cell dem i j.
Proof.
  intros H0 H1.
  destruct (shift_dem_cells dem 0 0) as (dem' & E & S0 & S1 & Hc);
    [lia | lia |].
  exists dem'. repeat split; try assumption.
  intros i j H. rewrite (Hc i j H). unfold exposed.
  change (0 <? 0) with false. change (0 >? 0) with false. cbn iota.
  case_match; [| reflexivity]. f_equal.
  - unfold source_slice, target_slice, shift_bounds, Np.lower, Np.adjust;
      simpl. cmp_cases; lia.
  - unfold source_slice, target_slice, shift_bounds, Np.lower, Np.adjust;
      simpl. cmp_cases; lia.
Qed.

(** ** Loops *)

(** The invariant rule of [for_each]: [P done s] relates the loop state to
    the elements already visited. *)
Lemma for_each_inv {A S} (body : A -> S -> result S)
    (P : list A -> S -> Prop) (l : list A) (s0 : S) :
  P [] s0 ->
  (forall done a s, P done s -> a ∈ l ->
     exists s', body a s = Ok s' /\ P (done ++ [a]) s') ->
  exists s', for_each body l s0 = Ok s' /\ P l s'.
Proof.
  intros H0 Hstep.
  cut (forall rest done s, P done s -> (forall a, a ∈ rest -> a ∈ l) ->
         exists s', for_each body rest s = Ok s' /\ P (done ++ rest) s').
  { intros Hgen. apply (Hgen l [] s0 H0). auto. }
  induction rest as [| a rest IH]; intros done s HP Hsub.
  - exists s. by rewrite app_nil_r.
  - destruct (Hstep done a s HP) as (s1 & E1 & HP1).
    { apply Hsub. left. }
    destruct (IH (done ++ [a]) s1 HP1) as (s' & E & HP').
    { intros b Hb. apply Hsub. by right. }
    exists s'. simpl. rewrite E1. unfold Ok. split; [exact E |].
    by rewrite <- app_assoc in HP'.
Qed.

(** ** The store *)

Lemma keeps_refl {X} (f : BlockState -> X) h : keeps f h h.
Proof. intros l b0 H. by exists b0. Qed.

Lemma keeps_trans {X} (f : BlockState -> X) h0 h1 h2 :
  keeps f h0 h1 -> keeps f h1 h2 -> keeps f h0 h2.
Proof.
  intros H01 H12 l b0 H. destruct (H01 l b0 H) as (b1 & E1 & R1).
  destruct (H12 l b1 E1) as (b2 & E2 & R2).
  exists b2. split; [assumption | congruence].
Qed.

Lemma keeps_weaken {X Y} (f : BlockState -> X) (g : BlockState -> Y) h0 h :
  (forall b b', f b = f b' -> g b = g b') -> keeps f h0 h -> keeps g h0 h.
Proof.
  intros Hfg Hk l b0 H. destruct (Hk l b0 H) as (b & E & R).
  exists b. split; [assumption | by apply Hfg].
Qed.

Lemma keeps_alloc {X} (f : BlockState -> X) h b : keeps f h (alloc b h).2.
Proof.
  intros l b0 H. exists b0. split; [| reflexivity].
  simpl. by apply lookup_app_l_Some.
Qed.

Lemma keeps_assign {X} (f : BlockState -> X) g h l :
  (forall b, f (g b) = f b) -> keeps f h (assign g l h).
Proof.
  intros Hfg l' b0 H. unfold assign.
  destruct (decide (l = l')) as [-> |].
  - exists (g b0). split; [| apply Hfg].
    by rewrite list_lookup_alter_eq, H.
  - exists b0. split; [| reflexivity].
    by rewrite list_lookup_alter_ne.
Qed.

Lemma keeps_padding h l v : keeps readiness h (assign (set_is_padding v) l h).
Proof. by apply keeps_assign. Qed.

Lemma length_assign f l (h : store) : length (assign f l h) = length h.
Proof. apply length_alter. Qed.

Lemma lookup_assign_ne f l l' (h : store) :
  l ≠ l' -> assign f l h !! l' = h !! l'.
Proof. intros. unfold assign. by apply list_lookup_alter_ne. Qed.

Lemma deref_lookup (h : store) l b : h !! l = Some b -> deref h l = b.
Proof. intros H. unfold deref. by apply list_lookup_total_correct. Qed.

(** ** The block grid *)

Lemma elem_of_grid_cells n x y :
  (x, y) ∈ grid_cells n <-> (- n - 1 <= x <= n + 1) /\ (- n - 1 <= y <= n + 1).
Proof.
  unfold grid_cells, py_range. rewrite list_elem_of_bind. split.
  - intros (x' & Hy & Hx). apply list_elem_of_bind in Hy as (y' & Hxy & Hy).
    apply list_elem_of_singleton in Hxy. inversion Hxy; subst.
    apply elem_of_seqZ in Hx. apply elem_of_seqZ in Hy. lia.
  - intros [Hx Hy]. exists x. split; [| apply elem_of_seqZ; lia].
    apply list_elem_of_bind. exists y. split; [| apply elem_of_seqZ; lia].
    by apply list_elem_of_singleton.
Qed.

Lemma abs_of_rel_of cfg c xy :
  abs_of cfg c xy = ((rel_of cfg xy).1 + c.1, (rel_of cfg xy).2 + c.2).
Proof. reflexivity. Qed.

Lemma rel_of_abs_of cfg c xy xy' :
  rel_of cfg xy = rel_of cfg xy' -> abs_of cfg c xy = abs_of cfg c xy'.
Proof. intros H. by rewrite !abs_of_rel_of, H. Qed.

Lemma abs_of_rel_of_inj cfg c xy xy' :
  abs_of cfg c xy = abs_of cfg c xy' -> rel_of cfg xy = rel_of cfg xy'.
Proof.
  unfold abs_of, rel_of. intros H. inversion H. f_equal; lia.
Qed.

Lemma map_built_nil cfg c : map_built cfg c [] ∅.
Proof.
  intros k v. rewrite lookup_empty. split; [done |].
  intros (xy & Hin & _). by apply elem_of_nil in Hin.
Qed.

Lemma tracker_built_nil cfg : tracker_built cfg [] ∅.
Proof.
  intros k. rewrite lookup_empty. split; [by intros [? ?] |].
  intros (xy & Hin & _). by apply elem_of_nil in Hin.
Qed.

Lemma map_built_snoc (cfg : HighResDEMCfg) (c : coord) (done : list (Z * Z))
    (xy : Z * Z) (m : gmap coord coord) :
  map_built cfg c done m ->
  map_built cfg c (done ++ [xy]) (<[abs_of cfg c xy := rel_of cfg xy]> m).
Proof.
  intros Hm k v. rewrite lookup_insert. case_decide as Hk.
  - subst k. split.
    + intros [= <-]. exists xy. split; [| done].
      apply elem_of_app. right. by apply list_elem_of_singleton.
    + intros (xy' & _ & Ha & ->). f_equal. symmetry.
      by apply (abs_of_rel_of_inj cfg c).
  - rewrite (Hm k v). split.
    + intros (xy' & Hin & H1 & H2). exists xy'. split; [| done].
      apply elem_of_app. by left.
    + intros (xy' & Hin & H1 & H2). apply elem_of_app in Hin as [Hin | Hin].
      * by exists xy'.
      * apply list_elem_of_singleton in Hin. subst xy'. congruence.
Qed.

Lemma tracker_built_snoc (cfg : HighResDEMCfg) (done : list (Z * Z))
    (xy : Z * Z) (t : gmap coord loc) (l : loc) :
  tracker_built cfg done t ->
  tracker_built cfg (done ++ [xy]) (<[rel_of cfg xy := l]> t).
Proof.
  intros Ht k. rewrite lookup_insert. case_decide as Hk.
  - subst k. split; [| by eauto].
    intros _. exists xy. split; [| done].
    apply elem_of_app. right. by apply list_elem_of_singleton.
  - rewrite (Ht k). split.
    + intros (xy' & Hin & H1). exists xy'. split; [| done].
      apply elem_of_app. by left.
    + intros (xy' & Hin & H1). apply elem_of_app in Hin as [Hin | Hin].
      * by exists xy'.
      * apply list_elem_of_singleton in Hin. subst xy'. congruence.
Qed.

Section ShiftBlockGrid.

(** The loop of [shift_block_grid self c], for an old grid whose lookups
    do not raise. *)
Variables (self : HighResDEMGen) (c : coord).

Hypothesis old_map_in_tracker :
  forall k rc, map_grid_block2coords self !! k = Some rc ->
    is_Some (block_grid_tracker self !! rc).
Hypothesis old_tracker_slots :
  forall xy, xy ∈ grid_cells (num_blocks (settings self)) ->
    is_Some (block_grid_tracker self !! rel_of (settings self) xy).
Hypothesis old_tracker_valid :
  tracker_valid (block_grid_tracker self) (blocks self).

Lemma shift_inv_nil : shift_inv self c [] (blocks self, ∅, ∅).
Proof.
  split_and!.
  - lia.
  - apply keeps_refl.
  - intros l Hl. lia.
  - apply map_built_nil.
  - apply tracker_built_nil.
  - intros xy Hin. by apply elem_of_nil in Hin.
Qed.

Lemma carried_snoc h nt h' l xy xy' :
  carried self c h' (<[rel_of (settings self) xy := l]> nt) xy ->
  (length h <= length h')%nat ->
  carried self c h nt xy' ->
  carried self c h' (<[rel_of (settings self) xy := l]> nt) xy'.
Proof.
  intros (l1 & E1 & M1) Hlen (l2 & E2 & M2).
  destruct (decide (rel_of (settings self) xy = rel_of (settings self) xy'))
    as [Heq | Hne].
  - exists l1. rewrite <- Heq. split; [assumption |].
    by rewrite <- (rel_of_abs_of (settings self) c xy xy' Heq).
  - exists l2. rewrite lookup_insert_ne by assumption.
    split; [assumption |].
    destruct (map_grid_block2coords self !! abs_of (settings self) c xy');
      [assumption | lia].
Qed.

Lemma shift_block_grid_body_step done xy acc :
  shift_inv self c done acc ->
  xy ∈ grid_cells (num_blocks (settings self)) ->
  exists acc',
    shift_block_grid_body self c xy acc = Ok acc'
    /\ shift_inv self c (done ++ [xy]) acc'.
Proof.
  destruct acc as [[h nt] nm].
  intros (Hlen & Hkeep & Hnew & Hm & Ht & Hc) Hin.
  unfold shift_block_grid_body. cbv zeta.
  set (pad := ring (num_blocks (settings self)) xy.1 xy.2).
  destruct (old_tracker_slots xy Hin) as [lp Hlp].
  pose proof (old_tracker_valid _ _ Hlp) as Hlpv.
  destruct (map_grid_block2coords self !! abs_of (settings self) c xy)
    as [rc |] eqn:Hom.
  - destruct (old_map_in_tracker _ _ Hom) as [l Hl].
    unfold dict_get. rewrite Hl. cbn. rewrite Hlp. cbn.
    eexists. split; [reflexivity |].
    assert (Hcar : carried self c (assign (set_is_padding pad) lp h)
                     (<[rel_of (settings self) xy := l]> nt) xy).
    { exists l. rewrite lookup_insert_eq, Hom. done. }
    split_and!.
    + by rewrite length_assign.
    + eapply keeps_trans; [exact Hkeep |].
      apply keeps_padding.
    + intros l' Hl'. rewrite length_assign in Hl'.
      rewrite lookup_assign_ne by lia. by apply Hnew.
    + apply (map_built_snoc (settings self) c done xy nm Hm).
    + apply (tracker_built_snoc (settings self) done xy nt l Ht).
    + intros xy' [Hin' | ->%list_elem_of_singleton]%elem_of_app;
        [| exact Hcar].
      eapply carried_snoc; [exact Hcar | | by apply Hc].
      by rewrite length_assign.
  - cbn. unfold dict_get. rewrite Hlp. cbn.
    eexists. split; [reflexivity |].
    assert (Hcar : carried self c
                     (assign (set_is_padding pad) lp
                        (h ++ [empty_state (settings self)]))
                     (<[rel_of (settings self) xy := length h]> nt) xy).
    { exists (length h). rewrite lookup_insert_eq, Hom.
      rewrite length_assign, length_app. simpl. split; [done | lia]. }
    split_and!.
    + rewrite length_assign, length_app. lia.
    + eapply keeps_trans; [exact Hkeep |].
      eapply keeps_trans;
        [apply (keeps_alloc readiness h (empty_state (settings self))) |].
      apply keeps_padding.
    + intros l' Hl'. rewrite length_assign, length_app in Hl'. simpl in Hl'.
      rewrite lookup_assign_ne by lia.
      destruct (decide (l' = length h)) as [-> | Hne].
      * by rewrite lookup_app_r, Nat.sub_diag.
      * rewrite lookup_app_l by lia. apply Hnew. lia.
    + apply (map_built_snoc (settings self) c done xy nm Hm).
    + apply (tracker_built_snoc (settings self) done xy nt (length h) Ht).
    + intros xy' [Hin' | ->%list_elem_of_singleton]%elem_of_app;
        [| exact Hcar].
      eapply carried_snoc; [exact Hcar | | by apply Hc].
      rewrite length_assign, length_app. lia.
Qed.

Lemma shift_block_grid_loop :
  exists h nt nm,
    shift_block_grid self c = Ok (with_grid self h nt nm)
    /\ shift_inv self c (grid_cells (num_blocks (settings self))) (h, nt, nm).
Proof.
  destruct (for_each_inv (shift_block_grid_body self c) (shift_inv self c)
              (grid_cells (num_blocks (settings self))) (blocks self, ∅, ∅)
              shift_inv_nil)
    as ([[h nt] nm] & E & Hinv).
  { intros done a s Hs Ha. by apply shift_block_grid_body_step. }
  exists h, nt, nm. split; [| exact Hinv].
  unfold shift_block_grid. rewrite E. reflexivity.
Qed.

End ShiftBlockGrid.

Section BuildBlockGrid.

(** The loop of [build_block_grid] around the center [c], started from
    the store [h0]. *)
Variables (cfg : HighResDEMCfg) (c : coord) (h0 : store).

Lemma build_inv_nil : build_inv cfg c h0 [] (h0, ∅, ∅).
Proof.
  split_and!.
  - lia.
  - apply map_built_nil.
  - apply tracker_built_nil.
  - intros k l H. by rewrite lookup_empty in H.
Qed.

Lemma build_block_grid_body_step done xy acc :
  build_inv cfg c h0 done acc ->
  exists acc',
    build_block_grid_body cfg c xy acc = Ok acc'
    /\ build_inv cfg c h0 (done ++ [xy]) acc'.
Proof.
  destruct acc as [[h t] m]. intros (Hlen & Hm & Ht & Hnew).
  unfold build_block_grid_body, alloc, dict_get.
  rewrite lookup_insert_eq. cbn.
  eexists. split; [reflexivity |]. split_and!.
  - rewrite length_assign, length_app. lia.
  - by apply map_built_snoc.
  - by apply tracker_built_snoc.
  - intros k l. rewrite lookup_insert. case_decide as Hk.
    + intros [= <-]. split; [lia |].
      exists (set_is_padding (ring (num_blocks cfg) xy.1 xy.2)
                (empty_state cfg)).
      split; [| reflexivity].
      unfold assign. rewrite list_lookup_alter_eq.
      by rewrite lookup_app_r, Nat.sub_diag.
    + intros Hl. destruct (Hnew k l Hl) as (Hge & b & Hb & Hr).
      split; [assumption |].
      assert (Hk' : keeps readiness h
                (assign (set_is_padding (ring (num_blocks cfg) xy.1 xy.2))
                   (length h) (h ++ [empty_state cfg]))).
      { eapply keeps_trans;
          [apply (keeps_alloc readiness h (empty_state cfg)) |].
        apply keeps_padding. }
      destruct (Hk' l b Hb) as (b' & Hb' & Hr').
      exists b'. split; [assumption | congruence].
Qed.

End BuildBlockGrid.

(** ** Well-formed grids *)

Lemma grid_at_map_in_tracker self c :
  grid_at self c ->
  forall k rc, map_grid_block2coords self !! k = Some rc ->
    is_Some (block_grid_tracker self !! rc).
Proof.
  intros (Hm & Ht & _) k rc H.
  apply Hm in H as (xy & Hin & _ & ->). apply Ht. by exists xy.
Qed.

Lemma grid_at_tracker_slots self c :
  grid_at self c ->
  forall xy, xy ∈ grid_cells (num_blocks (settings self)) ->
    is_Some (block_grid_tracker self !! rel_of (settings self) xy).
Proof. intros (_ & Ht & _) xy Hin. apply Ht. by exists xy. Qed.

(** [build_block_grid] does not raise, and builds the window of the
    current center out of new objects without data. *)
Lemma build_block_grid_spec (self : HighResDEMGen) :
  exists h t m,
    build_block_grid self = Ok (with_grid self h t m)
    /\ grid_at (with_grid self h t m) (current_block_coord self)
    /\ forall k l, t !! k = Some l ->
         (length (blocks self) <= l)%nat
         /\ exists b, h !! l = Some b
                      /\ readiness b = readiness (empty_state (settings self)).
Proof.
  destruct (for_each_inv
              (build_block_grid_body (settings self) (current_block_coord self))
              (build_inv (settings self) (current_block_coord self)
                 (blocks self))
              (grid_cells (num_blocks (settings self)))
              (blocks self, ∅, ∅)
              (build_inv_nil _ _ _))
    as ([[h t] m] & E & (Hlen & Hm & Ht & Hnew)).
  { intros done a s Hs _. by apply build_block_grid_body_step. }
  exists h, t, m. split_and!.
  - unfold build_block_grid. rewrite E. reflexivity.
  - split_and!; [exact Hm | exact Ht |].
    intros k l Hl. destruct (Hnew k l Hl) as (_ & b & Hb & _).
    by apply lookup_lt_Some in Hb.
  - exact Hnew.
Qed.

(** [shift_block_grid] does not raise on a well-formed grid; the new grid
    is the window of the new center, every object of the old store keeps
    its readiness flags, and every cell holds the object of its absolute
    coordinate or a new object without data. *)
Lemma shift_block_grid_spec (self : HighResDEMGen) (c0 c : coord) :
  grid_at self c0 ->
  exists h nt nm,
    shift_block_grid self c = Ok (with_grid self h nt nm)
    /\ grid_at (with_grid self h nt nm) c
    /\ (length (blocks self) <= length h)%nat
    /\ keeps readiness (blocks self) h
    /\ (forall l, (length (blocks self) <= l < length h)%nat ->
          h !! l = Some (empty_state (settings self)))
    /\ (forall xy, xy ∈ grid_cells (num_blocks (settings self)) ->
          carried self c h nt xy).
Proof.
  intros Hg.
  destruct (shift_block_grid_loop self c
              (grid_at_map_in_tracker self c0 Hg)
              (grid_at_tracker_slots self c0 Hg)
              (proj2 (proj2 Hg)))
    as (h & nt & nm & E & (Hlen & Hkeep & Hnew & Hm & Ht & Hc)).
  exists h, nt, nm. split_and!; try assumption.
  split_and!; [exact Hm | exact Ht |].
  intros k l Hl.
  destruct (proj1 (Ht k) (ex_intro _ l Hl)) as (xy & Hin & ->).
  destruct (Hc xy Hin) as (l' & Hl' & Hcase).
  cbn in Hl |- *. rewrite Hl in Hl'. injection Hl' as <-.
  destruct (map_grid_block2coords self !! abs_of (settings self) c xy).
  - destruct Hg as (_ & _ & Hv). specialize (Hv _ _ Hcase). lia.
  - lia.
Qed.

(** ** Shifting the window *)

Lemma shift_dem_total dem ps :
  exists dem',
    shift_dem dem ps = Ok dem'
    /\ Np.shape0 dem' = Np.shape0 dem /\ Np.shape1 dem' = Np.shape1 dem.
Proof.
  destruct ps as [dx dy].
  destruct (decide (dx <= Np.shape0 dem /\ dy <= Np.shape1 dem)) as [[Hx Hy] | H].
  - destruct (shift_dem_cells dem dx dy Hx Hy) as (dem' & E & S0 & S1 & _).
    by exists dem'.
  - unfold shift_dem.
    replace ((dx >? Np.shape0 dem) || (dy >? Np.shape1 dem)) with true.
    + by eexists.
    + symmetry. rewrite !Z.gtb_ltb. apply orb_true_iff.
      destruct (decide (dx <= Np.shape0 dem)); [right | left];
        apply Z.ltb_lt; lia.
Qed.

Lemma generate_craters_metadata_spec db self c :
  grid_at self c ->
  exists h,
    generate_craters_metadata db self = Ok (with_blocks self h)
    /\ length h = length (blocks self)
    /\ keeps data_flags (blocks self) h.
Proof.
  intros Hg. unfold generate_craters_metadata.
  match goal with
  | |- context [for_each ?body ?l ?s] =>
      destruct (for_each_inv body
                  (fun _ h => length h = length (blocks self)
                              /\ keeps data_flags (blocks self) h) l s)
        as (h & E & Hlen & Hk)
  end.
  - split; [reflexivity | apply keeps_refl].
  - intros done [k rc] h [Hlen Hk] Hin.
    apply elem_of_map_to_list in Hin.
    destruct (grid_at_map_in_tracker self c Hg k rc Hin) as [l Hl].
    cbn. unfold dict_get. rewrite Hl. cbn.
    eexists. split; [reflexivity |]. split.
    + by rewrite length_assign.
    + eapply keeps_trans; [exact Hk |]. by apply keeps_assign.
  - exists h. rewrite E. by split_and!.
Qed.

Lemma generate_terrain_blocks_total self c :
  grid_at self c -> exists sent, generate_terrain_blocks self = Ok sent.
Proof.
  intros Hg. unfold generate_terrain_blocks.
  match goal with
  | |- context [for_each ?body ?l ?s] =>
      destruct (for_each_inv body (fun _ _ => True) l s) as (sent & E & _)
  end.
  - exact I.
  - intros done [k rc] sent _ Hin.
    apply elem_of_map_to_list in Hin.
    destruct (grid_at_map_in_tracker self c Hg k rc Hin) as [l Hl].
    cbn. unfold dict_get. rewrite Hl. cbn. by eexists.
  - by exists sent.
Qed.

Lemma grid_at_with_blocks self c h :
  grid_at self c -> length h = length (blocks self) ->
  grid_at (with_blocks self h) c.
Proof.
  intros (Hm & Ht & Hv) Hlen. split_and!; [exact Hm | exact Ht |].
  intros k l Hl. cbn. rewrite Hlen. by apply (Hv k).
Qed.

(** [shift] does not raise once the block coordinate and the pixel shift
    are computed; it leaves the window centered on the new block
    coordinate, shifts the buffer by the pixel shift, keeps the data flags
    of every object and holds, for every cell, the object of its absolute
    coordinate or a new object. *)
Lemma shift_spec db self c0 coordinates nb ps :
  grid_at self c0 ->
  cast_coordinates_to_block_space self coordinates = Ok nb ->
  pixel_shift self coordinates = Ok ps ->
  exists self',
    shift db self coordinates = Ok self'
    /\ settings self' = settings self
    /\ sim_is_warm self' = sim_is_warm self
    /\ current_block_coord self' = nb
    /\ grid_at self' nb
    /\ shift_dem (high_res_dem self) ps = Ok (high_res_dem self')
    /\ keeps data_flags (blocks self) (blocks self')
    /\ (forall xy, xy ∈ grid_cells (num_blocks (settings self)) ->
          carried self nb (blocks self') (block_grid_tracker self') xy).
Proof.
  intros Hg Hcast Hps. unfold shift. rewrite Hcast, Hps. cbn.
  destruct (shift_block_grid_spec self c0 nb Hg)
    as (h & nt & nm & E & Hg1 & Hlen & Hkeep & Hnew & Hc).
  rewrite E. cbn.
  destruct (shift_dem_total (high_res_dem self) ps) as (dem & Ed & _).
  rewrite Ed. cbn.
  set (self2 := with_current (with_dem (with_grid self h nt nm) dem) nb).
  assert (Hg2 : grid_at self2 nb) by exact Hg1.
  assert (Hk2 : keeps data_flags (blocks self) h).
  { eapply keeps_weaken; [| exact Hkeep].
    intros b b'. unfold readiness, data_flags. congruence. }
  destruct (generate_craters (settings self)) eqn:Hgen.
  - destruct (generate_craters_metadata_spec db self2 nb Hg2)
      as (h' & E' & Hlen' & Hk').
    rewrite E'. cbn.
    destruct (generate_terrain_blocks_total (with_blocks self2 h') nb)
      as (sent & Es).
    { by apply grid_at_with_blocks. }
    rewrite Es. cbn. eexists. split; [reflexivity |].
    split_and!; try reflexivity.
    + by apply grid_at_with_blocks.
    + eapply keeps_trans; [exact Hk2 | exact Hk'].
    + intros xy Hin. destruct (Hc xy Hin) as (l & Hl & Hcase).
      exists l. split; [exact Hl |]. cbn in Hlen' |- *.
      by rewrite Hlen'.
  - destruct (generate_terrain_blocks_total self2 nb Hg2) as (sent & Es).
    cbn. rewrite Es. cbn. eexists. split; [reflexivity |].
    split_and!; try reflexivity; assumption.
Qed.

(** ** Reachable states *)

Lemma Ok_inj {A} (a b : A) : Ok a = Ok b -> a = b.
Proof. by intros [= ->]. Qed.

Lemma bind_Ok_inv {A B} (m : result A) (f : A -> result B) (b : B) :
  m ≫= f = Ok b -> exists a, m = Ok a /\ f a = Ok b.
Proof. destruct m as [e | a]; [discriminate |]. intros H. by exists a. Qed.

Lemma for_each_preserves {A S} (body : A -> S -> result S) (P : S -> Prop)
    (l : list A) (s0 s' : S) :
  P s0 ->
  (forall a s s1, P s -> body a s = Ok s1 -> P s1) ->
  for_each body l s0 = Ok s' -> P s'.
Proof.
  intros H0 Hstep. revert s0 H0.
  induction l as [| a l IH]; intros s0 H0; simpl.
  - by intros [= <-].
  - destruct (body a s0) as [e | s1] eqn:E; [discriminate |].
    apply IH. by apply (Hstep a s0).
Qed.

Lemma init_wf cfg self : init cfg = Ok self -> wf self.
Proof.
  unfold init. intros H.
  apply bind_Ok_inv in H as (self1 & E1 & E2).
  match type of E1 with
  | build_block_grid ?s = _ =>
      destruct (build_block_grid_spec s) as (h & t & m & E & Hg & _)
  end.
  rewrite E in E1. injection E1 as <-.
  unfold instantiate_high_res_dem in E2.
  apply bind_Ok_inv in E2 as (side & _ & E2).
  apply bind_Ok_inv in E2 as (dem & _ & [= <-]). exact Hg.
Qed.

Lemma shift_wf db self coordinates self' :
  wf self -> shift db self coordinates = Ok self' -> wf self'.
Proof.
  intros Hwf H.
  destruct (cast_coordinates_to_block_space self coordinates)
    as [e | nb] eqn:Hcast.
  { unfold shift in H. rewrite Hcast in H. discriminate. }
  destruct (pixel_shift self coordinates) as [e | ps] eqn:Hps.
  { unfold shift in H. rewrite Hcast, Hps in H. discriminate. }
  destruct (shift_spec db self _ coordinates nb ps Hwf Hcast Hps)
    as (self'' & E & _ & _ & Hcur & Hg & _).
  rewrite E in H. injection H as <-. unfold wf. by rewrite Hcur.
Qed.

Lemma with_warm_wf self w : wf self -> wf (with_warm self w).
Proof. intros H. exact H. Qed.

Lemma update_wf db self coords updated self' :
  wf self -> update_high_res_dem db self coords = Ok (updated, self') ->
  wf self'.
Proof.
  intros Hwf H. unfold update_high_res_dem in H.
  apply bind_Ok_inv in H as (bc & _ & H).
  apply bind_Ok_inv in H as ([u self1] & H1 & H).
  assert (Hwf1 : wf self1).
  { destruct (sim_is_warm self); cbn in H1.
    - by injection H1 as <- <-.
    - apply bind_Ok_inv in H1 as (s & Hs & [= <- <-]).
      apply with_warm_wf. by apply (shift_wf db self _ s Hwf Hs). }
  case_decide.
  - apply bind_Ok_inv in H as (s & Hs & [= <- <-]).
    by apply (shift_wf db self1 coords s Hwf1 Hs).
  - by injection H as <- <-.
Qed.

Lemma collect_body_wf mark offset r self self' :
  wf self -> collect_body mark offset r self = Ok self' ->
  wf self' /\ same_frame self self'
  /\ block_grid_tracker self' = block_grid_tracker self
  /\ map_grid_block2coords self' = map_grid_block2coords self.
Proof.
  intros Hwf H. unfold collect_body in H. destruct r as [coords data].
  apply bind_Ok_inv in H as ([x_c y_c] & _ & H).
  apply bind_Ok_inv in H as (x0 & _ & H).
  apply bind_Ok_inv in H as (x1 & _ & H).
  apply bind_Ok_inv in H as (y0 & _ & H).
  apply bind_Ok_inv in H as (y1 & _ & H).
  apply bind_Ok_inv in H as (dem & _ & H).
  apply bind_Ok_inv in H as (l & _ & [= <-]).
  split; [| by repeat split].
  apply (grid_at_with_blocks (with_dem self dem)); [exact Hwf |].
  apply length_assign.
Qed.

Lemma collect_loop_wf mark offset results self self' :
  wf self ->
  for_each (collect_body mark offset) results self = Ok self' ->
  wf self' /\ same_frame self self'
  /\ block_grid_tracker self' = block_grid_tracker self
  /\ map_grid_block2coords self' = map_grid_block2coords self.
Proof.
  intros Hwf.
  apply (for_each_preserves (collect_body mark offset)
           (fun s => wf s /\ same_frame self s
                     /\ block_grid_tracker s = block_grid_tracker self
                     /\ map_grid_block2coords s = map_grid_block2coords self)).
  - split; [exact Hwf |]. by repeat split.
  - intros r s s1 (Hs & (F1 & F2 & F3) & T & M) Hb.
    destruct (collect_body_wf _ _ _ _ _ Hs Hb)
      as (Hs1 & (G1 & G2 & G3) & T1 & M1).
    split; [exact Hs1 |]. repeat split; congruence.
Qed.

Lemma collect_terrain_data_wf crater_results terrain_results self self' :
  wf self ->
  collect_terrain_data crater_results terrain_results self = Ok self' ->
  wf self' /\ same_frame self self'
  /\ block_grid_tracker self' = block_grid_tracker self
  /\ map_grid_block2coords self' = map_grid_block2coords self.
Proof.
  intros Hwf H. unfold collect_terrain_data in H.
  apply bind_Ok_inv in H as (q & _ & H).
  apply bind_Ok_inv in H as (self1 & H1 & H).
  destruct (collect_loop_wf _ _ _ _ _ Hwf H1)
    as (Hwf1 & (F1 & F2 & F3) & T1 & M1).
  destruct (collect_loop_wf _ _ _ _ _ Hwf1 H)
    as (Hwf2 & (G1 & G2 & G3) & T2 & M2).
  split; [exact Hwf2 |]. repeat split; congruence.
Qed.

Lemma reachable_wf self : reachable self -> wf self.
Proof.
  induction 1.
  - by apply (init_wf cfg).
  - by apply (update_wf db self coords updated).
  - by apply (shift_wf db self coords).
  - by apply (collect_terrain_data_wf crater_results terrain_results self self'
                IHreachable H0).
Qed.

Lemma py_div_Ok_inv (a b q : Q) : py_div a b = Ok q -> ~ (b == 0)%Q.
Proof.
  unfold py_div. destruct (Qeq_bool b 0) eqn:E; [discriminate |].
  intros _ Hb. apply Qeq_bool_iff in Hb. congruence.
Qed.

Lemma init_buffer_ok cfg self : init cfg = Ok self -> buffer_ok self.
Proof.
  unfold init. intros H.
  apply bind_Ok_inv in H as (self1 & E1 & E2).
  destruct (build_block_grid_spec (blank cfg)) as (h & t & m & E & _).
  rewrite E in E1. apply Ok_inj in E1. subst self1.
  unfold instantiate_high_res_dem in E2.
  apply bind_Ok_inv in E2 as (side & Hside & E2).
  apply bind_Ok_inv in E2 as (dem & Hdem & [= <-]).
  unfold dem_side in Hside. apply bind_Ok_inv in Hside as (q & Hq & _).
  apply py_div_Ok_inv in Hq. cbn in Hq.
  unfold Np.zeros in Hdem.
  destruct (Z.ltb_spec side 0); [discriminate |]. cbn in Hdem.
  injection Hdem as <-. by split_and!.
Qed.

Lemma same_shape_refl self : same_shape self self.
Proof. by repeat split. Qed.

Lemma same_shape_trans self1 self2 self3 :
  same_shape self1 self2 -> same_shape self2 self3 -> same_shape self1 self3.
Proof. intros (A1 & A2 & A3) (B1 & B2 & B3). repeat split; congruence. Qed.

Lemma same_shape_buffer_ok self self' :
  same_shape self self' -> buffer_ok self -> buffer_ok self'.
Proof.
  intros (A1 & A2 & A3) (B1 & B2 & B3). unfold buffer_ok.
  rewrite A1, A2, A3. by split_and!.
Qed.

Lemma shift_same_shape db self coordinates self' :
  wf self -> shift db self coordinates = Ok self' -> same_shape self self'.
Proof.
  intros Hwf H.
  destruct (cast_coordinates_to_block_space self coordinates)
    as [e | nb] eqn:Hcast.
  { unfold shift in H. rewrite Hcast in H. discriminate. }
  destruct (pixel_shift self coordinates) as [e | ps] eqn:Hps.
  { unfold shift in H. rewrite Hcast, Hps in H. discriminate. }
  destruct (shift_spec db self _ coordinates nb ps Hwf Hcast Hps)
    as (self'' & E & Hset & _ & _ & _ & Hdem & _).
  rewrite E in H. apply Ok_inj in H. subst self''.
  destruct (shift_dem_total (high_res_dem self) ps) as (dem & Ed & S0 & S1).
  rewrite Ed in Hdem. apply Ok_inj in Hdem. subst dem.
  by split_and!.
Qed.

Lemma update_same_shape db self coords updated self' :
  wf self -> update_high_res_dem db self coords = Ok (updated, self') ->
  same_shape self self'.
Proof.
  intros Hwf H. unfold update_high_res_dem in H.
  apply bind_Ok_inv in H as (bc & _ & H).
  apply bind_Ok_inv in H as ([u self1] & H1 & H).
  assert (Hwf1 : wf self1 /\ same_shape self self1).
  { destruct (sim_is_warm self); cbn in H1.
    - injection H1 as <- <-. split; [exact Hwf | apply same_shape_refl].
    - apply bind_Ok_inv in H1 as (s & Hs & [= <- <-]). split.
      + apply with_warm_wf. by apply (shift_wf db self _ s Hwf Hs).
      + by apply (shift_same_shape db self _ s Hwf Hs). }
  destruct Hwf1 as [Hwf1 Hsh1].
  case_decide.
  - apply bind_Ok_inv in H as (s & Hs & [= <- <-]).
    eapply same_shape_trans; [exact Hsh1 |].
    by apply (shift_same_shape db self1 coords s Hwf1 Hs).
  - by injection H as <- <-.
Qed.

Lemma collect_body_same_shape mark offset r self self' :
  collect_body mark offset r self = Ok self' -> same_shape self self'.
Proof.
  intros H. unfold collect_body in H. destruct r as [coords data].
  apply bind_Ok_inv in H as ([x_c y_c] & _ & H).
  apply bind_Ok_inv in H as (x0 & _ & H).
  apply bind_Ok_inv in H as (x1 & _ & H).
  apply bind_Ok_inv in H as (y0 & _ & H).
  apply bind_Ok_inv in H as (y1 & _ & H).
  apply bind_Ok_inv in H as (dem & Hdem & H).
  apply bind_Ok_inv in H as (l & _ & [= <-]).
  unfold Np.addslice, Np.update_region in Hdem.
  case_match; [| discriminate]. injection Hdem as <-. by split_and!.
Qed.

Lemma collect_terrain_data_same_shape crater_results terrain_results
    self self' :
  collect_terrain_data crater_results terrain_results self = Ok self' ->
  same_shape self self'.
Proof.
  intros H. unfold collect_terrain_data in H.
  apply bind_Ok_inv in H as (q & _ & H).
  apply bind_Ok_inv in H as (self1 & H1 & H).
  assert (Hs1 : same_shape self self1).
  { revert H1. apply (for_each_preserves _ (same_shape self));
      [apply same_shape_refl |].
    intros a s s1 Hs Hb. eapply same_shape_trans; [exact Hs |].
    by apply (collect_body_same_shape _ _ _ _ _ Hb). }
  revert H. apply (for_each_preserves _ (same_shape self)); [exact Hs1 |].
  intros a s s1 Hs Hb. eapply same_shape_trans; [exact Hs |].
  by apply (collect_body_same_shape _ _ _ _ _ Hb).
Qed.

(** In a reachable state the resolution is not zero and the buffer has a
    shape: [__init__] would have raised otherwise. *)
Lemma reachable_buffer_ok self : reachable self -> buffer_ok self.
Proof.
  induction 1 as [cfg self Hi | db self coords u self' Hr IH Hu
                  | db self coords self' Hr IH Hs
                  | cr tr self self' Hr IH Hc].
  - by apply (init_buffer_ok cfg).
  - eapply same_shape_buffer_ok; [| exact IH].
    by apply (update_same_shape db self coords u self' (reachable_wf _ Hr)).
  - eapply same_shape_buffer_ok; [| exact IH].
    by apply (shift_same_shape db self coords self' (reachable_wf _ Hr)).
  - eapply same_shape_buffer_ok; [| exact IH].
    by apply (collect_terrain_data_same_shape cr tr).
Qed.

(** ** The small generator *)

Lemma or_else_returned {A} (r : result A) (d : A) :
  returned r = true -> r = Ok (or_else r d).
Proof. destruct r; [discriminate | reflexivity]. Qed.

Lemma demo_init_eq : init demo_cfg = Ok demo_init.
Proof. apply or_else_returned. vm_compute. reflexivity. Qed.

Lemma demo_warm_eq :
  update_high_res_dem no_db demo_init (0, 0)%Q = Ok (true, demo_warm).
Proof.
  rewrite (or_else_returned _ (false, demo_init)) by (vm_compute; reflexivity).
  unfold demo_warm. destruct (or_else _ _) as [u s] eqn:E.
  assert (Hu : (or_else (update_high_res_dem no_db demo_init (0, 0)%Q)
                  (false, demo_init)).1 = true) by (vm_compute; reflexivity).
  rewrite E in Hu. simpl in Hu. by subst u.
Qed.

Lemma demo_center_eq :
  collect_terrain_data [] [((0, 0), ramp)] demo_warm = Ok demo_center.
Proof. apply or_else_returned. vm_compute. reflexivity. Qed.

Lemma demo_edge_eq :
  collect_terrain_data [] [((50, 0), ramp)] demo_center = Ok demo_edge.
Proof. apply or_else_returned. vm_compute. reflexivity. Qed.

Lemma demo_shifted_eq : shift no_db demo_center (60, 0)%Q = Ok demo_shifted.
Proof. apply or_else_returned. vm_compute. reflexivity. Qed.

Lemma demo_init_reachable : reachable demo_init.
Proof. apply (reach_init demo_cfg). exact demo_init_eq. Qed.

Lemma demo_warm_reachable : reachable demo_warm.
Proof.
  apply (reach_update no_db demo_init (0, 0)%Q true);
    [exact demo_init_reachable | exact demo_warm_eq].
Qed.

Lemma demo_center_reachable : reachable demo_center.
Proof.
  apply (reach_collect [] [((0, 0), ramp)] demo_warm);
    [exact demo_warm_reachable | exact demo_center_eq].
Qed.

Lemma demo_edge_reachable : reachable demo_edge.
Proof.
  apply (reach_collect [] [((50, 0), ramp)] demo_center);
    [exact demo_center_reachable | exact demo_edge_eq].
Qed.

Lemma demo_shifted_reachable : reachable demo_shifted.
Proof.
  apply (reach_shift no_db demo_center (60, 0)%Q);
    [exact demo_center_reachable | exact demo_shifted_eq].
Qed.



Lemma odd_init_eq : init odd_cfg = Ok odd_init.
Proof. apply or_else_returned. vm_compute. reflexivity. Qed.

Lemma odd_warm_eq :
  update_high_res_dem no_db odd_init (0, 0)%Q = Ok (true, odd_warm).
Proof.
  rewrite (or_else_returned _ (false, odd_init)) by (vm_compute; reflexivity).
  unfold odd_warm. destruct (or_else _ _) as [u s] eqn:E.
  assert (Hu : (or_else (update_high_res_dem no_db odd_init (0, 0)%Q)
                  (false, odd_init)).1 = true) by (vm_compute; reflexivity).
  rewrite E in Hu. simpl in Hu. by subst u.
Qed.

Lemma odd_center_eq :
  collect_terrain_data [] [((0, 0), odd_ramp)] odd_warm = Ok odd_center.
Proof. apply or_else_returned. vm_compute. reflexivity. Qed.

Lemma odd_center_reachable : reachable odd_center.
Proof.
  apply (reach_collect [] [((0, 0), odd_ramp)] odd_warm); [| exact odd_center_eq].
  apply (reach_update no_db odd_init (0, 0)%Q true); [| exact odd_warm_eq].
  apply (reach_init odd_cfg). exact odd_init_eq.
Qed.

(** ** Readiness of the map *)

Lemma list_comp_all {A} (f : A -> result bool) (l : list A) :
  (forall a, a ∈ l -> exists b, f a = Ok b) ->
  exists bs, list_comp f l = Ok bs
             /\ (forallb id bs = true <-> forall a, a ∈ l -> f a = Ok true).
Proof.
  induction l as [| a l IH]; intros Hall.
  - exists []. split; [reflexivity |]. split; [| reflexivity].
    intros _ a Ha. by apply elem_of_nil in Ha.
  - destruct (Hall a) as [b Hb]; [left |].
    destruct IH as (bs & E & Hbs).
    { intros a' Ha'. apply Hall. by right. }
    exists (b :: bs). simpl. rewrite Hb, E. split; [reflexivity |].
    unfold id at 1. rewrite andb_true_iff, Hbs. split.
    + intros [-> Hl] a' [-> | Ha']%elem_of_cons; [exact Hb | by apply Hl].
    + intros Hl. split.
      * specialize (Hl a (list_elem_of_here _ _)). rewrite Hb in Hl.
        by injection Hl.
      * intros a' Ha'. apply Hl. by right.
Qed.

Lemma elem_of_map_values (m : gmap coord coord) (v : coord) :
  v ∈ (map_to_list m).*2 <-> exists k, m !! k = Some v.
Proof.
  rewrite list_elem_of_fmap. split.
  - intros ([k v'] & -> & Hin). exists k. by apply elem_of_map_to_list.
  - intros (k & Hk). exists (k, v). split; [reflexivity |].
    by apply elem_of_map_to_list.
Qed.

(** C1, as amended. In every reachable state [is_map_done] returns, and it
    returns [True] exactly when every block of the grid, padding blocks
    included, has its three readiness flags set. *)
Theorem is_map_done_all_blocks (self : HighResDEMGen) :
  reachable self ->
  exists b, is_map_done self = Ok b
    /\ (b = true <->
        forall rel l, block_grid_tracker self !! rel = Some l ->
          ready (deref (blocks self) l) = true).
Proof.
  intros Hr. pose proof (reachable_wf self Hr) as Hwf.
  destruct Hwf as (Hm & Ht & Hv).
  destruct (list_comp_all (block_is_ready self)
              (map_to_list (map_grid_block2coords self)).*2)
    as (bs & E & Hbs).
  { intros rc (k & Hk)%elem_of_map_values.
    destruct (grid_at_map_in_tracker self _ (conj Hm (conj Ht Hv)) k rc Hk)
      as [l Hl].
    unfold block_is_ready, dict_get. rewrite Hl. by eexists. }
  exists (forallb id bs). unfold is_map_done. rewrite E. split; [reflexivity |].
  rewrite Hbs. split.
  - intros Hall rel l Hl.
    destruct (proj1 (Ht rel) (ex_intro _ l Hl)) as (xy & Hin & ->).
    assert (Hk : map_grid_block2coords self
                 !! abs_of (settings self) (current_block_coord self) xy
                 = Some (rel_of (settings self) xy)).
    { apply Hm. by exists xy. }
    specialize (Hall (rel_of (settings self) xy)
                  (proj2 (elem_of_map_values _ _) (ex_intro _ _ Hk))).
    unfold block_is_ready, dict_get in Hall. rewrite Hl in Hall.
    by injection Hall.
  - intros Hall rc (k & Hk)%elem_of_map_values.
    destruct (grid_at_map_in_tracker self _ (conj Hm (conj Ht Hv)) k rc Hk)
      as [l Hl].
    unfold block_is_ready, dict_get. rewrite Hl. cbn.
    by rewrite (Hall rc l Hl).
Qed.

Lemma is_map_done_all_blocks_witness :
  reachable demo_center
  /\ exists b, is_map_done demo_center = Ok b
       /\ (b = true <->
           forall rel l, block_grid_tracker demo_center !! rel = Some l ->
             ready (deref (blocks demo_center) l) = true).
Proof.
  split; [exact demo_center_reachable |].
  apply (is_map_done_all_blocks demo_center). exact demo_center_reachable.
Defined.

(** C1, counterexample. Once the only usable block of [demo_center] has
    its terrain, every block that is not padding is ready, and yet
    [is_map_done] returns [False]: the padding blocks are still waited for. *)
Lemma is_map_done_waits_for_padding :
  reachable demo_center /\ ~ done_iff_usable_ready demo_center.
Proof.
  split; [exact demo_center_reachable |].
  intros (b & Hb & Hiff).
  assert (E : is_map_done demo_center = Ok false) by (vm_compute; reflexivity).
  rewrite E in Hb. injection Hb as <-.
  assert (Habs : false = true); [| discriminate].
  apply Hiff.
  assert (HF : map_Forall
                 (fun (_ : coord) (l : nat) =>
                    is_padding (deref (blocks demo_center) l) = false ->
                    ready (deref (blocks demo_center) l) = true)
                 (block_grid_tracker demo_center)).
  { apply (bool_decide_unpack _). vm_compute. exact I. }
  intros rel l Hl. exact (HF rel l Hl).
Qed.

(** ** Height queries *)

Lemma py_div_nonzero (a b : Q) : ~ (b == 0)%Q -> py_div a b = Ok (a / b)%Q.
Proof.
  intros Hb. unfold py_div.
  destruct (Qeq_bool b 0) eqn:E; [| reflexivity].
  apply Qeq_bool_iff in E. contradiction.
Qed.

Lemma get_height_getitem (self : HighResDEMGen) (p : Q * Q) :
  ~ (resolution (settings self) == 0)%Q ->
  get_height self p
  = Np.getitem (high_res_dem self) (pixel_of self p).1 (pixel_of self p).2.
Proof.
  intros Hres. unfold get_height, get_coordinates, local_axis.
  cbn [fst snd]. rewrite !py_div_nonzero by assumption. reflexivity.
Qed.

Lemma norm_index_range len i :
  - len <= i < len -> Np.norm_index len i = Ok (wrap len i).
Proof.
  intros Hi. unfold Np.norm_index, wrap. cmp_cases; simpl; (reflexivity || lia).
Qed.

Lemma norm_index_outside len i :
  i < - len \/ len <= i -> Np.norm_index len i = Raise IndexError.
Proof.
  intros Hi. unfold Np.norm_index. cmp_cases; simpl; (reflexivity || lia).
Qed.

Lemma py_int_comp (q1 q2 : Q) : (q1 == q2)%Q -> py_int q1 = py_int q2.
Proof.
  unfold Qeq, py_int. destruct q1 as [n1 d1], q2 as [n2 d2]. cbn. intros H.
  rewrite <- (Z.quot_mul_cancel_r n1 (Z.pos d1) (Z.pos d2)) by lia.
  rewrite <- (Z.quot_mul_cancel_r n2 (Z.pos d2) (Z.pos d1)) by lia.
  rewrite H. f_equal. lia.
Qed.

(** Why the half block is subtracted. In the scenario configuration the
    buffer has [(2 * num_blocks + 3) * 1000] samples a side, and the index
    of [get_height] is the distance to the current block coordinate, in
    samples, plus the offset [(num_blocks + 1) * block_size / resolution]
    at which [collect_terrain_data] writes the block of relative coordinate
    0: a query reads the sample that the collection stored for that place. *)
Lemma pixel_axis_matches_block_layout n gc cur p :
  0 <= n ->
  let cfg := scenario_cfg n gc in
  let offset :=
    py_int (inject_Z ((num_blocks cfg + 1) * block_size cfg)
            / resolution cfg) in
  pixel_axis cfg ((n * 2 + 3) * 50 * 20) cur p
  = py_int ((p - inject_Z cur) / resolution cfg + inject_Z offset)%Q.
Proof.
  intros Hn cfg offset. unfold pixel_axis. apply py_int_comp.
  assert (Eo : offset = (n + 1) * 1000).
  { unfold offset, py_int. cbn. rewrite Z.quot_1_r. lia. }
  rewrite Eo.
  replace ((n * 2 + 3) * 50 * 20 / 2) with ((n * 2 + 3) * 500)
    by (apply Z.div_unique_exact; lia).
  cbn [cfg scenario_cfg resolution block_size].
  change (50 / 2) with 25.
  rewrite !inject_Z_mult, !inject_Z_plus, inject_Z_mult.
  unfold Qdiv. change (/ (1 # 20))%Q with (20 # 1)%Q.
  change (inject_Z 500) with (500 # 1)%Q.
  change (inject_Z 25) with (25 # 1)%Q.
  change (inject_Z 1000) with (1000 # 1)%Q.
  change (inject_Z 3) with (3 # 1)%Q.
  change (inject_Z 2) with (2 # 1)%Q.
  change (inject_Z 1) with (1 # 1)%Q.
  ring.
Qed.





(** With blocks of an odd number of meters [block_size // 2] is not half a
    block, and the index of [get_height] leaves the layout of
    [collect_terrain_data]. In [odd_center] (blocks of 5 m) the raster of
    the block [(0, 0)] was added to the rows 10 to 19, so that its first
    sample, of height 1, is the one of the position [(0, 0)];
    [get_height((0, 0))] reads the row 11 and returns 2. *)
Lemma get_height_odd_block_size :
  reachable odd_center
  /\ block_size (settings odd_center) = 5
  /\ collect_slice (settings odd_center) 0 = Np.from_to 10 20
  /\ Np.cell (high_res_dem odd_center) 10 10 = 1 # 1
  /\ pixel_of odd_center (0, 0)%Q = (11, 11)
  /\ get_height odd_center (0, 0)%Q = Ok (2 # 1).
Proof.
  split; [exact odd_center_reachable |].
  split_and!; vm_compute; reflexivity.
Qed.

(** C3, as amended. An index beyond the buffer, at [side] or more or
    below [-side] along either axis, makes [get_height] raise numpy's
    [IndexError]; an index from [-side] to [-1] does not raise: the sample
    is read [side] places further, from the opposite edge of the buffer. *)
Theorem get_height_out_of_bounds (self : HighResDEMGen) (p : Q * Q)
    (i j : Z) :
  reachable self ->
  pixel_of self p = (i, j) ->
  let dem := high_res_dem self in
  ((i < - Np.shape0 dem \/ Np.shape0 dem <= i
    \/ j < - Np.shape1 dem \/ Np.shape1 dem <= j) ->
   get_height self p = Raise IndexError)
  /\ (- Np.shape0 dem <= i < Np.shape0 dem ->
      - Np.shape1 dem <= j < Np.shape1 dem ->
      get_height self p
      = Ok (Np.cell dem (wrap (Np.shape0 dem) i) (wrap (Np.shape1 dem) j))).
Proof.
  intros Hr Hp dem.
  destruct (reachable_buffer_ok self Hr) as (Hres & _ & _).
  rewrite (get_height_getitem self p Hres), Hp.
  cbn [fst snd]. fold dem. unfold Np.getitem. split.
  - intros Hout.
    destruct (decide (i < - Np.shape0 dem \/ Np.shape0 dem <= i)) as [Hi | Hi].
    + by rewrite (norm_index_outside _ _ Hi).
    + rewrite (norm_index_range (Np.shape0 dem) i) by lia. cbn.
      rewrite (norm_index_outside (Np.shape1 dem) j) by lia. reflexivity.
  - intros Hi Hj. by rewrite !norm_index_range.
Qed.

Lemma get_height_out_of_bounds_witness :
  reachable demo_edge
  /\ pixel_of demo_edge (-100 # 1, 0)%Q = (-1000, 1000)
  /\ get_height demo_edge (-100 # 1, 0)%Q
     = Ok (Np.cell (high_res_dem demo_edge)
             (wrap (Np.shape0 (high_res_dem demo_edge)) (-1000))
             (wrap (Np.shape1 (high_res_dem demo_edge)) 1000)).
Proof.
  assert (Hp : pixel_of demo_edge (-100 # 1, 0)%Q = (-1000, 1000))
    by (vm_compute; reflexivity).
  split; [exact demo_edge_reachable |]. split; [exact Hp |].
  apply (get_height_out_of_bounds demo_edge (-100 # 1, 0)%Q (-1000) 1000
           demo_edge_reachable Hp);
    vm_compute; intuition discriminate.
Defined.

(** C3, counterexample. The position [(-100, 0)] is 50 m outside the
    window of [demo_edge] and its index [(-1000, 1000)] is outside the
    buffer (so is the index of the specification); [get_height] does not
    raise and returns 1, the sample stored at [(2000, 1000)] for the
    opposite edge of the window. *)
Lemma get_height_wraps_around :
  reachable demo_edge
  /\ pixel_of demo_edge (-100 # 1, 0)%Q = (-1000, 1000)
  /\ floored_pixel demo_edge (-100 # 1, 0)%Q = (-500, 1500)
  /\ get_height demo_edge (-100 # 1, 0)%Q = Ok (1 # 1)
  /\ ~ raises_out_of_bounds demo_edge (-100 # 1, 0)%Q.
Proof.
  split; [exact demo_edge_reachable |].
  assert (E : get_height demo_edge (-100 # 1, 0)%Q = Ok (1 # 1))
    by (vm_compute; reflexivity).
  assert (Hp : pixel_of demo_edge (-100 # 1, 0)%Q = (-1000, 1000))
    by (vm_compute; reflexivity).
  split; [exact Hp |].
  split; [vm_compute; reflexivity |].
  split; [exact E |].
  unfold raises_out_of_bounds. rewrite Hp.
  intros H. destruct H as [e He].
  - intros [[Hi _] _]. lia.
  - rewrite E in He. discriminate He.
Qed.

(** ** Reuse of blocks across a shift *)

(** C4, as amended. On every reachable state [shift_block_grid] returns.
    For each slot of the new window whose absolute coordinate was in the old
    map, the new tracker holds the same object as the old tracker held for
    that coordinate, with its three readiness flags unchanged (its
    [is_padding] flag is rewritten by the shift); for each other slot it
    holds an object that was not in the store before, without terrain data
    and with the two crater flags set exactly when crater generation is
    disabled. *)
Theorem shift_block_grid_reuses_blocks (self : HighResDEMGen) (c : coord) :
  reachable self ->
  exists self',
    shift_block_grid self c = Ok self'
    /\ forall xy, xy ∈ grid_cells (num_blocks (settings self)) ->
         match map_grid_block2coords self !! abs_of (settings self) c xy with
         | Some rc =>
             exists l b b',
               block_grid_tracker self !! rc = Some l
               /\ block_grid_tracker self' !! rel_of (settings self) xy
                  = Some l
               /\ blocks self !! l = Some b
               /\ blocks self' !! l = Some b'
               /\ readiness b' = readiness b
         | None =>
             exists l b',
               block_grid_tracker self' !! rel_of (settings self) xy = Some l
               /\ blocks self !! l = None
               /\ blocks self' !! l = Some b'
               /\ has_terrain_data b' = false
               /\ has_crater_metadata b'
                  = negb (generate_craters (settings self))
               /\ has_crater_data b'
                  = negb (generate_craters (settings self))
         end.
Proof.
  intros Hr. pose proof (reachable_wf self Hr) as Hwf.
  destruct (shift_block_grid_spec self _ c Hwf)
    as (h & nt & nm & E & Hg & Hlen & Hkeep & Hnew & Hc).
  eexists. split; [exact E |].
  intros xy Hin. destruct (Hc xy Hin) as (l & Hl & Hcase). cbn.
  destruct (map_grid_block2coords self !! abs_of (settings self) c xy)
    as [rc |].
  - destruct Hwf as (_ & _ & Hv). pose proof (Hv _ _ Hcase) as Hlt.
    destruct (lookup_lt_is_Some_2 (blocks self) l Hlt) as [b Hb].
    destruct (Hkeep l b Hb) as (b' & Hb' & Hr').
    by exists l, b, b'.
  - exists l, (empty_state (settings self)). split_and!; try reflexivity.
    + exact Hl.
    + apply lookup_ge_None. lia.
    + by apply Hnew.
Qed.

Lemma shift_block_grid_reuses_blocks_witness :
  reachable demo_center
  /\ exists self',
       shift_block_grid demo_center (50, 0) = Ok self'
       /\ forall xy, xy ∈ grid_cells (num_blocks (settings demo_center)) ->
            match map_grid_block2coords demo_center
                  !! abs_of (settings demo_center) (50, 0) xy with
            | Some rc =>
                exists l b b',
                  block_grid_tracker demo_center !! rc = Some l
                  /\ block_grid_tracker self'
                     !! rel_of (settings demo_center) xy = Some l
                  /\ blocks demo_center !! l = Some b
                  /\ blocks self' !! l = Some b'
                  /\ readiness b' = readiness b
            | None =>
                exists l b',
                  block_grid_tracker self'
                  !! rel_of (settings demo_center) xy = Some l
                  /\ blocks demo_center !! l = None
                  /\ blocks self' !! l = Some b'
                  /\ has_terrain_data b' = false
                  /\ has_crater_metadata b'
                     = negb (generate_craters (settings demo_center))
                  /\ has_crater_data b'
                     = negb (generate_craters (settings demo_center))
            end.
Proof.
  split; [exact demo_center_reachable |].
  apply (shift_block_grid_reuses_blocks demo_center (50, 0)).
  exact demo_center_reachable.
Defined.

Lemma demo_grid_moved_eq :
  shift_block_grid demo_shifted (100, 0) = Ok demo_grid_moved.
Proof. apply or_else_returned. vm_compute. reflexivity. Qed.

(** C4, counterexample. [demo_shifted] has its window on the block
    [(50, 0)], which its slot [(0, 0)] holds. The shift of the grid to
    [(100, 0)] carries that object over to the slot [(-50, 0)]: it is the
    same object and its three readiness flags are unchanged, but its
    [is_padding] flag, [True] before the shift, is [False] after it. The
    flag values of a carried-over object are not all identical. *)
Lemma shift_block_grid_rewrites_padding :
  reachable demo_shifted
  /\ shift_block_grid demo_shifted (100, 0) = Ok demo_grid_moved
  /\ map_grid_block2coords demo_shifted !! (50, 0) = Some (0, 0)
  /\ block_grid_tracker demo_shifted !! (0, 0) = Some 7%nat
  /\ block_grid_tracker demo_grid_moved !! (-50, 0) = Some 7%nat
  /\ readiness (deref (blocks demo_grid_moved) 7)
     = readiness (deref (blocks demo_shifted) 7)
  /\ is_padding (deref (blocks demo_shifted) 7) = true
  /\ is_padding (deref (blocks demo_grid_moved) 7) = false
  /\ ~ carries_identical_blocks demo_shifted (100, 0).
Proof.
  assert (Hm : map_grid_block2coords demo_shifted !! (50, 0) = Some (0, 0))
    by (vm_compute; reflexivity).
  assert (Ht : block_grid_tracker demo_shifted !! (0, 0) = Some 7%nat)
    by (vm_compute; reflexivity).
  assert (Hp : is_padding (deref (blocks demo_shifted) 7) = true)
    by (vm_compute; reflexivity).
  assert (Hp' : is_padding (deref (blocks demo_grid_moved) 7) = false)
    by (vm_compute; reflexivity).
  split; [exact demo_shifted_reachable |].
  split; [exact demo_grid_moved_eq |].
  split; [exact Hm |]. split; [exact Ht |].
  split; [vm_compute; reflexivity |].
  split; [vm_compute; reflexivity |].
  split; [exact Hp |]. split; [exact Hp' |].
  intros (self' & E & H).
  rewrite demo_grid_moved_eq in E. apply Ok_inj in E. subst self'.
  assert (Es : settings demo_shifted = demo_cfg) by (vm_compute; reflexivity).
  assert (Hin : (-1, 0) ∈ grid_cells (num_blocks (settings demo_shifted))).
  { apply elem_of_grid_cells. rewrite Es. cbn. lia. }
  specialize (H (-1, 0) Hin).
  assert (Ea : abs_of (settings demo_shifted) (100, 0) (-1, 0) = (50, 0))
    by (rewrite Es; reflexivity).
  rewrite Ea, Hm in H. destruct H as (l & Hl & _ & Hd).
  rewrite Ht in Hl. apply (inj Some) in Hl. subst l.
  rewrite <- Hd, Hp' in Hp. discriminate Hp.
Qed.

(** ** The two maps *)

Lemma grid_at_bijection self c : grid_at self c -> bijection_at self c.
Proof.
  intros (Hm & Ht & _). split.
  - intros abs rel H. apply Hm in H as (xy & Hin & -> & ->).
    split; [| apply abs_of_rel_of]. apply Ht. by exists xy.
  - intros rel (xy & Hin & ->)%Ht.
    exists (abs_of (settings self) c xy). split.
    + apply Hm. by exists xy.
    + intros abs' (xy' & _ & -> & Hrel)%Hm.
      by apply rel_of_abs_of.
Qed.

(** C9. In every reachable state the map is a bijection between the
    absolute coordinates of the window of the current center and the slots
    of the tracker, each absolute coordinate being its slot plus the
    center; [build_block_grid] returns a grid with that property, and so
    does [shift_block_grid] for the center it is given. *)
Theorem block_maps_in_bijection (self : HighResDEMGen) (c : coord) :
  reachable self ->
  bijection_at self (current_block_coord self)
  /\ (exists self',
        build_block_grid self = Ok self'
        /\ bijection_at self' (current_block_coord self))
  /\ (exists self',
        shift_block_grid self c = Ok self' /\ bijection_at self' c).
Proof.
  intros Hr. pose proof (reachable_wf self Hr) as Hwf. split_and!.
  - by apply grid_at_bijection.
  - destruct (build_block_grid_spec self) as (h & t & m & E & Hg & _).
    eexists. split; [exact E |]. by apply grid_at_bijection.
  - destruct (shift_block_grid_spec self _ c Hwf)
      as (h & nt & nm & E & Hg & _).
    eexists. split; [exact E |]. by apply grid_at_bijection.
Qed.

Lemma block_maps_in_bijection_witness :
  reachable demo_center
  /\ bijection_at demo_center (current_block_coord demo_center)
  /\ (exists self',
        build_block_grid demo_center = Ok self'
        /\ bijection_at self' (current_block_coord demo_center))
  /\ (exists self',
        shift_block_grid demo_center (50, 0) = Ok self'
        /\ bijection_at self' (50, 0)).
Proof.
  split; [exact demo_center_reachable |].
  apply (block_maps_in_bijection demo_center (50, 0)).
  exact demo_center_reachable.
Defined.

(** ** Padding flags *)

Lemma padding_follows_ring_check self :
  forallb (padding_ok self) (grid_cells (num_blocks (settings self))) = true ->
  padding_follows_ring self.
Proof.
  intros Hall x y Hin. rewrite forallb_forall in Hall.
  specialize (Hall (x, y) (proj1 (list_elem_of_In _ _) Hin)).
  unfold padding_ok in Hall.
  destruct (block_grid_tracker self !! rel_of (settings self) (x, y))
    as [l |]; [| discriminate].
  exists l. split; [reflexivity |].
  apply bool_decide_eq_true in Hall. rewrite Hall. cbn [fst snd].
  apply bool_decide_eq_true.
Qed.

(** The flags are right after [build_block_grid], and after the first
    [update_high_res_dem], which shifts the grid onto itself. *)
Lemma padding_follows_ring_after_build :
  padding_follows_ring demo_init /\ padding_follows_ring demo_warm.
Proof.
  split; apply padding_follows_ring_check; vm_compute; reflexivity.
Qed.

(** C5, the code at a failing input. [shift_block_grid((50, 0))] on the
    grid built around [(0, 0)] writes the new padding flags through the old
    tracker, so each block keeps the flag of the slot it came from: the new
    block at slot [(50, 0)], in the outermost ring, is not marked as
    padding, and the block at the center slot [(0, 0)] is. *)
Theorem shift_block_grid_stale_padding :
  reachable demo_warm
  /\ shift_block_grid demo_warm (50, 0) = Ok demo_grid_shifted
  /\ (exists l, block_grid_tracker demo_grid_shifted !! (50, 0) = Some l
        /\ is_padding (deref (blocks demo_grid_shifted) l) = false)
  /\ (exists l, block_grid_tracker demo_grid_shifted !! (0, 0) = Some l
        /\ is_padding (deref (blocks demo_grid_shifted) l) = true)
  /\ ~ padding_follows_ring demo_grid_shifted.
Proof.
  split; [exact demo_warm_reachable |].
  split; [apply or_else_returned; vm_compute; reflexivity |].
  assert (H1 : block_grid_tracker demo_grid_shifted !! (50, 0) = Some 10%nat)
    by (vm_compute; reflexivity).
  assert (P1 : is_padding (deref (blocks demo_grid_shifted) 10) = false)
    by (vm_compute; reflexivity).
  split; [exists 10%nat; split; [exact H1 | exact P1] |].
  split.
  { exists 7%nat. split; vm_compute; reflexivity. }
  assert (Hn : num_blocks (settings demo_grid_shifted) = 0)
    by (vm_compute; reflexivity).
  assert (Hrel : rel_of (settings demo_grid_shifted) (1, 0) = (50, 0))
    by (vm_compute; reflexivity).
  intros Hclaim. unfold padding_follows_ring in Hclaim.
  cbv zeta in Hclaim. rewrite Hn in Hclaim.
  destruct (Hclaim 1 0) as (l & Hl & Hiff).
  { apply elem_of_grid_cells. lia. }
  rewrite Hrel, H1 in Hl. injection Hl as <-.
  rewrite P1 in Hiff.
  assert (Habs : false = true); [| discriminate Habs].
  apply Hiff. left. reflexivity.
Qed.

(** ** Shifting to the current center *)

(** What a shift to the current center does keep: the map, the tracker
    (every slot holds the same object as before) and the three readiness
    flags of every object. *)
Lemma shift_block_grid_same_center (self : HighResDEMGen) :
  wf self ->
  exists self',
    shift_block_grid self (current_block_coord self) = Ok self'
    /\ map_grid_block2coords self' = map_grid_block2coords self
    /\ block_grid_tracker self' = block_grid_tracker self
    /\ keeps readiness (blocks self) (blocks self').
Proof.
  intros Hwf.
  destruct (shift_block_grid_spec self _ (current_block_coord self) Hwf)
    as (h & nt & nm & E & (Hm' & Ht' & _) & Hlen & Hkeep & Hnew & Hc).
  destruct Hwf as (Hm & Ht & Hv).
  eexists. split; [exact E |]. cbn. split_and!; [| | exact Hkeep].
  - apply map_eq. intros k. apply option_eq. intros v.
    cbn in Hm'. by rewrite (Hm k v), (Hm' k v).
  - apply map_eq. intros k.
    destruct (block_grid_tracker self !! k) as [l |] eqn:Hk.
    + destruct (proj1 (Ht k) (ex_intro _ l Hk)) as (xy & Hin & ->).
      destruct (Hc xy Hin) as (l' & Hl' & Hcase).
      assert (Hom : map_grid_block2coords self
                    !! abs_of (settings self) (current_block_coord self) xy
                    = Some (rel_of (settings self) xy)).
      { apply Hm. by exists xy. }
      rewrite Hom in Hcase. congruence.
    + destruct (nt !! k) as [l' |] eqn:Hk'; [| reflexivity].
      cbn in Ht'.
      destruct (proj1 (Ht' k) (ex_intro _ l' Hk')) as (xy & Hin & ->).
      destruct (proj2 (Ht (rel_of (settings self) xy))
                  (ex_intro _ xy (conj Hin eq_refl))) as [l Hl].
      congruence.
Qed.

(** In a reachable state the shift to the unchanged center keeps every
    sample of the buffer, the map, the object of every slot and its three
    readiness flags. *)
Lemma shift_same_center_keeps (self : HighResDEMGen) :
  reachable self ->
  (exists dem',
     shift_dem (high_res_dem self) (0, 0) = Ok dem'
     /\ forall i j, Np.in_bounds (high_res_dem self) i j ->
          Np.cell dem' i j = Np.cell (high_res_dem self) i j)
  /\ (exists self',
        shift_block_grid self (current_block_coord self) = Ok self'
        /\ map_grid_block2coords self' = map_grid_block2coords self
        /\ block_grid_tracker self' = block_grid_tracker self
        /\ keeps readiness (blocks self) (blocks self')).
Proof.
  intros Hr. split.
  - destruct (reachable_buffer_ok self Hr) as (_ & H0 & H1).
    destruct (shift_dem_zero (high_res_dem self) H0 H1)
      as (dem' & E & _ & _ & Hc).
    by exists dem'.
  - apply shift_block_grid_same_center. by apply reachable_wf.
Qed.

(** C10, the code at a failing input. [demo_shifted] was shifted from
    [(0, 0)] to [(50, 0)], which left stale padding flags (see C5). A
    further [shift_block_grid] to the same center [(50, 0)] keeps the map
    and the object of every slot, but rewrites their padding flags: the
    block at slot [(50, 0)] had [is_padding] false before and has it true
    after. *)
Theorem shift_block_grid_same_center_repairs_padding :
  reachable demo_shifted
  /\ current_block_coord demo_shifted = (50, 0)
  /\ shift_block_grid demo_shifted (50, 0) = Ok demo_shifted_again
  /\ map_grid_block2coords demo_shifted_again
     = map_grid_block2coords demo_shifted
  /\ block_grid_tracker demo_shifted_again = block_grid_tracker demo_shifted
  /\ (exists l, block_grid_tracker demo_shifted !! (50, 0) = Some l
        /\ is_padding (deref (blocks demo_shifted) l) = false
        /\ is_padding (deref (blocks demo_shifted_again) l) = true)
  /\ ~ same_center_is_identity demo_shifted.
Proof.
  assert (E : shift_block_grid demo_shifted (50, 0) = Ok demo_shifted_again)
    by (apply or_else_returned; vm_compute; reflexivity).
  assert (Hc : current_block_coord demo_shifted = (50, 0))
    by (vm_compute; reflexivity).
  assert (Ht : block_grid_tracker demo_shifted_again
               = block_grid_tracker demo_shifted)
    by (vm_compute; reflexivity).
  assert (H1 : block_grid_tracker demo_shifted !! (50, 0) = Some 10%nat)
    by (vm_compute; reflexivity).
  assert (P0 : deref (blocks demo_shifted) 10
               = mk_BlockState true true false false)
    by (vm_compute; reflexivity).
  assert (P1 : deref (blocks demo_shifted_again) 10
               = mk_BlockState true true false true)
    by (vm_compute; reflexivity).
  split; [exact demo_shifted_reachable |].
  split; [exact Hc |]. split; [exact E |].
  split; [vm_compute; reflexivity |]. split; [exact Ht |].
  split.
  { exists 10%nat. rewrite P0, P1. split; [exact H1 |]. split; reflexivity. }
  intros (self' & E' & _ & Hsame).
  rewrite Hc, E in E'. apply Ok_inj in E'. subst self'.
  destruct (Hsame (50, 0) 10%nat H1) as (l' & Hl' & Heq).
  rewrite Ht, H1 in Hl'. injection Hl' as <-.
  rewrite P0, P1 in Heq. discriminate Heq.
Qed.

(** ** Crossing one block boundary *)

Lemma zeros_spec n m :
  0 <= n -> 0 <= m -> Np.zeros n m = Ok (Np.const n m 0%Q).
Proof. intros Hn Hm. unfold Np.zeros. cmp_cases; (reflexivity || lia). Qed.

Lemma init_spec cfg side :
  dem_side cfg = Ok side -> 0 <= side ->
  exists self0,
    init cfg = Ok self0
    /\ settings self0 = cfg
    /\ current_block_coord self0 = (0, 0)
    /\ sim_is_warm self0 = false
    /\ wf self0.
Proof.
  intros Hside Hpos. unfold init.
  destruct (build_block_grid_spec (blank cfg)) as (h & t & m & E & Hg & _).
  rewrite E. cbn. unfold instantiate_high_res_dem. cbn.
  rewrite Hside. cbn. rewrite (zeros_spec side side Hpos Hpos). cbn.
  eexists. split; [reflexivity |]. by split_and!.
Qed.

Lemma scenario_dem_side n gc :
  0 <= n ->
  dem_side (scenario_cfg n gc) = Ok ((n * 2 + 3) * 50 * 20)
  /\ 0 <= (n * 2 + 3) * 50 * 20.
Proof.
  intros Hn. split; [| lia]. unfold dem_side.
  rewrite py_div_nonzero by discriminate. cbn. unfold py_int. cbn.
  by rewrite Z.quot_1_r.
Qed.

Lemma collected_frame self self' :
  wf self -> collected self self' ->
  wf self' /\ same_frame self self'
  /\ block_grid_tracker self' = block_grid_tracker self
  /\ map_grid_block2coords self' = map_grid_block2coords self.
Proof.
  intros Hwf Hc. induction Hc as [| cr tr self self1 self2 Hc IH Hstep].
  - split; [exact Hwf |]. by repeat split.
  - destruct (IH Hwf) as (Hwf1 & (F1 & F2 & F3) & T1 & M1).
    destruct (collect_terrain_data_wf _ _ _ _ Hwf1 Hstep)
      as (Hwf2 & (G1 & G2 & G3) & T2 & M2).
    split; [exact Hwf2 |]. repeat split; congruence.
Qed.

(** The first [update((0, 0))] of the scenario. *)
Lemma scenario_first_update n gc db :
  0 <= n ->
  exists self0 self1,
    init (scenario_cfg n gc) = Ok self0
    /\ update_high_res_dem db self0 (0, 0)%Q = Ok (true, self1)
    /\ settings self1 = scenario_cfg n gc
    /\ current_block_coord self1 = (0, 0)
    /\ sim_is_warm self1 = true
    /\ wf self1.
Proof.
  intros Hn. destruct (scenario_dem_side n gc Hn) as [Hside Hpos].
  destruct (init_spec (scenario_cfg n gc) _ Hside Hpos)
    as (self0 & E0 & Hset & Hcur & Hwarm & Hwf).
  assert (Hcast : cast_coordinates_to_block_space self0 (0, 0)%Q = Ok (0, 0)).
  { unfold cast_coordinates_to_block_space. rewrite Hset. reflexivity. }
  assert (Hps : pixel_shift self0 (0, 0)%Q = Ok (0, 0)).
  { unfold pixel_shift. rewrite Hcast. cbn. rewrite Hcur, Hset. reflexivity. }
  destruct (shift_spec db self0 _ (0, 0)%Q (0, 0) (0, 0) Hwf Hcast Hps)
    as (s & Es & Hset' & Hwarm' & Hcur' & Hg' & _).
  exists self0, (with_warm s true). split; [exact E0 |].
  split_and!.
  - unfold update_high_res_dem. rewrite Hcast. cbn. rewrite Hwarm. cbn.
    change (inject_coord (0, 0)) with (0, 0)%Q. rewrite Es. cbn.
    rewrite Hcur'. case_decide; [congruence | reflexivity].
  - cbn. congruence.
  - exact Hcur'.
  - reflexivity.
  - unfold wf. cbn. rewrite Hcur'. exact Hg'.
Qed.

(** C8, as amended. In the scenario (blocks of 50 m, 0.05 m per sample,
    any window radius, craters or not) [update((0, 0))] returns [True] on
    the new generator. Whatever the collection passes did since then,
    [update((60, 0))] returns [True], its effect is that of one call of
    [shift], the pixel shift of that call is [(-1000, 0)], that is
    [-(50 - 0) / 0.05] for the block coordinates, and not [-60 / 0.05], the
    buffer is shifted by it, and every usable block that had its terrain
    data still has it: the same object is now one slot to the left. *)
Theorem update_across_one_block (n : Z) (gc : bool)
    (db db' : coord -> bool) :
  0 <= n ->
  (exists self0 self1,
     init (scenario_cfg n gc) = Ok self0
     /\ update_high_res_dem db self0 (0, 0)%Q = Ok (true, self1))
  /\ forall self, warmed_at_origin n gc db self ->
       exists self2,
         update_high_res_dem db' self (60 # 1, 0)%Q = Ok (true, self2)
         /\ shift db' self (60 # 1, 0)%Q = Ok self2
         /\ pixel_shift self (60 # 1, 0)%Q = Ok (-1000, 0)
         /\ shift_dem (high_res_dem self) (-1000, 0)
            = Ok (high_res_dem self2)
         /\ current_block_coord self2 = (50, 0)
         /\ forall x y l,
              - n <= x <= n -> - n <= y <= n ->
              block_grid_tracker self !! (x * 50, y * 50) = Some l ->
              has_terrain_data (deref (blocks self) l) = true ->
              block_grid_tracker self2 !! ((x - 1) * 50, y * 50) = Some l
              /\ has_terrain_data (deref (blocks self2) l) = true.
Proof.
  intros Hn. split.
  { destruct (scenario_first_update n gc db Hn)
      as (self0 & self1 & E0 & E1 & _).
    by exists self0, self1. }
  intros self (self0 & self1 & E0 & E1 & Hcol).
  destruct (scenario_first_update n gc db Hn)
    as (s0 & s1 & F0 & F1 & Hset1 & Hcur1 & Hwarm1 & Hwf1).
  rewrite F0 in E0. apply Ok_inj in E0. subst s0.
  rewrite F1 in E1. apply Ok_inj in E1. injection E1 as ->.
  destruct (collected_frame self1 self Hwf1 Hcol)
    as (Hwf & (Hset & Hcur & Hwarm) & _ & _).
  rewrite Hset1 in Hset. rewrite Hcur1 in Hcur. rewrite Hwarm1 in Hwarm.
  assert (Hcast : cast_coordinates_to_block_space self (60 # 1, 0)%Q
                  = Ok (50, 0)).
  { unfold cast_coordinates_to_block_space. rewrite Hset. reflexivity. }
  assert (Hps : pixel_shift self (60 # 1, 0)%Q = Ok (-1000, 0)).
  { unfold pixel_shift. rewrite Hcast. cbn. rewrite Hcur, Hset. reflexivity. }
  destruct (shift_spec db' self _ (60 # 1, 0)%Q (50, 0) (-1000, 0)
              Hwf Hcast Hps)
    as (self2 & Es & Hset2 & Hwarm2 & Hcur2 & Hg2 & Hdem & Hkeep & Hc).
  exists self2. split_and!; try assumption.
  - unfold update_high_res_dem. rewrite Hcast. cbn. rewrite Hwarm. cbn.
    rewrite Hcur. case_decide as Hne; [| discriminate Hne].
    rewrite Es. reflexivity.
  - intros x y l Hx Hy Hl Hterrain.
    destruct Hwf as (Hm & Ht & Hv). rewrite Hset, Hcur in Hm.
    assert (Hin : (x - 1, y) ∈ grid_cells (num_blocks (settings self))).
    { rewrite Hset. apply elem_of_grid_cells. cbn. lia. }
    destruct (Hc _ Hin) as (l' & Hl' & Hcase).
    rewrite Hset in Hl', Hcase.
    assert (Hom : map_grid_block2coords self
                  !! abs_of (scenario_cfg n gc) (50, 0) (x - 1, y)
                  = Some (x * 50, y * 50)).
    { apply Hm. exists (x, y). split; [apply elem_of_grid_cells; cbn; lia |].
      unfold abs_of, rel_of. cbn. split; f_equal; lia. }
    rewrite Hom, Hl in Hcase. injection Hcase as <-.
    split; [exact Hl' |].
    pose proof (Hv _ _ Hl) as Hlt.
    destruct (lookup_lt_is_Some_2 (blocks self) l Hlt) as [b Hb].
    destruct (Hkeep l b Hb) as (b' & Hb' & Hflags).
    rewrite (deref_lookup _ _ _ Hb) in Hterrain.
    rewrite (deref_lookup _ _ _ Hb').
    unfold data_flags in Hflags. congruence.
Qed.

Lemma demo_center_warmed : warmed_at_origin 0 false no_db demo_center.
Proof.
  exists demo_init, demo_warm.
  split; [exact demo_init_eq |]. split; [exact demo_warm_eq |].
  apply (collected_step [] [((0, 0), ramp)] demo_warm demo_warm demo_center).
  - apply collected_refl.
  - exact demo_center_eq.
Qed.

Lemma update_across_one_block_witness :
  0 <= 0
  /\ warmed_at_origin 0 false no_db demo_center
  /\ exists self2,
       update_high_res_dem no_db demo_center (60 # 1, 0)%Q = Ok (true, self2)
       /\ shift no_db demo_center (60 # 1, 0)%Q = Ok self2
       /\ pixel_shift demo_center (60 # 1, 0)%Q = Ok (-1000, 0)
       /\ shift_dem (high_res_dem demo_center) (-1000, 0)
          = Ok (high_res_dem self2)
       /\ current_block_coord self2 = (50, 0)
       /\ forall x y l,
            - 0 <= x <= 0 -> - 0 <= y <= 0 ->
            block_grid_tracker demo_center !! (x * 50, y * 50) = Some l ->
            has_terrain_data (deref (blocks demo_center) l) = true ->
            block_grid_tracker self2 !! ((x - 1) * 50, y * 50) = Some l
            /\ has_terrain_data (deref (blocks self2) l) = true.
Proof.
  assert (Hn : 0 <= 0) by lia.
  split; [exact Hn |]. split; [exact demo_center_warmed |].
  apply (proj2 (update_across_one_block 0 false no_db no_db Hn) demo_center).
  exact demo_center_warmed.
Defined.

(** C8, counterexample. In the scenario the second update shifts the
    buffer by [(-1000, 0)] pixels, the distance between the two block
    coordinates, and not by [-60 / 0.05 = -1200]: the sample at
    [(0, 1000)] after the shift is the one that was at [(1000, 1000)], not
    the one that was at [(1200, 1000)]. *)
Lemma update_shifts_by_block_distance :
  warmed_at_origin 0 false no_db demo_center
  /\ claimed_pixel_delta = (-1200, 0)
  /\ pixel_shift demo_center (60 # 1, 0)%Q = Ok (-1000, 0)
  /\ Np.cell (high_res_dem demo_shifted) 0 1000
     = Np.cell (high_res_dem demo_center) 1000 1000
  /\ Np.cell (high_res_dem demo_center) 1000 1000 = 1 # 1
  /\ Np.cell (high_res_dem demo_center) 1200 1000 = 201 # 1
  /\ ~ update_shifts_by no_db demo_center (60 # 1, 0)%Q claimed_pixel_delta.
Proof.
  assert (Hps : pixel_shift demo_center (60 # 1, 0)%Q = Ok (-1000, 0))
    by (vm_compute; reflexivity).
  assert (Hcl : claimed_pixel_delta = (-1200, 0)) by (vm_compute; reflexivity).
  split; [exact demo_center_warmed |].
  split; [exact Hcl |]. split; [exact Hps |].
  split; [vm_compute; reflexivity |].
  split; [vm_compute; reflexivity |].
  split; [vm_compute; reflexivity |].
  intros (self2 & _ & Hp & _). rewrite Hps, Hcl in Hp. discriminate Hp.
Qed.

(** ** Further lemmas *)

Lemma py_int_inject_Z k : py_int (inject_Z k) = k.
Proof. unfold py_int; simpl. apply Z.quot_1_r. Qed.

Lemma inject_Z_nonzero k : k <> 0 -> ~ (inject_Z k == 0)%Q.
Proof. intros Hk E. unfold Qeq in E; simpl in E. lia. Qed.

Lemma py_floordiv_nonzero (a b : Q) :
  ~ (b == 0)%Q -> py_floordiv a b = Ok (inject_Z (Qfloor (a / b)%Q)).
Proof.
  intros Hb. unfold py_floordiv.
  destruct (Qeq_bool b 0) eqn:E; [| reflexivity].
  apply Qeq_bool_eq in E. contradiction.
Qed.

Lemma py_floordiv_zero (a b : Q) :
  (b == 0)%Q -> py_floordiv a b = Raise ZeroDivisionError.
Proof.
  intros Hb. unfold py_floordiv. by rewrite (Qeq_eq_bool _ _ Hb).
Qed.

Lemma cast_axis_floor cfg x :
  block_size cfg <> 0 ->
  cast_axis cfg x
  = Ok (Qfloor (x / inject_Z (block_size cfg)) * block_size cfg).
Proof.
  intros Hbs. unfold cast_axis.
  rewrite py_floordiv_nonzero by by apply inject_Z_nonzero.
  simpl. by rewrite py_int_inject_Z.
Qed.

Lemma cast_axis_Ok_inv cfg x b :
  cast_axis cfg x = Ok b ->
  block_size cfg <> 0
  /\ b = Qfloor (x / inject_Z (block_size cfg)) * block_size cfg.
Proof.
  intros H. assert (Hbs : block_size cfg <> 0).
  { intros E. unfold cast_axis in H.
    rewrite py_floordiv_zero in H; [discriminate H |].
    rewrite E. reflexivity. }
  split; [exact Hbs |]. rewrite cast_axis_floor in H by exact Hbs.
  apply Ok_inj in H. congruence.
Qed.

(** The floor of [x / bs] is the only [k] with [k * bs <= x < k * bs + bs]. *)
Lemma floor_div_bounds (x : Q) (bs k : Z) :
  0 < bs ->
  (Qfloor (x / inject_Z bs) = k
   <-> (inject_Z (k * bs) <= x)%Q /\ (x < inject_Z (k * bs + bs))%Q).
Proof.
  intros Hbs.
  assert (Hpos : (0 < inject_Z bs)%Q).
  { change (inject_Z 0 < inject_Z bs)%Q. by rewrite <- Zlt_Qlt. }
  assert (Hne : ~ (inject_Z bs == 0)%Q) by (apply inject_Z_nonzero; lia).
  assert (Hx : (x == x / inject_Z bs * inject_Z bs)%Q) by (field; exact Hne).
  assert (Hk : forall j, (inject_Z (j * bs) == inject_Z j * inject_Z bs)%Q)
    by (intros j; rewrite inject_Z_mult; reflexivity).
  assert (Hk1 : (inject_Z (k * bs + bs) == inject_Z (k + 1) * inject_Z bs)%Q).
  { replace (k * bs + bs) with ((k + 1) * bs) by ring.
    rewrite inject_Z_mult. reflexivity. }
  split.
  - intros <-. split.
    + rewrite Hk. rewrite Hx at 2.
      apply Qmult_le_compat_r; [apply Qfloor_le | by apply Qlt_le_weak].
    + rewrite Hk1. rewrite Hx at 1.
      apply Qmult_lt_compat_r; [exact Hpos | apply Qlt_floor].
  - intros [Hlo Hhi].
    rewrite Hk in Hlo. rewrite Hk1 in Hhi.
    rewrite Hx in Hlo at 1. rewrite Hx in Hhi at 1.
    apply Qmult_le_r in Hlo; [| exact Hpos].
    apply Qmult_lt_r in Hhi; [| exact Hpos].
    assert (H1 : k <= Qfloor (x / inject_Z bs)).
    { rewrite <- (Qfloor_Z k). by apply Qfloor_resp_le. }
    assert (H2 : Qfloor (x / inject_Z bs) < k + 1).
    { rewrite Zlt_Qlt. eapply Qle_lt_trans; [apply Qfloor_le | exact Hhi]. }
    lia.
Qed.

Lemma cast_contains (self : HighResDEMGen) (p : Q * Q) :
  0 < block_size (settings self) ->
  exists c,
    cast_coordinates_to_block_space self p = Ok c
    /\ on_lattice (settings self) c
    /\ block_contains (settings self) c p.
Proof.
  intros Hbs. set (cfg := settings self).
  set (kx := Qfloor (p.1 / inject_Z (block_size cfg))).
  set (ky := Qfloor (p.2 / inject_Z (block_size cfg))).
  exists (rel_of cfg (kx, ky)). split_and!.
  - unfold cast_coordinates_to_block_space. fold cfg.
    rewrite !cast_axis_floor by (unfold cfg; lia). reflexivity.
  - by exists kx, ky.
  - split; unfold axis_contains; simpl;
      by apply (floor_div_bounds _ (block_size cfg)).
Qed.

Lemma cast_unique (self : HighResDEMGen) (p : Q * Q) (c : coord) :
  0 < block_size (settings self) ->
  on_lattice (settings self) c ->
  block_contains (settings self) c p ->
  cast_coordinates_to_block_space self p = Ok c.
Proof.
  intros Hbs (kx & ky & ->) [[Hx1 Hx2] [Hy1 Hy2]]. simpl in *.
  unfold cast_coordinates_to_block_space.
  rewrite !cast_axis_floor by lia. cbn. unfold rel_of; simpl.
  do 2 f_equal; f_equal; by apply (floor_div_bounds _ _ _ Hbs).
Qed.

(** X1: for a positive block size and a position, both of magnitude below
    2^53, cast_coordinates_to_block_space returns the corner of the one
    block of the lattice that contains the position. *)
Theorem cast_block_contains_position (self : HighResDEMGen) (p : Q * Q) :
  0 < block_size (settings self) < 2 ^ 53 ->
  exact_range p.1 ->
  exact_range p.2 ->
  exists c,
    cast_coordinates_to_block_space self p = Ok c
    /\ on_lattice (settings self) c
    /\ block_contains (settings self) c p
    /\ forall c', on_lattice (settings self) c' ->
         block_contains (settings self) c' p -> c' = c.
Proof.
  intros [Hbs _] _ _.
  destruct (cast_contains self p Hbs) as (c & E & Hl & Hc).
  exists c. split_and!; try assumption.
  intros c' Hl' Hc'. pose proof (cast_unique self p c' Hbs Hl' Hc') as E'.
  rewrite E in E'. apply Ok_inj in E'. congruence.
Qed.

Lemma cast_axis_lattice cfg k :
  block_size cfg <> 0 ->
  cast_axis cfg (inject_Z (k * block_size cfg)) = Ok (k * block_size cfg).
Proof.
  intros Hbs. rewrite cast_axis_floor by exact Hbs.
  do 2 f_equal.
  assert (E : (inject_Z (k * block_size cfg) / inject_Z (block_size cfg)
               == inject_Z k)%Q).
  { rewrite inject_Z_mult. field. by apply inject_Z_nonzero. }
  rewrite (Qfloor_comp _ _ E). apply Qfloor_Z.
Qed.

Lemma cast_lattice self c :
  block_size (settings self) <> 0 ->
  on_lattice (settings self) c ->
  cast_coordinates_to_block_space self (inject_coord c) = Ok c.
Proof.
  intros Hbs (kx & ky & ->). unfold cast_coordinates_to_block_space.
  unfold inject_coord, rel_of; simpl.
  rewrite !cast_axis_lattice by exact Hbs. reflexivity.
Qed.

Lemma cast_Ok_inv self p c :
  cast_coordinates_to_block_space self p = Ok c ->
  block_size (settings self) <> 0 /\ on_lattice (settings self) c.
Proof.
  unfold cast_coordinates_to_block_space. intros H.
  apply bind_Ok_inv in H as (x & Hx & H).
  apply bind_Ok_inv in H as (y & Hy & H).
  apply Ok_inj in H. subst c.
  apply cast_axis_Ok_inv in Hx as [Hbs ->].
  apply cast_axis_Ok_inv in Hy as [_ ->].
  split; [exact Hbs |]. eexists _, _. reflexivity.
Qed.

(** X2: cast_coordinates_to_block_space is idempotent: the block
    coordinate it returns is cast to itself. *)
Theorem cast_idempotent (self : HighResDEMGen) (p : Q * Q) (c : coord) :
  cast_coordinates_to_block_space self p = Ok c ->
  cast_coordinates_to_block_space self (inject_coord c) = Ok c.
Proof.
  intros H. apply cast_Ok_inv in H as [Hbs Hl]. by apply cast_lattice.
Qed.

Lemma shift_Ok_inv db self coordinates self' :
  wf self ->
  shift db self coordinates = Ok self' ->
  exists nb ps h nt nm dem,
    cast_coordinates_to_block_space self coordinates = Ok nb
    /\ pixel_shift self coordinates = Ok ps
    /\ shift_block_grid self nb = Ok (with_grid self h nt nm)
    /\ shift_dem (high_res_dem self) ps = Ok dem
    /\ grid_at (shifted_to self h nt nm dem nb) nb
    /\ (length (blocks self) <= length h)%nat
    /\ keeps readiness (blocks self) h
    /\ (forall l, (length (blocks self) <= l < length h)%nat ->
          h !! l = Some (empty_state (settings self)))
    /\ (forall xy, xy ∈ grid_cells (num_blocks (settings self)) ->
          carried self nb h nt xy)
    /\ if generate_craters (settings self)
       then exists h',
           generate_craters_metadata db (shifted_to self h nt nm dem nb)
           = Ok (with_blocks (shifted_to self h nt nm dem nb) h')
           /\ length h' = length h
           /\ keeps data_flags h h'
           /\ self' = with_blocks (shifted_to self h nt nm dem nb) h'
       else self' = shifted_to self h nt nm dem nb.
Proof.
  intros Hwf H. unfold shift in H.
  apply bind_Ok_inv in H as (nb & Hcast & H).
  apply bind_Ok_inv in H as (ps & Hps & H).
  apply bind_Ok_inv in H as (self1 & H1 & H).
  apply bind_Ok_inv in H as (dem & Hdem & H).
  apply bind_Ok_inv in H as (self3 & H3 & H).
  apply bind_Ok_inv in H as (sent & _ & H).
  apply Ok_inj in H. subst self3.
  destruct (shift_block_grid_spec self _ nb Hwf)
    as (h & nt & nm & E & Hg1 & Hlen & Hkeep & Hnew & Hc).
  rewrite E in H1. apply Ok_inj in H1. subst self1.
  exists nb, ps, h, nt, nm, dem. split_and!; try assumption.
  cbn in H3. destruct (generate_craters (settings self)).
  - destruct (generate_craters_metadata_spec db
                (shifted_to self h nt nm dem nb) nb Hg1)
      as (h' & E' & Hlen' & Hk').
    exists h'. split_and!; [exact E' | exact Hlen' | exact Hk' |].
    unfold shifted_to in E'. rewrite E' in H3. apply Ok_inj in H3.
    by subst self'.
  - apply Ok_inj in H3. by subst self'.
Qed.

(** Induction over the reachable states, with the well-formed grid at hand:
    a property that holds after construction and is kept by [shift], by
    setting the warm flag and by one step of the collection loops holds in
    every reachable state. *)
Lemma reachable_invariant (P : HighResDEMGen -> Prop) :
  (forall cfg self, init cfg = Ok self -> P self) ->
  (forall db self coordinates self',
     wf self -> P self -> shift db self coordinates = Ok self' -> P self') ->
  (forall self w, P self -> P (with_warm self w)) ->
  (forall mark offset r self self',
     collect_mark mark -> wf self -> P self ->
     collect_body mark offset r self = Ok self' -> P self') ->
  forall self, reachable self -> P self.
Proof.
  intros Hinit Hshift Hwarm Hcollect self Hr.
  induction Hr as [cfg self Hi | db self coords u self' Hr IH Hu
                  | db self coords self' Hr IH Hs
                  | cr tr self self' Hr IH Hc].
  - by apply (Hinit cfg).
  - pose proof (reachable_wf _ Hr) as Hwf.
    unfold update_high_res_dem in Hu.
    apply bind_Ok_inv in Hu as (bc & _ & Hu).
    apply bind_Ok_inv in Hu as ([u1 self1] & H1 & Hu).
    assert (H1' : wf self1 /\ P self1).
    { destruct (sim_is_warm self); cbn in H1.
      - apply Ok_inj in H1. injection H1 as <- <-. by split.
      - apply bind_Ok_inv in H1 as (s & Hs & H1).
        apply Ok_inj in H1. injection H1 as <- <-. split.
        + apply with_warm_wf. by apply (shift_wf db self _ s Hwf Hs).
        + apply Hwarm. by apply (Hshift db self _ s Hwf IH Hs). }
    destruct H1' as [Hwf1 HP1].
    case_decide.
    + apply bind_Ok_inv in Hu as (s & Hs & Hu).
      apply Ok_inj in Hu. injection Hu as <- <-.
      by apply (Hshift db self1 coords s Hwf1 HP1 Hs).
    + apply Ok_inj in Hu. by injection Hu as <- <-.
  - by apply (Hshift db self coords self' (reachable_wf _ Hr) IH Hs).
  - pose proof (reachable_wf _ Hr) as Hwf.
    unfold collect_terrain_data in Hc.
    apply bind_Ok_inv in Hc as (q & _ & Hc).
    apply bind_Ok_inv in Hc as (self1 & H1 & Hc).
    assert (Hstep : forall mark offset, collect_mark mark ->
              forall a s s1, wf s /\ P s ->
                collect_body mark offset a s = Ok s1 -> wf s1 /\ P s1).
    { intros mark offset Hmark a s s1 [Hs HPs] Hb. split.
      - by apply (collect_body_wf _ _ _ _ _ Hs Hb).
      - by apply (Hcollect mark offset a s s1). }
    assert (H1' : wf self1 /\ P self1).
    { revert H1.
      apply (for_each_preserves _ (fun s => wf s /\ P s)); [by split |].
      apply Hstep. by left. }
    assert (H2' : wf self' /\ P self').
    { revert Hc.
      apply (for_each_preserves _ (fun s => wf s /\ P s)); [exact H1' |].
      apply Hstep. by right. }
    apply H2'.
Qed.

Lemma init_Ok_inv cfg self :
  init cfg = Ok self ->
  exists h t m side,
    build_block_grid (blank cfg) = Ok (with_grid (blank cfg) h t m)
    /\ dem_side cfg = Ok side /\ 0 <= side
    /\ self = with_dem (with_grid (blank cfg) h t m) (Np.const side side 0%Q).
Proof.
  unfold init. intros H.
  apply bind_Ok_inv in H as (self1 & E1 & E2).
  destruct (build_block_grid_spec (blank cfg)) as (h & t & m & E & _).
  rewrite E in E1. apply Ok_inj in E1. subst self1.
  unfold instantiate_high_res_dem in E2.
  apply bind_Ok_inv in E2 as (side & Hside & E2).
  apply bind_Ok_inv in E2 as (dem & Hdem & E2).
  apply Ok_inj in E2. subst self.
  unfold Np.zeros in Hdem.
  destruct (Z.ltb_spec side 0); [discriminate Hdem |]. cbn in Hdem.
  apply Ok_inj in Hdem. subst dem.
  exists h, t, m, side. by split_and!.
Qed.

Lemma init_frame cfg self :
  init cfg = Ok self ->
  settings self = cfg /\ current_block_coord self = (0, 0)
  /\ sim_is_warm self = false.
Proof.
  intros H. apply init_Ok_inv in H as (h & t & m & side & _ & _ & _ & ->).
  by split_and!.
Qed.

Lemma shift_frame db self coordinates self' :
  wf self -> shift db self coordinates = Ok self' ->
  settings self' = settings self
  /\ sim_is_warm self' = sim_is_warm self
  /\ cast_coordinates_to_block_space self coordinates
     = Ok (current_block_coord self').
Proof.
  intros Hwf H.
  destruct (shift_Ok_inv db self coordinates self' Hwf H)
    as (nb & ps & h & nt & nm & dem & Hcast & _ & _ & _ & _ & _ & _ & _ & _
        & Hself').
  destruct (generate_craters (settings self)).
  - destruct Hself' as (h' & _ & _ & _ & ->). by split_and!.
  - subst self'. by split_and!.
Qed.

(** ** The current block coordinate stays on the lattice *)

Lemma reachable_on_lattice self :
  reachable self -> on_lattice (settings self) (current_block_coord self).
Proof.
  revert self.
  apply (reachable_invariant
           (fun s => on_lattice (settings s) (current_block_coord s))).
  - intros cfg self H. apply init_frame in H as (-> & -> & _).
    by exists 0, 0.
  - intros db self coordinates self' Hwf _ H.
    apply (shift_frame db self coordinates self' Hwf) in H as (-> & _ & H).
    by apply cast_Ok_inv in H as [_ H].
  - intros self w H. exact H.
  - intros mark offset r self self' _ Hwf HP H.
    apply (collect_body_wf _ _ _ _ _ Hwf) in H as (_ & (-> & -> & _) & _).
    exact HP.
Qed.

(** ** Distinct slots, distinct objects *)

Lemma map_built_inj (cfg : HighResDEMCfg) (c : coord) (done : list (Z * Z))
    (m : gmap coord coord) (k k' rc : coord) :
  map_built cfg c done m ->
  m !! k = Some rc -> m !! k' = Some rc -> k = k'.
Proof.
  intros Hm H H'.
  apply Hm in H as (xy & _ & -> & ->).
  apply Hm in H' as (xy' & _ & -> & E).
  by apply rel_of_abs_of.
Qed.

Lemma shift_inj_step self c0 c xy acc acc' :
  grid_at self c0 ->
  tracker_inj (block_grid_tracker self) ->
  shift_inj_inv self c acc ->
  shift_block_grid_body self c xy acc = Ok acc' ->
  shift_inj_inv self c acc'.
Proof.
  intros Hg Hinj. destruct acc as [[h nt] nm].
  intros (Hlen & Hv & Hi & Hprov) H.
  unfold shift_block_grid_body in H. cbv zeta in H.
  destruct (map_grid_block2coords self !! abs_of (settings self) c xy)
    as [rc |] eqn:Hom.
  - apply bind_Ok_inv in H as ([l h1] & H1 & H).
    apply bind_Ok_inv in H1 as (l1 & Hl & H1).
    apply Ok_inj in H1. injection H1 as -> ->.
    apply bind_Ok_inv in H as (lp & _ & H).
    apply Ok_inj in H. subst acc'.
    unfold dict_get in Hl.
    destruct (block_grid_tracker self !! rc) as [l' |] eqn:Hl';
      [| discriminate Hl].
    apply Ok_inj in Hl. subst l'.
    assert (Hold : (l < length (blocks self))%nat).
    { destruct Hg as (_ & _ & Hvalid). by apply (Hvalid rc). }
    assert (Hclash : forall k', nt !! k' = Some l ->
              k' = rel_of (settings self) xy).
    { intros k' Hk'.
      destruct (Hprov k' l Hk' Hold) as (xy0 & rc0 & -> & Hm0 & Ht0).
      assert (rc0 = rc) by (by apply (Hinj rc0 rc l)). subst rc0.
      apply (abs_of_rel_of_inj (settings self) c).
      destruct Hg as (Hm & _).
      by apply (map_built_inj _ _ _ _ _ _ rc Hm). }
    split_and!.
    + by rewrite length_assign.
    + intros k l0 Hk. rewrite length_assign.
      destruct (decide (k = rel_of (settings self) xy)) as [-> | Hne].
      * rewrite lookup_insert_eq in Hk. injection Hk as <-. lia.
      * rewrite lookup_insert_ne in Hk by done. by apply (Hv k).
    + intros k k' l0 Hk Hk'.
      destruct (decide (k = rel_of (settings self) xy)) as [-> | Hne];
        destruct (decide (k' = rel_of (settings self) xy)) as [-> | Hne'].
      * reflexivity.
      * rewrite lookup_insert_eq in Hk. injection Hk as <-.
        rewrite lookup_insert_ne in Hk' by done.
        symmetry. by apply Hclash.
      * rewrite lookup_insert_eq in Hk'. injection Hk' as <-.
        rewrite lookup_insert_ne in Hk by done.
        by apply Hclash.
      * rewrite lookup_insert_ne in Hk by done.
        rewrite lookup_insert_ne in Hk' by done.
        by apply (Hi k k' l0).
    + intros k l0 Hk Hl0.
      destruct (decide (k = rel_of (settings self) xy)) as [-> | Hne].
      * rewrite lookup_insert_eq in Hk. injection Hk as <-.
        by exists xy, rc.
      * rewrite lookup_insert_ne in Hk by done. by apply Hprov.
  - cbn in H.
    apply bind_Ok_inv in H as (lp & _ & H).
    apply Ok_inj in H. subst acc'.
    split_and!.
    + rewrite length_assign, length_app. lia.
    + intros k l0 Hk. rewrite length_assign, length_app. simpl.
      destruct (decide (k = rel_of (settings self) xy)) as [-> | Hne].
      * rewrite lookup_insert_eq in Hk. injection Hk as <-. lia.
      * rewrite lookup_insert_ne in Hk by done.
        specialize (Hv k l0 Hk). lia.
    + intros k k' l0 Hk Hk'.
      destruct (decide (k = rel_of (settings self) xy)) as [-> | Hne];
        destruct (decide (k' = rel_of (settings self) xy)) as [-> | Hne'].
      * reflexivity.
      * rewrite lookup_insert_eq in Hk. injection Hk as <-.
        rewrite lookup_insert_ne in Hk' by done.
        specialize (Hv k' _ Hk'). lia.
      * rewrite lookup_insert_eq in Hk'. injection Hk' as <-.
        rewrite lookup_insert_ne in Hk by done.
        specialize (Hv k _ Hk). lia.
      * rewrite lookup_insert_ne in Hk by done.
        rewrite lookup_insert_ne in Hk' by done.
        by apply (Hi k k' l0).
    + intros k l0 Hk Hl0.
      destruct (decide (k = rel_of (settings self) xy)) as [-> | Hne].
      * rewrite lookup_insert_eq in Hk. injection Hk as <-. lia.
      * rewrite lookup_insert_ne in Hk by done. by apply Hprov.
Qed.

Lemma shift_block_grid_inj self c0 c self' :
  grid_at self c0 ->
  tracker_inj (block_grid_tracker self) ->
  shift_block_grid self c = Ok self' ->
  tracker_inj (block_grid_tracker self').
Proof.
  intros Hg Hinj H. unfold shift_block_grid in H.
  apply bind_Ok_inv in H as ([[h nt] nm] & H & E).
  apply Ok_inj in E. subst self'. cbn.
  assert (Hfin : shift_inj_inv self c (h, nt, nm)).
  { revert H. apply (for_each_preserves _ (shift_inj_inv self c)).
    - split_and!; [lia | | |]; intros k; intros; by rewrite lookup_empty in *.
    - intros a s s1 Hs Hb. by apply (shift_inj_step self c0 c a s s1). }
  apply Hfin.
Qed.

Lemma build_inj_step cfg c xy acc acc' :
  build_inj_inv acc ->
  build_block_grid_body cfg c xy acc = Ok acc' ->
  build_inj_inv acc'.
Proof.
  destruct acc as [[h t] m]. intros [Hv Hi] H.
  unfold build_block_grid_body in H. cbn in H.
  apply bind_Ok_inv in H as (lp & _ & H).
  apply Ok_inj in H. subst acc'. split.
  - intros k l0 Hk. rewrite length_assign, length_app. simpl.
    destruct (decide (k = rel_of cfg xy)) as [-> | Hne].
    + rewrite lookup_insert_eq in Hk. injection Hk as <-. lia.
    + rewrite lookup_insert_ne in Hk by done.
      specialize (Hv k l0 Hk). lia.
  - intros k k' l0 Hk Hk'.
    destruct (decide (k = rel_of cfg xy)) as [-> | Hne];
      destruct (decide (k' = rel_of cfg xy)) as [-> | Hne'].
    + reflexivity.
    + rewrite lookup_insert_eq in Hk. injection Hk as <-.
      rewrite lookup_insert_ne in Hk' by done.
      specialize (Hv k' _ Hk'). lia.
    + rewrite lookup_insert_eq in Hk'. injection Hk' as <-.
      rewrite lookup_insert_ne in Hk by done.
      specialize (Hv k _ Hk). lia.
    + rewrite lookup_insert_ne in Hk by done.
      rewrite lookup_insert_ne in Hk' by done.
      by apply (Hi k k' l0).
Qed.

Lemma build_block_grid_inj self self' :
  build_block_grid self = Ok self' ->
  tracker_inj (block_grid_tracker self').
Proof.
  intros H. unfold build_block_grid in H.
  apply bind_Ok_inv in H as ([[h t] m] & H & E).
  apply Ok_inj in E. subst self'. cbn.
  assert (Hfin : build_inj_inv (h, t, m)).
  { revert H. apply (for_each_preserves _ build_inj_inv).
    - split; intros k; intros; by rewrite lookup_empty in *.
    - intros a s s1 Hs Hb.
      by apply (build_inj_step _ _ a s s1 Hs Hb). }
  apply Hfin.
Qed.

Lemma reachable_tracker_inj self :
  reachable self -> tracker_inj (block_grid_tracker self).
Proof.
  revert self.
  apply (reachable_invariant (fun s => tracker_inj (block_grid_tracker s))).
  - intros cfg self H.
    apply init_Ok_inv in H as (h & t & m & side & Hb & _ & _ & ->).
    by apply build_block_grid_inj in Hb.
  - intros db self coordinates self' Hwf HP H.
    destruct (shift_Ok_inv db self coordinates self' Hwf H)
      as (nb & ps & h & nt & nm & dem & _ & _ & Hg & _ & _ & _ & _ & _ & _
          & Hself').
    apply (shift_block_grid_inj self _ nb _ Hwf HP) in Hg. cbn in Hg.
    destruct (generate_craters (settings self)).
    + destruct Hself' as (h' & _ & _ & _ & ->). exact Hg.
    + subst self'. exact Hg.
  - intros self w H. exact H.
  - intros mark offset r self self' _ Hwf HP H.
    apply (collect_body_wf _ _ _ _ _ Hwf) in H as (_ & _ & -> & _).
    exact HP.
Qed.

(** ** Updates *)

Lemma pixel_shift_total self coordinates nb :
  cast_coordinates_to_block_space self coordinates = Ok nb ->
  ~ (resolution (settings self) == 0)%Q ->
  pixel_shift self coordinates
  = Ok (- py_int (inject_Z (nb.1 - (current_block_coord self).1)
                  / resolution (settings self)),
        - py_int (inject_Z (nb.2 - (current_block_coord self).2)
                  / resolution (settings self))).
Proof.
  intros Hcast Hres. unfold pixel_shift. rewrite Hcast. cbn.
  rewrite !py_div_nonzero by exact Hres. reflexivity.
Qed.

(** [shift] looks at the position only through its block. *)
Lemma shift_ext db self p p' :
  cast_coordinates_to_block_space self p
  = cast_coordinates_to_block_space self p' ->
  shift db self p = shift db self p'.
Proof. intros E. unfold shift, pixel_shift. by rewrite E. Qed.

Lemma shift_total db self coordinates :
  wf self -> buffer_ok self -> block_size (settings self) <> 0 ->
  exists nb self',
    cast_coordinates_to_block_space self coordinates = Ok nb
    /\ shift db self coordinates = Ok self'
    /\ settings self' = settings self
    /\ sim_is_warm self' = sim_is_warm self
    /\ current_block_coord self' = nb.
Proof.
  intros Hwf (Hres & _) Hbs.
  assert (Hcast : exists nb,
            cast_coordinates_to_block_space self coordinates = Ok nb).
  { unfold cast_coordinates_to_block_space.
    rewrite !cast_axis_floor by exact Hbs. by eexists. }
  destruct Hcast as [nb Hcast].
  pose proof (pixel_shift_total self coordinates nb Hcast Hres) as Hps.
  destruct (shift_spec db self _ coordinates nb _ Hwf Hcast Hps)
    as (self' & E & Hset & Hwarm & Hcur & _).
  by exists nb, self'.
Qed.

Lemma with_warm_id self : sim_is_warm self = true -> with_warm self true = self.
Proof. destruct self. cbn. by intros ->. Qed.

Lemma update_one_shift db self coords :
  wf self -> buffer_ok self -> block_size (settings self) <> 0 ->
  exists c,
    cast_coordinates_to_block_space self coords = Ok c
    /\ if sim_is_warm self && bool_decide (current_block_coord self = c)
       then update_high_res_dem db self coords = Ok (false, self)
       else exists s,
           shift db self coords = Ok s
           /\ current_block_coord s = c
           /\ update_high_res_dem db self coords = Ok (true, with_warm s true).
Proof.
  intros Hwf Hbuf Hbs.
  destruct (shift_total db self coords Hwf Hbuf Hbs)
    as (c & s & Hcast & Hs & Hset & Hwarm & Hcur).
  exists c. split; [exact Hcast |].
  unfold update_high_res_dem. rewrite Hcast. cbn.
  destruct (sim_is_warm self) eqn:Hw; cbn.
  - case_bool_decide as Hc.
    + rewrite decide_False by (intros Hne; by apply Hne).
      reflexivity.
    + rewrite decide_True by done.
      rewrite Hs. cbn. exists s. split_and!; [done | done |].
      by rewrite with_warm_id by congruence.
  - assert (Hs' : shift db self (inject_coord c) = Ok s).
    { rewrite <- Hs. apply shift_ext. rewrite Hcast.
      apply cast_lattice; [exact Hbs |].
      by apply (cast_Ok_inv self coords). }
    rewrite Hs'. cbn.
    rewrite decide_False by (intros Hne; by apply Hne).
    by exists s.
Qed.

Lemma zero_div_zero (r : Q) : py_int (0 / r) = 0.
Proof.
  rewrite (py_int_comp (0 / r) 0); [reflexivity |].
  unfold Qdiv. apply Qmult_0_l.
Qed.

Lemma init_total cfg side :
  dem_side cfg = Ok side -> 0 <= side ->
  exists self, init cfg = Ok self.
Proof.
  intros Hside Hpos.
  destruct (init_spec cfg side Hside Hpos) as (self & E & _).
  by exists self.
Qed.

Lemma dem_side_nonzero cfg :
  ~ (resolution cfg == 0)%Q ->
  dem_side cfg
  = Ok (py_int (inject_Z ((num_blocks cfg * 2 + 3) * block_size cfg)
                / resolution cfg)).
Proof.
  intros Hres. unfold dem_side. by rewrite py_div_nonzero by exact Hres.
Qed.

(** ** Loops that returned *)

Lemma for_each_trace {A S} (body : A -> S -> result S)
    (P : list A -> S -> Prop) (l : list A) (s0 s' : S) :
  P [] s0 ->
  (forall done a s s1, P done s -> a ∈ l -> body a s = Ok s1 ->
     P (done ++ [a]) s1) ->
  for_each body l s0 = Ok s' -> P l s'.
Proof.
  intros H0 Hstep.
  assert (G : forall rest done s,
            done ++ rest = l -> P done s ->
            for_each body rest s = Ok s' -> P l s').
  { induction rest as [| a rest IH]; intros done s Hl Hs H.
    - rewrite app_nil_r in Hl. subst done. simpl in H.
      apply Ok_inj in H. by subst s'.
    - simpl in H. destruct (body a s) as [e | s1] eqn:E; [discriminate H |].
      apply (IH (done ++ [a]) s1).
      + by rewrite <- app_assoc.
      + apply (Hstep done a s s1 Hs); [| exact E].
        rewrite <- Hl. apply elem_of_app. right. by left.
      + exact H. }
  by apply (G l [] s0).
Qed.

(** ** The store under the grid loops *)

Lemma Forall_assign (Q : BlockState -> Prop) f l (h : list BlockState) :
  (forall b, Q b -> Q (f b)) -> Forall Q h -> Forall Q (assign f l h).
Proof.
  intros Hf Hh. unfold assign. apply Forall_lookup. intros i b Hb.
  destruct (decide (i = l)) as [-> | Hne].
  - rewrite list_lookup_alter_eq in Hb.
    destruct (h !! l) as [b0 |] eqn:E; [| discriminate Hb].
    injection Hb as <-. apply Hf.
    by apply (proj1 (Forall_lookup Q h) Hh l).
  - rewrite list_lookup_alter_ne in Hb by done.
    by apply (proj1 (Forall_lookup Q h) Hh i).
Qed.

Lemma build_block_grid_store (Q : BlockState -> Prop) self self' :
  Q (empty_state (settings self)) ->
  (forall v b, Q b -> Q (set_is_padding v b)) ->
  Forall Q (blocks self) ->
  build_block_grid self = Ok self' ->
  Forall Q (blocks self').
Proof.
  intros He Hp H0 H. unfold build_block_grid in H.
  apply bind_Ok_inv in H as ([[h t] m] & H & E).
  apply Ok_inj in E. subst self'. cbn.
  revert H.
  apply (for_each_preserves _
           (fun acc : list BlockState * gmap coord nat * gmap coord coord =>
              Forall Q acc.1.1) _ (blocks self, ∅, ∅) (h, t, m)); [exact H0 |].
  intros xy [[h1 t1] m1] s1 Hs Hb. cbn in Hs.
  unfold build_block_grid_body in Hb. cbn in Hb.
  apply bind_Ok_inv in Hb as (lp & _ & Hb).
  apply Ok_inj in Hb. subst s1. cbn.
  apply Forall_assign; [apply Hp |].
  apply Forall_app. split; [exact Hs |]. by apply Forall_singleton.
Qed.

Lemma shift_block_grid_store (Q : BlockState -> Prop) self c self' :
  Q (empty_state (settings self)) ->
  (forall v b, Q b -> Q (set_is_padding v b)) ->
  Forall Q (blocks self) ->
  shift_block_grid self c = Ok self' ->
  Forall Q (blocks self').
Proof.
  intros He Hp H0 H. unfold shift_block_grid in H.
  apply bind_Ok_inv in H as ([[h t] m] & H & E).
  apply Ok_inj in E. subst self'. cbn.
  revert H.
  apply (for_each_preserves _
           (fun acc : list BlockState * gmap coord nat * gmap coord coord =>
              Forall Q acc.1.1) _ (blocks self, ∅, ∅) (h, t, m)); [exact H0 |].
  intros xy [[h1 t1] m1] s1 Hs Hb. cbn in Hs.
  unfold shift_block_grid_body in Hb. cbv zeta in Hb.
  apply bind_Ok_inv in Hb as ([l h2] & H1 & Hb).
  apply bind_Ok_inv in Hb as (lp & _ & Hb).
  apply Ok_inj in Hb. subst s1. cbn.
  apply Forall_assign; [apply Hp |].
  destruct (map_grid_block2coords self !! abs_of (settings self) c xy).
  - apply bind_Ok_inv in H1 as (l1 & _ & H1).
    apply Ok_inj in H1. by injection H1 as <- <-.
  - apply Ok_inj in H1. injection H1 as <- <-.
    apply Forall_app. split; [exact Hs |]. by apply Forall_singleton.
Qed.

Lemma collect_body_Ok_inv mark offset coords data self self' :
  collect_body mark offset (coords, data) self = Ok self' ->
  exists rel l dem,
    map_grid_block2coords self !! coords = Some rel
    /\ block_grid_tracker self !! rel = Some l
    /\ ~ (resolution (settings self) == 0)%Q
    /\ Np.addslice (high_res_dem self)
         (Np.from_to
            (py_int (inject_Z rel.1 / resolution (settings self)) + offset)
            (py_int (inject_Z (rel.1 + block_size (settings self))
                     / resolution (settings self)) + offset))
         (Np.from_to
            (py_int (inject_Z rel.2 / resolution (settings self)) + offset)
            (py_int (inject_Z (rel.2 + block_size (settings self))
                     / resolution (settings self)) + offset))
         data = Ok dem
    /\ self' = with_blocks (with_dem self dem) (assign mark l (blocks self)).
Proof.
  intros H. unfold collect_body in H.
  apply bind_Ok_inv in H as ([x_c y_c] & Hm & H).
  apply bind_Ok_inv in H as (x0 & Hx0 & H).
  pose proof (py_div_Ok_inv _ _ _ Hx0) as Hres.
  rewrite py_div_nonzero in Hx0 by exact Hres. apply Ok_inj in Hx0.
  apply bind_Ok_inv in H as (x1 & Hx1 & H).
  rewrite py_div_nonzero in Hx1 by exact Hres. apply Ok_inj in Hx1.
  apply bind_Ok_inv in H as (y0 & Hy0 & H).
  rewrite py_div_nonzero in Hy0 by exact Hres. apply Ok_inj in Hy0.
  apply bind_Ok_inv in H as (y1 & Hy1 & H).
  rewrite py_div_nonzero in Hy1 by exact Hres. apply Ok_inj in Hy1.
  apply bind_Ok_inv in H as (dem & Hdem & H).
  apply bind_Ok_inv in H as (l & Hl & H).
  apply Ok_inj in H. subst x0 x1 y0 y1.
  unfold dict_get in Hm, Hl.
  destruct (map_grid_block2coords self !! coords) as [rel |] eqn:Em;
    [| discriminate Hm].
  apply Ok_inj in Hm. subst rel.
  destruct (block_grid_tracker self !! (x_c, y_c)) as [l' |] eqn:El;
    [| discriminate Hl].
  apply Ok_inj in Hl. subst l'.
  exists (x_c, y_c), l, dem. by split_and!.
Qed.

(** ** The flags set by the collection *)

Lemma collect_loop_marked mark offset results self self' :
  (forall b, mark (mark b) = mark b) ->
  for_each (collect_body mark offset) results self = Ok self' ->
  block_grid_tracker self' = block_grid_tracker self
  /\ map_grid_block2coords self' = map_grid_block2coords self
  /\ marked self mark results (blocks self) (blocks self').
Proof.
  intros Hidem.
  apply (for_each_trace (collect_body mark offset)
           (fun done s =>
              block_grid_tracker s = block_grid_tracker self
              /\ map_grid_block2coords s = map_grid_block2coords self
              /\ marked self mark done (blocks self) (blocks s))).
  - split_and!; [done | done |]. split; [done |].
    intros l b Hb. exists b. split_and!; [done | by left |].
    intros (k & d & rel & Hin & _). by apply elem_of_nil in Hin.
  - intros done [k d] s s1 (Ht & Hm & Hlen & Hmk) _ Hb.
    apply collect_body_Ok_inv in Hb
      as (rel & l & dem & Hk & Hl & _ & _ & ->).
    rewrite Hm in Hk. rewrite Ht in Hl.
    split_and!; [exact Ht | exact Hm |]. split.
    { cbn. by rewrite length_assign. }
    intros l0 b Hb0. destruct (Hmk l0 b Hb0) as (b' & Hb' & Hcase & Hcoll).
    assert (Hhit : collected_at self (done ++ [(k, d)]) l).
    { exists k, d, rel. split_and!; [| done | done].
      apply elem_of_app. right. by left. }
    assert (Hmono : collected_at self done l0 ->
                    collected_at self (done ++ [(k, d)]) l0).
    { intros (k' & d' & rel' & Hin & Hk' & Hl').
      exists k', d', rel'. split_and!; [| done | done].
      apply elem_of_app. by left. }
    cbn. destruct (decide (l0 = l)) as [-> | Hne].
    + exists (mark b'). split_and!.
      * unfold assign. rewrite list_lookup_alter_eq, Hb'. reflexivity.
      * right. split; [| exact Hhit].
        destruct Hcase as [-> | [-> _]]; [done | apply Hidem].
      * intros _. destruct Hcase as [-> | [-> _]]; [done | apply Hidem].
    + exists b'. split_and!.
      * rewrite lookup_assign_ne by done. exact Hb'.
      * destruct Hcase as [-> | [-> Hc]]; [by left | right].
        split; [done | by apply Hmono].
      * intros (k' & d' & rel' & Hin & Hk' & Hl').
        apply elem_of_app in Hin as [Hin | Hin].
        -- apply Hcoll. by exists k', d', rel'.
        -- apply list_elem_of_singleton in Hin. injection Hin as -> ->.
           rewrite Hk in Hk'. injection Hk' as <-.
           rewrite Hl in Hl'. injection Hl' as <-. done.
Qed.

Lemma collect_terrain_data_Ok_inv crater_results terrain_results self self' :
  collect_terrain_data crater_results terrain_results self = Ok self' ->
  ~ (resolution (settings self) == 0)%Q
  /\ exists self1,
      let offset :=
        py_int (inject_Z ((num_blocks (settings self) + 1)
                          * block_size (settings self))
                / resolution (settings self)) in
      for_each (collect_body (set_has_crater_data true) offset)
        crater_results self = Ok self1
      /\ for_each (collect_body (set_has_terrain_data true) offset)
           terrain_results self1 = Ok self'.
Proof.
  intros H. unfold collect_terrain_data in H.
  apply bind_Ok_inv in H as (q & Hq & H).
  pose proof (py_div_Ok_inv _ _ _ Hq) as Hres.
  rewrite py_div_nonzero in Hq by exact Hres. apply Ok_inj in Hq. subst q.
  apply bind_Ok_inv in H as (self1 & H1 & H).
  split; [exact Hres |]. by exists self1.
Qed.

Lemma collect_flags crater_results terrain_results self self' :
  collect_terrain_data crater_results terrain_results self = Ok self' ->
  block_grid_tracker self' = block_grid_tracker self
  /\ map_grid_block2coords self' = map_grid_block2coords self
  /\ length (blocks self') = length (blocks self)
  /\ forall l b, blocks self !! l = Some b ->
       exists b', blocks self' !! l = Some b'
         /\ has_crater_metadata b' = has_crater_metadata b
         /\ is_padding b' = is_padding b
         /\ (has_crater_data b' = true
             <-> has_crater_data b = true
                 \/ collected_at self crater_results l)
         /\ (has_terrain_data b' = true
             <-> has_terrain_data b = true
                 \/ collected_at self terrain_results l).
Proof.
  intros H.
  apply collect_terrain_data_Ok_inv in H as (_ & self1 & H1 & H2).
  apply collect_loop_marked in H1 as (T1 & M1 & L1 & K1); [| done].
  apply collect_loop_marked in H2 as (T2 & M2 & L2 & K2); [| done].
  split_and!; [congruence | congruence | congruence |].
  intros l b Hb.
  destruct (K1 l b Hb) as (b1 & Hb1 & C1 & D1).
  destruct (K2 l b1 Hb1) as (b2 & Hb2 & C2 & D2).
  assert (Hsame : forall res, collected_at self1 res l <-> collected_at self res l).
  { intros res. unfold collected_at. by rewrite T1, M1. }
  exists b2. split; [exact Hb2 |].
  split_and!.
  - destruct C2 as [-> | [-> _]]; destruct C1 as [-> | [-> _]]; done.
  - destruct C2 as [-> | [-> _]]; destruct C1 as [-> | [-> _]]; done.
  - split.
    + intros Hf. destruct C1 as [-> | [-> Hc]]; [| by right].
      left. by destruct C2 as [-> | [-> _]].
    + intros [Hf | Hc].
      * destruct C2 as [-> | [-> _]]; destruct C1 as [-> | [-> _]];
          cbn; done.
      * rewrite (D1 Hc) in C2. by destruct C2 as [-> | [-> _]].
  - split.
    + intros Hf. destruct C2 as [-> | [-> Hc]].
      * left. by destruct C1 as [-> | [-> _]].
      * right. by apply Hsame.
    + intros [Hf | Hc].
      * destruct C2 as [-> | [-> _]]; destruct C1 as [-> | [-> _]];
          cbn; done.
      * rewrite (D2 (proj2 (Hsame _) Hc)). done.
Qed.

(** ** Readiness of the map *)

Lemma is_map_done_spec self c :
  grid_at self c ->
  exists b, is_map_done self = Ok b
    /\ (b = true <->
        forall k rel l,
          map_grid_block2coords self !! k = Some rel ->
          block_grid_tracker self !! rel = Some l ->
          ready (deref (blocks self) l) = true).
Proof.
  intros Hg. unfold is_map_done.
  destruct (list_comp_all (block_is_ready self)
              (map_to_list (map_grid_block2coords self)).*2)
    as (bs & E & Hall).
  { intros rel Hin. apply elem_of_map_values in Hin as [k Hk].
    destruct (grid_at_map_in_tracker self c Hg k rel Hk) as [l Hl].
    unfold block_is_ready, dict_get. rewrite Hl. by eexists. }
  rewrite E. exists (forallb id bs). split; [reflexivity |].
  rewrite Hall. split.
  - intros H k rel l Hk Hl.
    assert (Hin : rel ∈ (map_to_list (map_grid_block2coords self)).*2)
      by (apply elem_of_map_values; by exists k).
    specialize (H rel Hin). unfold block_is_ready, dict_get in H.
    rewrite Hl in H. apply Ok_inj in H. exact H.
  - intros H rel Hin. apply elem_of_map_values in Hin as [k Hk].
    destruct (grid_at_map_in_tracker self c Hg k rel Hk) as [l Hl].
    unfold block_is_ready, dict_get. rewrite Hl. cbn.
    by rewrite (H k rel l Hk Hl).
Qed.

(** ** The map is done once every missing result is collected *)

(** X9: once a result has been collected for every block that lacked data,
    the map is done. *)
Theorem collect_completes_map
    (crater_results terrain_results : list (coord * Np.ndarray))
    (self self' : HighResDEMGen) :
  reachable self ->
  collect_terrain_data crater_results terrain_results self = Ok self' ->
  (forall k rel l,
     map_grid_block2coords self !! k = Some rel ->
     block_grid_tracker self !! rel = Some l ->
     has_crater_metadata (deref (blocks self) l) = true
     /\ (has_crater_data (deref (blocks self) l) = true
         \/ k ∈ crater_results.*1)
     /\ (has_terrain_data (deref (blocks self) l) = true
         \/ k ∈ terrain_results.*1)) ->
  is_map_done self' = Ok true.
Proof.
  intros Hr H Hall. pose proof (reachable_wf _ Hr) as Hwf.
  destruct (collect_terrain_data_wf _ _ _ _ Hwf H) as (Hwf' & _ & T & M).
  destruct (collect_flags _ _ _ _ H) as (_ & _ & _ & Hfl).
  destruct (is_map_done_spec self' _ Hwf') as (b & E & Hb).
  rewrite E. f_equal. apply Hb. intros k rel l Hk Hl.
  rewrite M in Hk. rewrite T in Hl.
  destruct (Hall k rel l Hk Hl) as (Hmeta & Hcr & Hte).
  destruct Hwf as (_ & _ & Hv). pose proof (Hv rel l Hl) as Hlt.
  destruct (lookup_lt_is_Some_2 (blocks self) l Hlt) as [b0 Hb0].
  rewrite (deref_lookup _ _ _ Hb0) in Hmeta, Hcr, Hte.
  destruct (Hfl l b0 Hb0) as (b' & Hb' & Fm & _ & Fc & Ft).
  rewrite (deref_lookup _ _ _ Hb'). unfold ready.
  assert (Hin : forall res, k ∈ res.*1 -> collected_at self res l).
  { intros res Hin. apply list_elem_of_fmap in Hin as ([k' d] & -> & Hin).
    by exists k', d, rel. }
  rewrite Fm, Hmeta.
  rewrite (proj2 Fc) by (destruct Hcr; [by left | right; by apply Hin]).
  rewrite (proj2 Ft) by (destruct Hte; [by left | right; by apply Hin]).
  reflexivity.
Qed.

(** ** The map is not done after the window has moved *)

(** A window moved to another block of the lattice holds a cell the old
    window did not hold. *)
Lemma window_moves_out (cfg : HighResDEMCfg) (c0 c : coord)
    (m : gmap coord coord) :
  block_size cfg <> 0 -> -1 <= num_blocks cfg ->
  on_lattice cfg c0 -> on_lattice cfg c -> c <> c0 ->
  map_built cfg c0 (grid_cells (num_blocks cfg)) m ->
  exists xy, xy ∈ grid_cells (num_blocks cfg)
             /\ m !! abs_of cfg c xy = None.
Proof.
  intros Hbs Hn (a0 & b0 & ->) (a & b & ->) Hne Hm.
  set (n := num_blocks cfg) in *.
  set (x := if decide (a0 < a) then n + 1 else - n - 1).
  set (y := if decide (b0 < b) then n + 1 else - n - 1).
  exists (x, y). split.
  - apply elem_of_grid_cells. unfold x, y.
    destruct (decide (a0 < a)); destruct (decide (b0 < b)); lia.
  - destruct (m !! abs_of cfg (rel_of cfg (a, b)) (x, y)) as [v |] eqn:E;
      [| reflexivity].
    exfalso. apply Hm in E as ([x0 y0] & Hin & E & _).
    apply elem_of_grid_cells in Hin. fold n in Hin.
    unfold abs_of, rel_of in E. simpl in E.
    injection E as Ex Ey.
    assert (Ex' : x + a = x0 + a0) by nia.
    assert (Ey' : y + b = y0 + b0) by nia.
    apply Hne. unfold rel_of. simpl.
    unfold x in Ex'. unfold y in Ey'.
    destruct (decide (a0 < a)); destruct (decide (b0 < b));
      f_equal; f_equal; lia.
Qed.

Lemma shift_not_done db self coordinates self' :
  wf self ->
  on_lattice (settings self) (current_block_coord self) ->
  -1 <= num_blocks (settings self) ->
  shift db self coordinates = Ok self' ->
  current_block_coord self' <> current_block_coord self ->
  is_map_done self' = Ok false.
Proof.
  intros Hwf Hlat Hn H Hne.
  pose proof (shift_wf db self coordinates self' Hwf H) as Hwf'.
  destruct (shift_Ok_inv db self coordinates self' Hwf H)
    as (nb & ps & h & nt & nm & dem & Hcast & _ & _ & _ & Hg & Hlen & _
        & Hnew & Hc & Hself').
  destruct (cast_Ok_inv self coordinates nb Hcast) as [Hbs Hnb].
  assert (Hcur : current_block_coord self' = nb
                 /\ block_grid_tracker self' = nt
                 /\ map_grid_block2coords self' = nm
                 /\ forall l, (length (blocks self) <= l < length h)%nat ->
                      has_terrain_data (deref (blocks self') l) = false).
  { destruct (generate_craters (settings self)).
    - destruct Hself' as (h' & _ & Hlen' & Hk' & ->).
      split_and!; try reflexivity. intros l Hl.
      destruct (Hk' l _ (Hnew l Hl)) as (b' & Hb' & Hf). cbn.
      rewrite (deref_lookup _ _ _ Hb').
      unfold data_flags in Hf. by injection Hf as _ ->.
    - subst self'. split_and!; try reflexivity. intros l Hl. cbn.
      by rewrite (deref_lookup _ _ _ (Hnew l Hl)). }
  destruct Hcur as (Hcur & Ht & Hm & Hfresh). rewrite Hcur in Hne.
  destruct (window_moves_out (settings self) (current_block_coord self) nb
              (map_grid_block2coords self) Hbs Hn Hlat Hnb Hne
              (proj1 Hwf))
    as (xy & Hin & Hout).
  destruct (Hc xy Hin) as (l & Hl & Hcase). rewrite Hout in Hcase.
  destruct (is_map_done_spec self' _ Hwf') as (b & E & Hb).
  rewrite E. f_equal. destruct b; [| reflexivity].
  assert (Hready : ready (deref (blocks self') l) = true).
  { apply (proj1 Hb eq_refl (abs_of (settings self) nb xy)
             (rel_of (settings self) xy) l).
    - rewrite Hm. destruct Hg as (Hmb & _). apply Hmb. by exists xy.
    - by rewrite Ht. }
  unfold ready in Hready. rewrite (Hfresh l Hcase) in Hready.
  by rewrite andb_false_r in Hready.
Qed.

(** X7: the map is not done after construction. *)
Theorem is_map_done_false_after_init (cfg : HighResDEMCfg)
    (self : HighResDEMGen) :
  -1 <= num_blocks cfg ->
  init cfg = Ok self ->
  is_map_done self = Ok false.
Proof.
  intros Hn H. pose proof (init_wf cfg self H) as Hwf.
  apply init_Ok_inv in H as (h & t & m & side & Hb & _ & _ & ->).
  destruct (build_block_grid_spec (blank cfg))
    as (h1 & t1 & m1 & E & Hg & Hnew).
  rewrite E in Hb. apply Ok_inj in Hb.
  injection Hb as <- <- <-.
  destruct (is_map_done_spec _ _ Hwf) as (b & Eb & Hb).
  rewrite Eb. f_equal. destruct b; [| reflexivity].
  assert (Hin : (0, 0) ∈ grid_cells (num_blocks cfg))
    by (apply elem_of_grid_cells; lia).
  destruct (grid_at_tracker_slots _ _ Hg (0, 0) Hin) as [l Hl].
  cbn in Hl.
  assert (Hready :
            ready (deref (blocks (with_dem (with_grid (blank cfg) h1 t1 m1)
                                    (Np.const side side 0%Q))) l) = true).
  { apply (proj1 Hb eq_refl (abs_of cfg (0, 0) (0, 0)) (rel_of cfg (0, 0)) l).
    - destruct Hg as (Hmb & _). apply Hmb. by exists (0, 0).
    - exact Hl. }
  destruct (Hnew _ _ Hl) as (_ & b & Hbl & Hr). cbn in Hready.
  rewrite (deref_lookup _ _ _ Hbl) in Hready.
  unfold ready in Hready. unfold readiness in Hr. cbn in Hr.
  injection Hr as _ _ Hr. rewrite Hr in Hready.
  by rewrite andb_false_r in Hready.
Qed.

(** ** Results of blocks outside the window *)

Lemma collect_body_stale mark offset k d self :
  map_grid_block2coords self !! k = None ->
  collect_body mark offset (k, d) self = Raise KeyError.
Proof.
  intros Hk. unfold collect_body, dict_get. by rewrite Hk.
Qed.

Lemma bind_Ok {A B} (a : A) (f : A -> result B) : Ok a ≫= f = f a.
Proof. reflexivity. Qed.

Lemma for_each_cons_Raise {A S} (body : A -> S -> result S) a l s e :
  body a s = Raise e -> for_each body (a :: l) s = Raise e.
Proof. intros H. simpl. by rewrite H. Qed.

Lemma collect_stale self k d crater_results terrain_results :
  ~ (resolution (settings self) == 0)%Q ->
  map_grid_block2coords self !! k = None ->
  collect_terrain_data ((k, d) :: crater_results) terrain_results self
  = Raise KeyError
  /\ collect_terrain_data [] ((k, d) :: terrain_results) self
     = Raise KeyError.
Proof.
  intros Hres Hk. unfold collect_terrain_data.
  rewrite py_div_nonzero by exact Hres. rewrite bind_Ok. split.
  - match goal with
    | |- ?m ≫= _ = _ =>
        assert (E : m = Raise KeyError)
          by (apply for_each_cons_Raise; by apply collect_body_stale);
        rewrite E
    end.
    reflexivity.
  - change (for_each ?b [] self) with (Ok self). rewrite bind_Ok.
    apply for_each_cons_Raise. by apply collect_body_stale.
Qed.

(** ** The work sent to the workers *)

Lemma generate_terrain_blocks_sent self c :
  grid_at self c ->
  exists sent,
    generate_terrain_blocks self = Ok sent
    /\ forall j k, (j, k) ∈ sent <->
         exists rel l,
           map_grid_block2coords self !! k = Some rel
           /\ block_grid_tracker self !! rel = Some l
           /\ lacks j (deref (blocks self) l).
Proof.
  intros Hg. unfold generate_terrain_blocks.
  match goal with
  | |- context [for_each ?body ?l ?s] =>
      destruct (for_each_inv body (sent_inv self) l s) as (sent & E & Hs)
  end.
  - intros j k. split.
    + intros H. by apply elem_of_nil in H.
    + intros (rel & l & H & _). by apply elem_of_nil in H.
  - intros done [k0 rel0] sent Hs Hin.
    apply elem_of_map_to_list in Hin.
    destruct (grid_at_map_in_tracker self c Hg k0 rel0 Hin) as [l0 Hl0].
    cbn. unfold dict_get. rewrite Hl0. cbn.
    eexists. split; [reflexivity |].
    intros j k. split.
    + intros H.
      assert (Hcases : (j, k) ∈ sent
                \/ (j = CraterJob /\ k = k0
                    /\ has_crater_data (deref (blocks self) l0) = false)
                \/ (j = TerrainJob /\ k = k0
                    /\ has_terrain_data (deref (blocks self) l0) = false)).
      { destruct (has_crater_data (deref (blocks self) l0)) eqn:Hc;
          destruct (has_terrain_data (deref (blocks self) l0)) eqn:Ht;
          repeat (apply elem_of_app in H as [H | H]);
          try (apply list_elem_of_singleton in H; injection H as -> ->);
          auto. }
      destruct Hcases as [H' | [(-> & -> & H') | (-> & -> & H')]].
      * apply Hs in H' as (rel & l & Hd & Hl & Hlk).
        exists rel, l. split_and!; [| done | done].
        apply elem_of_app. by left.
      * exists rel0, l0. split_and!; [| done | done].
        apply elem_of_app. right. by left.
      * exists rel0, l0. split_and!; [| done | done].
        apply elem_of_app. right. by left.
    + intros (rel & l & Hd & Hl & Hlk).
      apply elem_of_app in Hd as [Hd | Hd].
      * assert (H' : (j, k) ∈ sent) by (apply Hs; by exists rel, l).
        destruct (has_crater_data (deref (blocks self) l0));
          destruct (has_terrain_data (deref (blocks self) l0));
          repeat (apply elem_of_app; left); exact H'.
      * apply list_elem_of_singleton in Hd. injection Hd as -> ->.
        rewrite Hl0 in Hl. injection Hl as <-.
        destruct j; cbn in Hlk; rewrite Hlk.
        -- destruct (has_terrain_data (deref (blocks self) l0)).
           ++ apply elem_of_app. right. by left.
           ++ apply elem_of_app. left. apply elem_of_app. right. by left.
        -- destruct (has_crater_data (deref (blocks self) l0));
             apply elem_of_app; right; by left.
  - exists sent. split; [exact E |].
    intros j k. rewrite (Hs j k). split.
    + intros (rel & l & Hd & Hl & Hlk). exists rel, l.
      split_and!; [| done | done]. by apply elem_of_map_to_list in Hd.
    + intros (rel & l & Hd & Hl & Hlk). exists rel, l.
      split_and!; [| done | done]. by apply elem_of_map_to_list.
Qed.

(** ** Without crater generation *)

Lemma craters_done_padding v b : craters_done b -> craters_done (set_is_padding v b).
Proof. intros H. exact H. Qed.

Lemma reachable_craters_done self :
  reachable self ->
  generate_craters (settings self) = false ->
  Forall craters_done (blocks self).
Proof.
  revert self.
  apply (reachable_invariant
           (fun s => generate_craters (settings s) = false ->
                     Forall craters_done (blocks s))).
  - intros cfg self H Hgc.
    apply init_Ok_inv in H as (h & t & m & side & Hb & _ & _ & ->).
    cbn in Hgc |- *.
    apply (build_block_grid_store craters_done (blank cfg) _) in Hb;
      [exact Hb | | apply craters_done_padding | by apply Forall_nil].
    unfold craters_done, empty_state. cbn. rewrite Hgc. by split.
  - intros db self coordinates self' Hwf HP H.
    destruct (shift_Ok_inv db self coordinates self' Hwf H)
      as (nb & ps & h & nt & nm & dem & _ & _ & Hg & _ & _ & _ & _ & _ & _
          & Hself').
    destruct (generate_craters (settings self)) eqn:Hgc.
    + destruct Hself' as (h' & _ & _ & _ & ->). cbn. rewrite Hgc.
      discriminate.
    + subst self'. cbn. intros _.
      apply (shift_block_grid_store craters_done self nb _) in Hg;
        [exact Hg | | apply craters_done_padding | by apply HP].
      unfold craters_done, empty_state. cbn. rewrite Hgc. by split.
  - intros self w H. exact H.
  - intros mark offset [k d] self self' Hmark Hwf HP H.
    apply collect_body_Ok_inv in H as (rel & l & dem & _ & _ & _ & _ & ->).
    cbn. intros Hgc. apply Forall_assign; [| by apply HP].
    intros b [Hb1 Hb2]. destruct Hmark as [-> | ->]; by split.
Qed.

(** ** The crater metadata flags after a shift *)

Lemma set_has_crater_metadata_id b :
  set_has_crater_metadata (has_crater_metadata b) b = b.
Proof. by destruct b. Qed.

Lemma generate_craters_metadata_flags db self c self' :
  grid_at self c ->
  tracker_inj (block_grid_tracker self) ->
  generate_craters_metadata db self = Ok self' ->
  forall k rel l,
    map_grid_block2coords self !! k = Some rel ->
    block_grid_tracker self !! rel = Some l ->
    has_crater_metadata (deref (blocks self') l) = db k.
Proof.
  intros Hg Hinj H. unfold generate_craters_metadata in H.
  apply bind_Ok_inv in H as (h & H & E). apply Ok_inj in E. subst self'.
  assert (Hfin : metadata_inv db self
                   (map_to_list (map_grid_block2coords self)) h).
  { revert H. apply for_each_trace.
    - split_and!; [done | | |].
      + intros kv Hin. by apply elem_of_nil in Hin.
      + intros l b Hb. exists (has_crater_metadata b).
        by rewrite set_has_crater_metadata_id.
      + intros k rel l Hin. by apply elem_of_nil in Hin.
    - intros done [k0 rel0] h0 h1 (Hlen & Hsub & HA & HB) Hin Hb.
      apply elem_of_map_to_list in Hin. cbn in Hb.
      apply bind_Ok_inv in Hb as (l0 & Hl0 & Hb).
      apply Ok_inj in Hb. subst h1.
      unfold dict_get in Hl0.
      destruct (block_grid_tracker self !! rel0) as [l0' |] eqn:El0;
        [| discriminate Hl0].
      apply Ok_inj in Hl0. subst l0'.
      split_and!.
      + by rewrite length_assign.
      + intros kv [Hkv | Hkv]%elem_of_app; [by apply Hsub |].
        apply list_elem_of_singleton in Hkv. by subst kv.
      + intros l b Hbl. destruct (HA l b Hbl) as [v Hv].
        destruct (decide (l = l0)) as [-> | Hne].
        * exists (db k0). unfold assign.
          rewrite list_lookup_alter_eq, Hv. reflexivity.
        * exists v. by rewrite lookup_assign_ne.
      + intros k rel l Hin' Hl.
        assert (Hl0v : exists b0, h0 !! l0 = Some b0).
        { destruct Hg as (_ & _ & Hv). pose proof (Hv _ _ El0) as Hlt.
          rewrite <- Hlen in Hlt. by apply lookup_lt_is_Some_2. }
        destruct Hl0v as [b0 Hb0].
        destruct (decide (l = l0)) as [-> | Hne].
        * exists (set_has_crater_metadata (db k0) b0). split.
          { unfold assign. rewrite list_lookup_alter_eq, Hb0. reflexivity. }
          cbn. assert (rel = rel0) by (by apply (Hinj rel rel0 l0)).
          subst rel.
          assert (Hk : map_grid_block2coords self !! k = Some rel0).
          { apply elem_of_app in Hin' as [Hin' | Hin'].
            - by apply (Hsub (k, rel0)).
            - apply list_elem_of_singleton in Hin'. by injection Hin' as ->. }
          destruct Hg as (Hm & _).
          by rewrite (map_built_inj _ _ _ _ k k0 rel0 Hm Hk Hin).
        * rewrite lookup_assign_ne by done.
          apply elem_of_app in Hin' as [Hin' | Hin'].
          -- by apply (HB k rel l).
          -- apply list_elem_of_singleton in Hin'. injection Hin' as -> ->.
             rewrite El0 in Hl. by injection Hl as <-. }
  destruct Hfin as (_ & _ & _ & HB).
  intros k rel l Hk Hl.
  destruct (HB k rel l) as (b' & Hb' & Hf); [| done |].
  { by apply elem_of_map_to_list. }
  cbn. by rewrite (deref_lookup _ _ _ Hb').
Qed.

Lemma shift_crater_metadata db self coordinates self' :
  wf self -> tracker_inj (block_grid_tracker self) ->
  generate_craters (settings self) = true ->
  shift db self coordinates = Ok self' ->
  forall k rel l,
    map_grid_block2coords self' !! k = Some rel ->
    block_grid_tracker self' !! rel = Some l ->
    has_crater_metadata (deref (blocks self') l) = db k.
Proof.
  intros Hwf Hinj Hgc H.
  destruct (shift_Ok_inv db self coordinates self' Hwf H)
    as (nb & ps & h & nt & nm & dem & _ & _ & Hsg & _ & Hg & _ & _ & _ & _
        & Hself').
  rewrite Hgc in Hself'. destruct Hself' as (h' & E & _ & _ & Es).
  pose proof (shift_block_grid_inj self _ nb _ Hwf Hinj Hsg) as Hinj1.
  rewrite <- Es in E.
  pose proof (generate_craters_metadata_flags db _ nb self' Hg Hinj1 E) as Hf.
  subst self'. exact Hf.
Qed.

Lemma in_boundsb_spec a i j : in_boundsb a i j = true <-> Np.in_bounds a i j.
Proof.
  unfold in_boundsb, Np.in_bounds.
  rewrite !andb_true_iff, !Z.leb_le, !Z.ltb_lt. lia.
Qed.

Lemma shift_axis_all_exposed len d i :
  len <= Z.abs d -> d <= len -> 0 <= i < len -> exposed len d i = true.
Proof. intros Hd Hle Hi. unfold exposed. axis_cases. Qed.

(** [shift_dem] for any shift: the samples move by [(dx, dy)], and zeros
    come in where nothing lands. *)
Lemma shift_dem_moved dem dx dy :
  exists dem',
    shift_dem dem (dx, dy) = Ok dem'
    /\ Np.shape0 dem' = Np.shape0 dem
    /\ Np.shape1 dem' = Np.shape1 dem
    /\ forall i j, Np.in_bounds dem i j ->
         Np.cell dem' i j = moved dem dx dy i j.
Proof.
  destruct (decide (dx <= Np.shape0 dem /\ dy <= Np.shape1 dem))
    as [[Hx Hy] | Hbig].
  - destruct (shift_dem_cells dem dx dy Hx Hy) as (dem' & E & S0 & S1 & Hc).
    exists dem'. split_and!; try assumption.
    intros i j [Hi Hj]. rewrite (Hc i j) by by split.
    unfold moved, in_boundsb.
    destruct (decide (Z.abs dy < Np.shape1 dem)) as [Hdy | Hdy].
    + destruct (decide (0 <= j - dy < Np.shape1 dem)) as [Hjs | Hjs].
      * destruct (shift_axis_source _ dy j Hdy Hj Hjs) as (Ty & Ey & Sy).
        rewrite Ey.
        destruct (decide (Z.abs dx < Np.shape0 dem)) as [Hdx | Hdx].
        -- destruct (decide (0 <= i - dx < Np.shape0 dem)) as [His | His].
           ++ destruct (shift_axis_source _ dx i Hdx Hi His) as (Tx & Ex & Sx).
              rewrite Ex, Tx, Ty, Sx, Sy. cbn.
              destruct (Z.leb_spec 0 (i - dx)); [| lia].
              destruct (Z.ltb_spec (i - dx) (Np.shape0 dem)); [| lia].
              destruct (Z.leb_spec 0 (j - dy)); [| lia].
              destruct (Z.ltb_spec (j - dy) (Np.shape1 dem)); [| lia].
              reflexivity.
           ++ rewrite (shift_axis_exposed _ dx i Hdx Hi His).
              destruct (Z.leb_spec 0 (i - dx)); [| reflexivity].
              destruct (Z.ltb_spec (i - dx) (Np.shape0 dem)); [lia |].
              reflexivity.
        -- rewrite (shift_axis_all_exposed _ dx i) by lia.
           destruct (Z.leb_spec 0 (i - dx)); [| reflexivity].
           destruct (Z.ltb_spec (i - dx) (Np.shape0 dem)); [lia |].
           reflexivity.
      * rewrite (shift_axis_exposed _ dy j Hdy Hj Hjs).
        destruct (Z.leb_spec 0 (i - dx)); [| reflexivity].
        destruct (Z.ltb_spec (i - dx) (Np.shape0 dem)); [| reflexivity].
        destruct (Z.leb_spec 0 (j - dy)); [| reflexivity].
        destruct (Z.ltb_spec (j - dy) (Np.shape1 dem)); [lia |].
        reflexivity.
    + rewrite (shift_axis_all_exposed _ dy j) by lia.
      destruct (Z.leb_spec 0 (i - dx)); [| reflexivity].
      destruct (Z.ltb_spec (i - dx) (Np.shape0 dem)); [| reflexivity].
      destruct (Z.leb_spec 0 (j - dy)); [| reflexivity].
      destruct (Z.ltb_spec (j - dy) (Np.shape1 dem)); [lia |].
      reflexivity.
  - assert (Hor : (dx >? Np.shape0 dem) || (dy >? Np.shape1 dem) = true).
    { rewrite !Z.gtb_ltb. apply orb_true_iff.
      destruct (decide (dx <= Np.shape0 dem)); [right | left];
        apply Z.ltb_lt; lia. }
    unfold shift_dem. rewrite Hor.
    eexists. split_and!; try reflexivity.
    intros i j [Hi Hj]. cbn.
    rewrite !selects_full by assumption. cbn.
    unfold moved, in_boundsb.
    apply orb_true_iff in Hor. rewrite !Z.gtb_ltb, !Z.ltb_lt in Hor.
    destruct (Z.leb_spec 0 (i - dx)); [| reflexivity].
    destruct (Z.ltb_spec (i - dx) (Np.shape0 dem)); [| reflexivity].
    destruct (Z.leb_spec 0 (j - dy)); [| reflexivity].
    destruct (Z.ltb_spec (j - dy) (Np.shape1 dem)); [lia |].
    reflexivity.
Qed.

(** X16: two shifts of the buffer in the same direction along each axis
    give the samples of one shift by the sum. *)
Theorem shift_dem_compose (dem : Np.ndarray) (a b c d : Z) :
  (0 <= a /\ 0 <= c) \/ (a <= 0 /\ c <= 0) ->
  (0 <= b /\ 0 <= d) \/ (b <= 0 /\ d <= 0) ->
  exists dem1 dem2 dem12,
    shift_dem dem (a, b) = Ok dem1
    /\ shift_dem dem1 (c, d) = Ok dem2
    /\ shift_dem dem (a + c, b + d) = Ok dem12
    /\ forall i j, Np.in_bounds dem i j ->
         Np.cell dem2 i j = Np.cell dem12 i j.
Proof.
  intros Hx Hy.
  destruct (shift_dem_moved dem a b) as (dem1 & E1 & S01 & S11 & C1).
  destruct (shift_dem_moved dem1 c d) as (dem2 & E2 & S02 & S12 & C2).
  destruct (shift_dem_moved dem (a + c) (b + d))
    as (dem12 & E12 & S012 & S112 & C12).
  exists dem1, dem2, dem12. split_and!; try assumption.
  intros i j [Hi Hj].
  rewrite C2 by (unfold Np.in_bounds; rewrite S01, S11; by split).
  rewrite C12 by by split.
  unfold moved at 1.
  destruct (in_boundsb dem1 (i - c) (j - d)) eqn:Hb.
  - apply in_boundsb_spec in Hb. unfold Np.in_bounds in Hb.
    rewrite S01, S11 in Hb. rewrite C1 by exact Hb.
    unfold moved.
    replace (i - c - a) with (i - (a + c)) by lia.
    replace (j - d - b) with (j - (b + d)) by lia.
    reflexivity.
  - unfold moved.
    destruct (in_boundsb dem (i - (a + c)) (j - (b + d))) eqn:Hb';
      [| reflexivity].
    exfalso. apply in_boundsb_spec in Hb'. destruct Hb' as [Hi' Hj'].
    assert (Hin : in_boundsb dem1 (i - c) (j - d) = true).
    { apply in_boundsb_spec. unfold Np.in_bounds. rewrite S01, S11. lia. }
    congruence.
Qed.

(** X17: a shift of the buffer followed by the opposite shift keeps the
    samples that stayed inside the buffer and leaves zeros in place of the
    others. *)
Theorem shift_dem_back_and_forth (dem : Np.ndarray) (dx dy : Z) :
  exists dem1 dem2,
    shift_dem dem (dx, dy) = Ok dem1
    /\ shift_dem dem1 (- dx, - dy) = Ok dem2
    /\ forall i j, Np.in_bounds dem i j ->
         (Np.in_bounds dem (i + dx) (j + dy) ->
            Np.cell dem2 i j = Np.cell dem i j)
         /\ (~ Np.in_bounds dem (i + dx) (j + dy) ->
               Np.cell dem2 i j = 0%Q).
Proof.
  destruct (shift_dem_moved dem dx dy) as (dem1 & E1 & S01 & S11 & C1).
  destruct (shift_dem_moved dem1 (- dx) (- dy))
    as (dem2 & E2 & S02 & S12 & C2).
  exists dem1, dem2. split_and!; try assumption.
  intros i j [Hi Hj].
  rewrite C2 by (unfold Np.in_bounds; rewrite S01, S11; by split).
  unfold moved.
  replace (i - - dx) with (i + dx) by lia.
  replace (j - - dy) with (j + dy) by lia.
  split.
  - intros Hin.
    assert (Hb : in_boundsb dem1 (i + dx) (j + dy) = true).
    { apply in_boundsb_spec. unfold Np.in_bounds. by rewrite S01, S11. }
    rewrite Hb, C1 by exact Hin. unfold moved.
    replace (i + dx - dx) with i by lia.
    replace (j + dy - dy) with j by lia.
    assert (Hb' : in_boundsb dem i j = true)
      by (by apply in_boundsb_spec).
    by rewrite Hb'.
  - intros Hout.
    destruct (in_boundsb dem1 (i + dx) (j + dy)) eqn:Hb; [| reflexivity].
    exfalso. apply Hout. apply in_boundsb_spec in Hb.
    unfold Np.in_bounds in Hb. by rewrite S01, S11 in Hb.
Qed.

(** ** The shape of the buffer *)

Lemma reachable_shape self :
  reachable self ->
  dem_side (settings self) = Ok (Np.shape0 (high_res_dem self))
  /\ Np.shape1 (high_res_dem self) = Np.shape0 (high_res_dem self).
Proof.
  revert self.
  apply (reachable_invariant
           (fun s => dem_side (settings s) = Ok (Np.shape0 (high_res_dem s))
                     /\ Np.shape1 (high_res_dem s)
                        = Np.shape0 (high_res_dem s))).
  - intros cfg self H.
    apply init_Ok_inv in H as (h & t & m & side & _ & Hside & _ & ->).
    by split.
  - intros db self coordinates self' Hwf HP H.
    apply (shift_same_shape db self coordinates self' Hwf) in H
      as (-> & -> & ->).
    exact HP.
  - intros self w H. exact H.
  - intros mark offset r self self' _ _ HP H.
    apply collect_body_same_shape in H as (-> & -> & ->). exact HP.
Qed.

(** ** Patches of the low resolution DEM *)

Lemma lr_dem_coordinate_nonzero lr offset x :
  ~ (source_resolution lr == 0)%Q ->
  lr_dem_coordinate lr offset x
  = Ok (py_int (x / source_resolution lr + inject_Z offset)).
Proof.
  intros H. unfold lr_dem_coordinate. by rewrite py_div_nonzero by exact H.
Qed.

Lemma slice_inside (len lo w : Z) :
  0 <= lo -> 0 <= w -> lo + w <= len ->
  Np.lower (Np.from_to lo (lo + w)) len = lo
  /\ Np.extent (Np.from_to lo (lo + w)) len = w.
Proof.
  intros H0 Hw H1. unfold Np.extent, Np.lower, Np.upper, Np.adjust. cbn.
  destruct (Z.ltb_spec lo 0); destruct (Z.ltb_spec (lo + w) 0); lia.
Qed.

(** A slice that starts before the first index and stops inside the axis
    selects nothing unless it is longer than the axis. *)
Lemma slice_straddles (len lo w : Z) :
  lo < 0 -> 0 <= lo + w -> w <= len ->
  Np.extent (Np.from_to lo (lo + w)) len = 0.
Proof.
  intros H0 H1 Hw. unfold Np.extent, Np.lower, Np.upper, Np.adjust. cbn.
  destruct (Z.ltb_spec lo 0); destruct (Z.ltb_spec (lo + w) 0); lia.
Qed.

(** A slice that lies before the first index is read from the end. *)
Lemma slice_wraps (len lo w : Z) :
  - len <= lo -> 0 <= w -> lo + w < 0 ->
  Np.lower (Np.from_to lo (lo + w)) len = lo + len
  /\ Np.extent (Np.from_to lo (lo + w)) len = w.
Proof.
  intros H0 Hw H1. unfold Np.extent, Np.lower, Np.upper, Np.adjust. cbn.
  destruct (Z.ltb_spec lo 0); destruct (Z.ltb_spec (lo + w) 0); lia.
Qed.

(** A slice that runs past the last index is cut there. *)
Lemma slice_cut (len lo w : Z) :
  0 <= lo <= len -> len < lo + w ->
  Np.lower (Np.from_to lo (lo + w)) len = lo
  /\ Np.extent (Np.from_to lo (lo + w)) len = len - lo.
Proof.
  intros H0 H1. unfold Np.extent, Np.lower, Np.upper, Np.adjust. cbn.
  destruct (Z.ltb_spec lo 0); destruct (Z.ltb_spec (lo + w) 0); lia.
Qed.

Lemma querry_low_res_dem_Ok lr off low_res_dem coordinates :
  ~ (source_resolution lr == 0)%Q ->
  exists x y,
    lr_dem_coordinate lr (lr_dem_px_offset off).1 coordinates.1 = Ok x
    /\ lr_dem_coordinate lr (lr_dem_px_offset off).2 coordinates.2 = Ok y
    /\ querry_low_res_dem lr off low_res_dem coordinates
       = Ok (Np.getslice low_res_dem
               (Np.from_to (x - interpolation_padding lr)
                  (x - interpolation_padding lr + patch_side lr off))
               (Np.from_to (y - interpolation_padding lr)
                  (y - interpolation_padding lr + patch_side lr off))).
Proof.
  intros H. unfold querry_low_res_dem.
  rewrite !lr_dem_coordinate_nonzero by exact H.
  eexists _, _. split_and!; [reflexivity | reflexivity |].
  rewrite !bind_Ok. unfold patch_side.
  match goal with
  | |- context [Np.from_to (?x - ?p) (?x - ?p + (?b + 2 * ?p))] =>
      replace (x - p + (b + 2 * p)) with (x + b + p) by lia
  end.
  match goal with
  | |- context [Np.from_to (?y - ?p) (?y - ?p + (?b + 2 * ?p))] =>
      replace (y - p + (b + 2 * p)) with (y + b + p) by lia
  end.
  reflexivity.
Qed.

Lemma rel_of_inj cfg xy xy' :
  block_size cfg <> 0 -> rel_of cfg xy = rel_of cfg xy' -> xy = xy'.
Proof.
  intros Hbs E. destruct xy as [x y], xy' as [x' y'].
  unfold rel_of in E. simpl in E. injection E as Ex Ey.
  f_equal; nia.
Qed.

Lemma ring_abs n x y :
  - n - 1 <= x <= n + 1 -> - n - 1 <= y <= n + 1 ->
  (ring n x y = true <-> Z.abs x = n + 1 \/ Z.abs y = n + 1).
Proof.
  intros Hx Hy. unfold ring.
  destruct (Z.eqb_spec x (- n - 1)); destruct (Z.eqb_spec x (n + 1));
    destruct (Z.eqb_spec y (- n - 1)); destruct (Z.eqb_spec y (n + 1));
    cbn; split; intros H; try done; try lia.
Qed.

Lemma build_ring_step cfg c done xy acc acc' :
  block_size cfg <> 0 ->
  build_ring_inv cfg done acc ->
  build_block_grid_body cfg c xy acc = Ok acc' ->
  build_ring_inv cfg (done ++ [xy]) acc'.
Proof.
  intros Hbs. destruct acc as [[h t] m]. intros [Hv Hd] H.
  unfold build_block_grid_body in H. cbn in H.
  apply bind_Ok_inv in H as (lp & Hlp & H).
  apply Ok_inj in H. subst acc'.
  unfold dict_get in Hlp. rewrite lookup_insert_eq in Hlp.
  apply Ok_inj in Hlp. subst lp.
  split.
  - intros k l0 Hk. rewrite length_assign, length_app. simpl.
    destruct (decide (k = rel_of cfg xy)) as [-> | Hne].
    + rewrite lookup_insert_eq in Hk. injection Hk as <-. lia.
    + rewrite lookup_insert_ne in Hk by done.
      specialize (Hv k l0 Hk). lia.
  - assert (Hnew : assign (set_is_padding (ring (num_blocks cfg) xy.1 xy.2))
                     (length h) (h ++ [empty_state cfg]) !! length h
                   = Some (set_is_padding (ring (num_blocks cfg) xy.1 xy.2)
                             (empty_state cfg))).
    { unfold assign. rewrite list_lookup_alter_eq.
      by rewrite lookup_app_r, Nat.sub_diag. }
    intros xy' Hin.
    destruct (decide (rel_of cfg xy' = rel_of cfg xy)) as [E | Hne].
    + apply (rel_of_inj cfg _ _ Hbs) in E. subst xy'.
      eexists (length h), _. rewrite lookup_insert_eq. by split_and!.
    + apply elem_of_app in Hin as [Hin | Hin].
      * destruct (Hd xy' Hin) as (l & b & Hl & Hb & ->).
        eexists l, _. rewrite lookup_insert_ne by done.
        split_and!; [exact Hl | | reflexivity].
        pose proof (Hv _ _ Hl) as Hlt.
        rewrite lookup_assign_ne by lia.
        by rewrite lookup_app_l.
      * apply list_elem_of_singleton in Hin. by subst xy'.
Qed.

Lemma build_block_grid_ring self self' :
  block_size (settings self) <> 0 ->
  build_block_grid self = Ok self' ->
  padding_follows_ring self' /\ all_empty self'.
Proof.
  intros Hbs H. unfold build_block_grid in H.
  apply bind_Ok_inv in H as ([[h t] m] & H & E).
  apply Ok_inj in E. subst self'.
  assert (Hfin : build_ring_inv (settings self)
                   (grid_cells (num_blocks (settings self))) (h, t, m)).
  { revert H. apply for_each_trace.
    - split.
      + intros k l Hk. by rewrite lookup_empty in Hk.
      + intros xy Hin. by apply elem_of_nil in Hin.
    - intros done a s s1 Hs _ Hb.
      by apply (build_ring_step _ _ done a s s1 Hbs Hs Hb). }
  destruct Hfin as [_ Hd]. split.
  - intros x y Hin. cbn in Hin |- *.
    destruct (Hd (x, y) Hin) as (l & b & Hl & Hb & ->).
    exists l. split; [exact Hl |].
    rewrite (deref_lookup _ _ _ Hb). cbn.
    apply elem_of_grid_cells in Hin as [Hx Hy].
    by apply ring_abs.
  - intros xy Hin. cbn in Hin |- *.
    destruct (Hd xy Hin) as (l & b & Hl & Hb & ->).
    exists l. split; [exact Hl |].
    by rewrite (deref_lookup _ _ _ Hb).
Qed.

Lemma demo_warm_frame :
  settings demo_warm = demo_cfg
  /\ current_block_coord demo_warm = (0, 0)
  /\ sim_is_warm demo_warm = true.
Proof. split_and!; vm_compute; reflexivity. Qed.

Lemma demo_center_frame :
  settings demo_center = demo_cfg
  /\ current_block_coord demo_center = (0, 0)
  /\ sim_is_warm demo_center = true.
Proof. split_and!; vm_compute; reflexivity. Qed.

Lemma demo_shifted_frame :
  settings demo_shifted = demo_cfg
  /\ current_block_coord demo_shifted = (50, 0)
  /\ sim_is_warm demo_shifted = true.
Proof. split_and!; vm_compute; reflexivity. Qed.

Lemma cast_block_contains_position_witness :
  0 < block_size (settings demo_center) < 2 ^ 53
  /\ exact_range (60 # 1)
  /\ exact_range 0
  /\ exists c,
       cast_coordinates_to_block_space demo_center (60 # 1, 0)%Q = Ok c
       /\ on_lattice (settings demo_center) c
       /\ block_contains (settings demo_center) c (60 # 1, 0)%Q
       /\ forall c', on_lattice (settings demo_center) c' ->
            block_contains (settings demo_center) c' (60 # 1, 0)%Q -> c' = c.
Proof.
  assert (Hbs : 0 < block_size (settings demo_center) < 2 ^ 53).
  { rewrite (proj1 demo_center_frame). split; reflexivity. }
  assert (H1 : exact_range (60 # 1)) by (split; reflexivity).
  assert (H2 : exact_range 0) by (split; reflexivity).
  split; [exact Hbs |]. split; [exact H1 |]. split; [exact H2 |].
  exact (cast_block_contains_position demo_center (60 # 1, 0)%Q Hbs H1 H2).
Defined.

Lemma cast_idempotent_witness :
  cast_coordinates_to_block_space demo_center (60 # 1, 0)%Q = Ok (50, 0)
  /\ cast_coordinates_to_block_space demo_center (inject_coord (50, 0))
     = Ok (50, 0).
Proof.
  split; [vm_compute; reflexivity |].
  apply (cast_idempotent demo_center (60 # 1, 0)%Q (50, 0)).
  vm_compute. reflexivity.
Defined.

(** X5: a warm generator ignores a position inside its current block, for a
    block size and a position of magnitude below 2^53: the update returns
    False and the state is unchanged. *)
Theorem update_inside_current_block (db : coord -> bool)
    (self : HighResDEMGen) (coords : Q * Q) :
  reachable self ->
  sim_is_warm self = true ->
  0 < block_size (settings self) < 2 ^ 53 ->
  exact_range coords.1 ->
  exact_range coords.2 ->
  block_contains (settings self) (current_block_coord self) coords ->
  update_high_res_dem db self coords = Ok (false, self).
Proof.
  intros Hr Hwarm [Hbs _] _ _ Hin.
  pose proof (cast_unique self coords _ Hbs (reachable_on_lattice _ Hr) Hin)
    as Hcast.
  destruct (update_one_shift db self coords (reachable_wf _ Hr)
              (reachable_buffer_ok _ Hr)) as (c & Hc & H); [lia |].
  rewrite Hcast in Hc. apply Ok_inj in Hc. subst c.
  rewrite Hwarm, bool_decide_eq_true_2 in H by reflexivity. exact H.
Qed.

Lemma update_inside_current_block_witness :
  reachable demo_center
  /\ sim_is_warm demo_center = true
  /\ 0 < block_size (settings demo_center) < 2 ^ 53
  /\ exact_range (10 # 1)
  /\ exact_range (20 # 1)
  /\ block_contains (settings demo_center) (current_block_coord demo_center)
       (10 # 1, 20 # 1)%Q
  /\ update_high_res_dem no_db demo_center (10 # 1, 20 # 1)%Q
     = Ok (false, demo_center).
Proof.
  assert (Hwarm : sim_is_warm demo_center = true)
    by exact (proj2 (proj2 demo_center_frame)).
  assert (Hbs : 0 < block_size (settings demo_center) < 2 ^ 53).
  { rewrite (proj1 demo_center_frame). split; reflexivity. }
  assert (H1 : exact_range (10 # 1)) by (split; reflexivity).
  assert (H2 : exact_range (20 # 1)) by (split; reflexivity).
  assert (Hin : block_contains (settings demo_center)
                  (current_block_coord demo_center) (10 # 1, 20 # 1)%Q).
  { rewrite (proj1 demo_center_frame), (proj1 (proj2 demo_center_frame)).
    vm_compute. repeat split; intros H; discriminate H. }
  split; [exact demo_center_reachable |].
  split; [exact Hwarm |]. split; [exact Hbs |].
  split; [exact H1 |]. split; [exact H2 |]. split; [exact Hin |].
  exact (update_inside_current_block no_db demo_center (10 # 1, 20 # 1)%Q
           demo_center_reachable Hwarm Hbs H1 H2 Hin).
Defined.

(** X6: with a block size of zero the grid and the buffer are built
    without an error, and then every update and every shift raises
    ZeroDivisionError. *)
Theorem zero_block_size_update_raises (cfg : HighResDEMCfg) :
  block_size cfg = 0 ->
  ~ (resolution cfg == 0)%Q ->
  exists self,
    init cfg = Ok self
    /\ forall db coords,
         update_high_res_dem db self coords = Raise ZeroDivisionError
         /\ shift db self coords = Raise ZeroDivisionError.
Proof.
  intros Hbs Hres.
  pose proof (dem_side_nonzero cfg Hres) as Hside.
  rewrite Hbs, Z.mul_0_r in Hside.
  change (inject_Z 0) with 0%Q in Hside. rewrite zero_div_zero in Hside.
  destruct (init_total cfg 0 Hside (Z.le_refl 0)) as [self E].
  exists self. split; [exact E |].
  destruct (init_frame cfg self E) as (Hset & _).
  assert (Hcast : forall coords,
            cast_coordinates_to_block_space self coords
            = Raise ZeroDivisionError).
  { intros coords. unfold cast_coordinates_to_block_space, cast_axis.
    rewrite Hset, Hbs. by rewrite py_floordiv_zero. }
  intros db coords. unfold update_high_res_dem, shift.
  by rewrite Hcast.
Qed.

Lemma zero_block_size_update_raises_witness :
  let cfg := mk_HighResDEMCfg 1 0 (1 # 20) false in
  block_size cfg = 0
  /\ ~ (resolution cfg == 0)%Q
  /\ exists self,
       init cfg = Ok self
       /\ forall db coords,
            update_high_res_dem db self coords = Raise ZeroDivisionError
            /\ shift db self coords = Raise ZeroDivisionError.
Proof.
  intros cfg.
  assert (Hres : ~ (resolution cfg == 0)%Q) by (intros H; discriminate H).
  split; [reflexivity |]. split; [exact Hres |].
  exact (zero_block_size_update_raises cfg eq_refl Hres).
Defined.

Lemma demo_full_eq :
  collect_terrain_data [] demo_rasters demo_warm = Ok demo_full.
Proof. apply or_else_returned. vm_compute. reflexivity. Qed.

Lemma crater_init_eq : init (scenario_cfg 0 true) = Ok crater_init.
Proof. apply or_else_returned. vm_compute. reflexivity. Qed.

Lemma crater_init_reachable : reachable crater_init.
Proof. apply (reach_init (scenario_cfg 0 true)). exact crater_init_eq. Qed.

Lemma crater_moved_eq :
  shift column_db crater_init (60 # 1, 0)%Q = Ok crater_moved.
Proof. apply or_else_returned. vm_compute. reflexivity. Qed.

Lemma demo_update_eq :
  update_high_res_dem no_db demo_center (60 # 1, 0)%Q = Ok (true, demo_shifted).
Proof.
  assert (Hbs : block_size (settings demo_center) <> 0).
  { rewrite (proj1 demo_center_frame). intros H. discriminate H. }
  destruct (update_one_shift no_db demo_center (60 # 1, 0)%Q
              (reachable_wf _ demo_center_reachable)
              (reachable_buffer_ok _ demo_center_reachable) Hbs)
    as (c & Hc & H).
  assert (Ec : cast_coordinates_to_block_space demo_center (60 # 1, 0)%Q
               = Ok (50, 0)) by (vm_compute; reflexivity).
  rewrite Ec in Hc. apply Ok_inj in Hc. subst c.
  rewrite (proj2 (proj2 demo_center_frame)),
    (proj1 (proj2 demo_center_frame)) in H.
  rewrite bool_decide_eq_false_2 in H by (intros E; discriminate E).
  cbn [andb] in H. destruct H as (s & Hs & _ & Hu).
  rewrite demo_shifted_eq in Hs. apply Ok_inj in Hs. subst s.
  rewrite Hu. by rewrite (with_warm_id _ (proj2 (proj2 demo_shifted_frame))).
Qed.

(** X4: when an update returns, it has shifted at most once. It returned
    False and changed nothing if the generator was warm and the position
    was cast to the current block; otherwise it performed exactly one
    shift, to the block of the position (called with that block coordinate
    when the generator was cold, with the position when it was warm), set
    the warm flag and returned True. *)
Theorem update_shifts_at_most_once (db : coord -> bool)
    (self : HighResDEMGen) (coords : Q * Q) (updated : bool)
    (self' : HighResDEMGen) :
  reachable self ->
  update_high_res_dem db self coords = Ok (updated, self') ->
  exists c,
    cast_coordinates_to_block_space self coords = Ok c
    /\ if sim_is_warm self && bool_decide (current_block_coord self = c)
       then updated = false /\ self' = self
       else exists s,
           shift db self
             (if sim_is_warm self then coords else inject_coord c) = Ok s
           /\ current_block_coord s = c
           /\ updated = true
           /\ self' = with_warm s true.
Proof.
  intros Hr H.
  assert (Hc : exists c, cast_coordinates_to_block_space self coords = Ok c).
  { unfold update_high_res_dem in H.
    apply bind_Ok_inv in H as (c & Hc & _). by exists c. }
  destruct Hc as [c Hc].
  pose proof (cast_Ok_inv self coords c Hc) as [Hbs Hlat].
  destruct (update_one_shift db self coords (reachable_wf _ Hr)
              (reachable_buffer_ok _ Hr) Hbs) as (c' & Hc' & Hu).
  rewrite Hc in Hc'. apply Ok_inj in Hc'. subst c'.
  exists c. split; [exact Hc |].
  destruct (sim_is_warm self && bool_decide (current_block_coord self = c))
    eqn:Hb.
  - rewrite Hu in H. apply Ok_inj in H. by injection H as <- <-.
  - destruct Hu as (s & Hs & Hcur & Hu).
    rewrite Hu in H. apply Ok_inj in H. injection H as <- <-.
    exists s. split_and!; try done.
    destruct (sim_is_warm self); [exact Hs |].
    rewrite <- Hs. apply shift_ext. rewrite Hc. by apply cast_lattice.
Qed.

Lemma update_shifts_at_most_once_witness :
  reachable demo_center
  /\ update_high_res_dem no_db demo_center (60 # 1, 0)%Q
     = Ok (true, demo_shifted)
  /\ exists c,
       cast_coordinates_to_block_space demo_center (60 # 1, 0)%Q = Ok c
       /\ if sim_is_warm demo_center
             && bool_decide (current_block_coord demo_center = c)
          then true = false /\ demo_shifted = demo_center
          else exists s,
              shift no_db demo_center
                (if sim_is_warm demo_center then (60 # 1, 0)%Q
                 else inject_coord c) = Ok s
              /\ current_block_coord s = c
              /\ true = true
              /\ demo_shifted = with_warm s true.
Proof.
  split; [exact demo_center_reachable |].
  split; [exact demo_update_eq |].
  exact (update_shifts_at_most_once no_db demo_center (60 # 1, 0)%Q true
           demo_shifted demo_center_reachable demo_update_eq).
Defined.

Lemma is_map_done_false_after_init_witness :
  -1 <= num_blocks demo_cfg
  /\ init demo_cfg = Ok demo_init
  /\ is_map_done demo_init = Ok false.
Proof.
  assert (Hn : -1 <= num_blocks demo_cfg) by (intros H; discriminate H).
  split; [exact Hn |]. split; [exact demo_init_eq |].
  exact (is_map_done_false_after_init demo_cfg demo_init Hn demo_init_eq).
Defined.

(** X8: an update that moves the window to another block returns True and
    leaves the map not done: a block without terrain data has entered the
    window. *)
Theorem map_not_done_after_window_move (db : coord -> bool)
    (self : HighResDEMGen) (coords : Q * Q) (updated : bool)
    (self' : HighResDEMGen) :
  reachable self ->
  -1 <= num_blocks (settings self) ->
  update_high_res_dem db self coords = Ok (updated, self') ->
  current_block_coord self' <> current_block_coord self ->
  updated = true /\ is_map_done self' = Ok false.
Proof.
  intros Hr Hn Hu Hne.
  assert (Hbs : block_size (settings self) <> 0).
  { unfold update_high_res_dem in Hu.
    apply bind_Ok_inv in Hu as (bc & Hbc & _).
    by apply cast_Ok_inv in Hbc as [Hbs _]. }
  destruct (update_one_shift db self coords (reachable_wf _ Hr)
              (reachable_buffer_ok _ Hr) Hbs) as (c & Hc & H).
  destruct (sim_is_warm self && bool_decide (current_block_coord self = c)).
  - rewrite H in Hu. apply Ok_inj in Hu. injection Hu as _ <-.
    by destruct Hne.
  - destruct H as (s & Hs & Hcur & H). rewrite H in Hu.
    apply Ok_inj in Hu. injection Hu as <- <-. split; [reflexivity |].
    change (is_map_done s = Ok false).
    apply (shift_not_done db self coords s);
      [by apply reachable_wf | by apply reachable_on_lattice | exact Hn
      | exact Hs | exact Hne].
Qed.

Lemma map_not_done_after_window_move_witness :
  reachable demo_center
  /\ -1 <= num_blocks (settings demo_center)
  /\ update_high_res_dem no_db demo_center (60 # 1, 0)%Q
     = Ok (true, demo_shifted)
  /\ current_block_coord demo_shifted <> current_block_coord demo_center
  /\ true = true /\ is_map_done demo_shifted = Ok false.
Proof.
  assert (Hn : -1 <= num_blocks (settings demo_center)).
  { rewrite (proj1 demo_center_frame). intros H. discriminate H. }
  assert (Hne : current_block_coord demo_shifted
                <> current_block_coord demo_center).
  { rewrite (proj1 (proj2 demo_shifted_frame)),
      (proj1 (proj2 demo_center_frame)).
    intros H. discriminate H. }
  split; [exact demo_center_reachable |]. split; [exact Hn |].
  split; [exact demo_update_eq |]. split; [exact Hne |].
  exact (map_not_done_after_window_move no_db demo_center (60 # 1, 0)%Q
           true demo_shifted demo_center_reachable Hn demo_update_eq Hne).
Defined.

Lemma craters_off_flags self rel l :
  reachable self -> generate_craters (settings self) = false ->
  block_grid_tracker self !! rel = Some l ->
  craters_done (deref (blocks self) l).
Proof.
  intros Hr Hgc Hl.
  pose proof (reachable_craters_done self Hr Hgc) as Hall.
  destruct (reachable_wf _ Hr) as (_ & _ & Hv).
  destruct (lookup_lt_is_Some_2 (blocks self) l (Hv _ _ Hl)) as [b Hb].
  rewrite (deref_lookup _ _ _ Hb).
  by apply (proj1 (Forall_lookup _ _) Hall l).
Qed.

Lemma demo_warm_missing k rel l :
  map_grid_block2coords demo_warm !! k = Some rel ->
  block_grid_tracker demo_warm !! rel = Some l ->
  has_crater_metadata (deref (blocks demo_warm) l) = true
  /\ (has_crater_data (deref (blocks demo_warm) l) = true
      \/ k ∈ ([] : list (coord * Np.ndarray)).*1)
  /\ (has_terrain_data (deref (blocks demo_warm) l) = true
      \/ k ∈ demo_rasters.*1).
Proof.
  intros Hk Hl.
  assert (Hgc : generate_craters (settings demo_warm) = false).
  { rewrite (proj1 demo_warm_frame). reflexivity. }
  destruct (craters_off_flags demo_warm rel l demo_warm_reachable Hgc Hl)
    as [Hm Hc].
  split; [exact Hm |]. split; [by left |]. right.
  destruct (reachable_wf _ demo_warm_reachable) as (Hmb & _).
  rewrite (proj1 demo_warm_frame), (proj1 (proj2 demo_warm_frame)) in Hmb.
  apply Hmb in Hk as ([x y] & Hin & -> & _).
  apply elem_of_grid_cells in Hin as [Hx Hy]. cbn in Hx, Hy.
  assert (Cx : x = -1 \/ x = 0 \/ x = 1) by lia.
  assert (Cy : y = -1 \/ y = 0 \/ y = 1) by lia.
  destruct Cx as [-> | [-> | ->]]; destruct Cy as [-> | [-> | ->]];
    cbn; repeat (first [apply list_elem_of_here | apply list_elem_of_further]).
Qed.

Lemma collect_completes_map_witness :
  reachable demo_warm
  /\ collect_terrain_data [] demo_rasters demo_warm = Ok demo_full
  /\ (forall k rel l,
        map_grid_block2coords demo_warm !! k = Some rel ->
        block_grid_tracker demo_warm !! rel = Some l ->
        has_crater_metadata (deref (blocks demo_warm) l) = true
        /\ (has_crater_data (deref (blocks demo_warm) l) = true
            \/ k ∈ ([] : list (coord * Np.ndarray)).*1)
        /\ (has_terrain_data (deref (blocks demo_warm) l) = true
            \/ k ∈ demo_rasters.*1))
  /\ is_map_done demo_full = Ok true.
Proof.
  split; [exact demo_warm_reachable |]. split; [exact demo_full_eq |].
  split; [exact demo_warm_missing |].
  exact (collect_completes_map [] demo_rasters demo_warm demo_full
           demo_warm_reachable demo_full_eq demo_warm_missing).
Defined.

(** X10: a collection allocates nothing and leaves the tracker, the map, the
    crater metadata flags and the padding flags alone; it sets
    has_crater_data of exactly the objects a crater result names and
    has_terrain_data of exactly the objects a terrain result names, and
    never clears a flag. *)
Theorem collect_sets_flags
    (crater_results terrain_results : list (coord * Np.ndarray))
    (self self' : HighResDEMGen) :
  collect_terrain_data crater_results terrain_results self = Ok self' ->
  block_grid_tracker self' = block_grid_tracker self
  /\ map_grid_block2coords self' = map_grid_block2coords self
  /\ length (blocks self') = length (blocks self)
  /\ forall l b, blocks self !! l = Some b ->
       exists b', blocks self' !! l = Some b'
         /\ has_crater_metadata b' = has_crater_metadata b
         /\ is_padding b' = is_padding b
         /\ (has_crater_data b' = true
             <-> has_crater_data b = true
                 \/ collected_at self crater_results l)
         /\ (has_terrain_data b' = true
             <-> has_terrain_data b = true
                 \/ collected_at self terrain_results l).
Proof. apply collect_flags. Qed.

Lemma collect_sets_flags_witness :
  collect_terrain_data [] [((0, 0), ramp)] demo_warm = Ok demo_center
  /\ block_grid_tracker demo_center = block_grid_tracker demo_warm
  /\ map_grid_block2coords demo_center = map_grid_block2coords demo_warm
  /\ length (blocks demo_center) = length (blocks demo_warm)
  /\ forall l b, blocks demo_warm !! l = Some b ->
       exists b', blocks demo_center !! l = Some b'
         /\ has_crater_metadata b' = has_crater_metadata b
         /\ is_padding b' = is_padding b
         /\ (has_crater_data b' = true
             <-> has_crater_data b = true
                 \/ collected_at demo_warm [] l)
         /\ (has_terrain_data b' = true
             <-> has_terrain_data b = true
                 \/ collected_at demo_warm [((0, 0), ramp)] l).
Proof.
  split; [exact demo_center_eq |].
  exact (collect_sets_flags [] [((0, 0), ramp)] demo_warm demo_center
           demo_center_eq).
Defined.

(** X11: a result for a block that is not in the window makes the
    collection raise KeyError, whether it comes from the crater workers or
    from the interpolation workers. *)
Theorem collect_stale_result_raises (self : HighResDEMGen) (k : coord)
    (d : Np.ndarray)
    (crater_results terrain_results : list (coord * Np.ndarray)) :
  reachable self ->
  map_grid_block2coords self !! k = None ->
  collect_terrain_data ((k, d) :: crater_results) terrain_results self
  = Raise KeyError
  /\ collect_terrain_data [] ((k, d) :: terrain_results) self
     = Raise KeyError.
Proof.
  intros Hr Hk. apply collect_stale; [| exact Hk].
  by destruct (reachable_buffer_ok _ Hr).
Qed.

Lemma collect_stale_result_raises_witness :
  reachable demo_shifted
  /\ map_grid_block2coords demo_shifted !! (-50, 0) = None
  /\ collect_terrain_data [((-50, 0), ramp)] [] demo_shifted = Raise KeyError
  /\ collect_terrain_data [] [((-50, 0), ramp)] demo_shifted = Raise KeyError.
Proof.
  assert (Hk : map_grid_block2coords demo_shifted !! (-50, 0) = None)
    by (vm_compute; reflexivity).
  split; [exact demo_shifted_reachable |]. split; [exact Hk |].
  exact (collect_stale_result_raises demo_shifted (-50, 0) ramp [] []
           demo_shifted_reachable Hk).
Defined.

(** X12: generate_terrain_blocks does not raise in a reachable state, and
    it sends a crater job for exactly the blocks of the window without
    crater data and a terrain job for exactly those without terrain data,
    under their absolute coordinates. *)
Theorem generate_terrain_blocks_requests (self : HighResDEMGen) :
  reachable self ->
  exists sent,
    generate_terrain_blocks self = Ok sent
    /\ forall j k, (j, k) ∈ sent <->
         exists rel l,
           map_grid_block2coords self !! k = Some rel
           /\ block_grid_tracker self !! rel = Some l
           /\ lacks j (deref (blocks self) l).
Proof.
  intros Hr. apply (generate_terrain_blocks_sent self _ (reachable_wf _ Hr)).
Qed.

Lemma generate_terrain_blocks_requests_witness :
  reachable demo_center
  /\ exists sent,
       generate_terrain_blocks demo_center = Ok sent
       /\ forall j k, (j, k) ∈ sent <->
            exists rel l,
              map_grid_block2coords demo_center !! k = Some rel
              /\ block_grid_tracker demo_center !! rel = Some l
              /\ lacks j (deref (blocks demo_center) l).
Proof.
  split; [exact demo_center_reachable |].
  exact (generate_terrain_blocks_requests demo_center demo_center_reachable).
Defined.

(** X13: with crater generation disabled every block has its crater flags
    set from the start, so no crater job is ever sent. *)
Theorem no_crater_jobs_when_disabled (self : HighResDEMGen) :
  reachable self ->
  generate_craters (settings self) = false ->
  (forall rel l, block_grid_tracker self !! rel = Some l ->
     has_crater_metadata (deref (blocks self) l) = true
     /\ has_crater_data (deref (blocks self) l) = true)
  /\ exists sent,
       generate_terrain_blocks self = Ok sent
       /\ forall j k, (j, k) ∈ sent -> j = TerrainJob.
Proof.
  intros Hr Hgc. split.
  - intros rel l Hl. by apply (craters_off_flags self rel l).
  - destruct (generate_terrain_blocks_sent self _ (reachable_wf _ Hr))
      as (sent & E & Hs).
    exists sent. split; [exact E |].
    intros [] k Hin; [| reflexivity].
    apply Hs in Hin as (rel & l & _ & Hl & Hlk).
    destruct (craters_off_flags self rel l Hr Hgc Hl) as [_ Hc].
    cbn in Hlk. congruence.
Qed.

Lemma no_crater_jobs_when_disabled_witness :
  reachable demo_shifted
  /\ generate_craters (settings demo_shifted) = false
  /\ (forall rel l, block_grid_tracker demo_shifted !! rel = Some l ->
        has_crater_metadata (deref (blocks demo_shifted) l) = true
        /\ has_crater_data (deref (blocks demo_shifted) l) = true)
  /\ exists sent,
       generate_terrain_blocks demo_shifted = Ok sent
       /\ forall j k, (j, k) ∈ sent -> j = TerrainJob.
Proof.
  assert (Hgc : generate_craters (settings demo_shifted) = false).
  { rewrite (proj1 demo_shifted_frame). reflexivity. }
  split; [exact demo_shifted_reachable |]. split; [exact Hgc |].
  exact (no_crater_jobs_when_disabled demo_shifted demo_shifted_reachable Hgc).
Defined.

(** X14: with crater generation enabled, after a shift the crater metadata
    flag of every block of the new window is the answer of the crater
    database for its absolute coordinate. *)
Theorem shift_sets_crater_metadata (db : coord -> bool)
    (self : HighResDEMGen) (coordinates : Q * Q) (self' : HighResDEMGen) :
  reachable self ->
  generate_craters (settings self) = true ->
  shift db self coordinates = Ok self' ->
  forall k rel l,
    map_grid_block2coords self' !! k = Some rel ->
    block_grid_tracker self' !! rel = Some l ->
    has_crater_metadata (deref (blocks self') l) = db k.
Proof.
  intros Hr Hgc H.
  apply (shift_crater_metadata db self coordinates self');
    [by apply reachable_wf | by apply reachable_tracker_inj | exact Hgc
    | exact H].
Qed.

Lemma shift_sets_crater_metadata_witness :
  reachable crater_init
  /\ generate_craters (settings crater_init) = true
  /\ shift column_db crater_init (60 # 1, 0)%Q = Ok crater_moved
  /\ forall k rel l,
       map_grid_block2coords crater_moved !! k = Some rel ->
       block_grid_tracker crater_moved !! rel = Some l ->
       has_crater_metadata (deref (blocks crater_moved) l) = column_db k.
Proof.
  assert (Hgc : generate_craters (settings crater_init) = true)
    by (vm_compute; reflexivity).
  split; [exact crater_init_reachable |]. split; [exact Hgc |].
  split; [exact crater_moved_eq |].
  exact (shift_sets_crater_metadata column_db crater_init (60 # 1, 0)%Q
           crater_moved crater_init_reachable Hgc crater_moved_eq).
Defined.

(** X15: two distinct slots of the tracker never hold the same block
    object. *)
Theorem tracker_slots_hold_distinct_blocks (self : HighResDEMGen)
    (k k' : coord) (l l' : nat) :
  reachable self ->
  k <> k' ->
  block_grid_tracker self !! k = Some l ->
  block_grid_tracker self !! k' = Some l' ->
  l <> l'.
Proof.
  intros Hr Hne Hk Hk' ->. apply Hne.
  by apply (reachable_tracker_inj self Hr k k' l').
Qed.

Lemma tracker_slots_hold_distinct_blocks_witness :
  reachable demo_shifted
  /\ (0, 0) <> (50, 0)
  /\ block_grid_tracker demo_shifted !! (0, 0) = Some 7%nat
  /\ block_grid_tracker demo_shifted !! (50, 0) = Some 10%nat
  /\ 7%nat <> 10%nat.
Proof.
  assert (Hne : (0, 0) <> (50, 0)) by (intros H; discriminate H).
  assert (H0 : block_grid_tracker demo_shifted !! (0, 0) = Some 7%nat)
    by (vm_compute; reflexivity).
  assert (H1 : block_grid_tracker demo_shifted !! (50, 0) = Some 10%nat)
    by (vm_compute; reflexivity).
  split; [exact demo_shifted_reachable |]. split; [exact Hne |].
  split; [exact H0 |]. split; [exact H1 |].
  exact (tracker_slots_hold_distinct_blocks demo_shifted (0, 0) (50, 0)
           7 10 demo_shifted_reachable Hne H0 H1).
Defined.

Lemma shift_dem_compose_witness :
  let dem := Np.mk_ndarray 4 4 (fun i j => inject_Z (1 + 4 * i + j)) in
  ((0 <= 1 /\ 0 <= 2) \/ (1 <= 0 /\ 2 <= 0))
  /\ ((0 <= -1 /\ 0 <= 0) \/ (-1 <= 0 /\ 0 <= 0))
  /\ exists dem1 dem2 dem12,
       shift_dem dem (1, -1) = Ok dem1
       /\ shift_dem dem1 (2, 0) = Ok dem2
       /\ shift_dem dem (1 + 2, -1 + 0) = Ok dem12
       /\ forall i j, Np.in_bounds dem i j ->
            Np.cell dem2 i j = Np.cell dem12 i j.
Proof.
  intros dem.
  assert (Hx : (0 <= 1 /\ 0 <= 2) \/ (1 <= 0 /\ 2 <= 0)) by (left; lia).
  assert (Hy : (0 <= -1 /\ 0 <= 0) \/ (-1 <= 0 /\ 0 <= 0)) by (right; lia).
  split; [exact Hx |]. split; [exact Hy |].
  exact (shift_dem_compose dem 1 (-1) 2 0 Hx Hy).
Defined.

(** X18: a shift that returns has moved the buffer by the pixel shift it
    computed: the sample that was at (i - dx, j - dy) is now at (i, j), and
    a sample on which nothing lands is zero. The crater metadata and the
    work sent to the workers leave the buffer alone. *)
Theorem shift_moves_samples (db : coord -> bool) (self : HighResDEMGen)
    (coords : Q * Q) (self' : HighResDEMGen) :
  reachable self ->
  shift db self coords = Ok self' ->
  exists dx dy,
    pixel_shift self coords = Ok (dx, dy)
    /\ shift_dem (high_res_dem self) (dx, dy) = Ok (high_res_dem self')
    /\ Np.shape0 (high_res_dem self') = Np.shape0 (high_res_dem self)
    /\ Np.shape1 (high_res_dem self') = Np.shape1 (high_res_dem self)
    /\ forall i j, Np.in_bounds (high_res_dem self) i j ->
         Np.cell (high_res_dem self') i j
         = moved (high_res_dem self) dx dy i j.
Proof.
  intros Hr H.
  destruct (shift_Ok_inv db self coords self' (reachable_wf _ Hr) H)
    as (nb & [dx dy] & h & nt & nm & dem & _ & Hps & _ & Hdem & _ & _ & _ & _
        & _ & Hself').
  assert (Hd : high_res_dem self' = dem).
  { destruct (generate_craters (settings self)).
    - by destruct Hself' as (h' & _ & _ & _ & ->).
    - by subst self'. }
  rewrite Hd. exists dx, dy. split; [exact Hps |]. split; [exact Hdem |].
  destruct (shift_dem_moved (high_res_dem self) dx dy)
    as (dem' & E & S0 & S1 & Hc).
  rewrite Hdem in E. apply Ok_inj in E. subst dem'. by split_and!.
Qed.

Lemma shift_moves_samples_witness :
  reachable demo_center
  /\ shift no_db demo_center (60, 0)%Q = Ok demo_shifted
  /\ exists dx dy,
       pixel_shift demo_center (60, 0)%Q = Ok (dx, dy)
       /\ shift_dem (high_res_dem demo_center) (dx, dy)
          = Ok (high_res_dem demo_shifted)
       /\ Np.shape0 (high_res_dem demo_shifted)
          = Np.shape0 (high_res_dem demo_center)
       /\ Np.shape1 (high_res_dem demo_shifted)
          = Np.shape1 (high_res_dem demo_center)
       /\ forall i j, Np.in_bounds (high_res_dem demo_center) i j ->
            Np.cell (high_res_dem demo_shifted) i j
            = moved (high_res_dem demo_center) dx dy i j.
Proof.
  split; [exact demo_center_reachable |]. split; [exact demo_shifted_eq |].
  exact (shift_moves_samples no_db demo_center (60, 0)%Q demo_shifted
           demo_center_reachable demo_shifted_eq).
Defined.

Lemma get_low_res_dem_offset_Ok_inv cfg lr low_res_dem off :
  get_low_res_dem_offset cfg lr low_res_dem = Ok off ->
  ~ (source_resolution lr == 0)%Q
  /\ lr_dem_px_offset off
     = (Np.shape0 low_res_dem / 2, Np.shape1 low_res_dem / 2)
  /\ lr_dem_block_size off
     = py_int (inject_Z (block_size cfg) / source_resolution lr).
Proof.
  intros H. unfold get_low_res_dem_offset in H.
  apply bind_Ok_inv in H as (ratio & _ & H).
  apply bind_Ok_inv in H as (size & Hsize & H).
  pose proof (py_div_Ok_inv _ _ _ Hsize) as Hsrc.
  rewrite py_div_nonzero in Hsize by exact Hsrc. apply Ok_inj in Hsize.
  apply Ok_inj in H. subst off size. by split_and!.
Qed.

Lemma demo_offsets_eq :
  get_low_res_dem_offset demo_cfg demo_lr demo_low_res = Ok demo_offsets.
Proof. vm_compute. reflexivity. Qed.

(** X21: for a block whose padded footprint lies inside the low resolution
    DEM, querry_low_res_dem returns the square patch of side
    lr_dem_block_size + 2 * interpolation_padding that starts
    interpolation_padding samples before the sample of the block
    coordinate. *)
Theorem querry_low_res_dem_interior (cfg : HighResDEMCfg) (lr : LowResCfg)
    (low_res_dem : Np.ndarray) (off : LowResOffsets) (coordinates : Q * Q)
    (x y : Z) :
  get_low_res_dem_offset cfg lr low_res_dem = Ok off ->
  lr_dem_coordinate lr (Np.shape0 low_res_dem / 2) coordinates.1 = Ok x ->
  lr_dem_coordinate lr (Np.shape1 low_res_dem / 2) coordinates.2 = Ok y ->
  0 <= patch_side lr off ->
  0 <= x - interpolation_padding lr ->
  x - interpolation_padding lr + patch_side lr off <= Np.shape0 low_res_dem ->
  0 <= y - interpolation_padding lr ->
  y - interpolation_padding lr + patch_side lr off <= Np.shape1 low_res_dem ->
  exists patch,
    querry_low_res_dem lr off low_res_dem coordinates = Ok patch
    /\ Np.shape0 patch = patch_side lr off
    /\ Np.shape1 patch = patch_side lr off
    /\ forall i j,
         Np.cell patch i j
         = Np.cell low_res_dem (x - interpolation_padding lr + i)
             (y - interpolation_padding lr + j).
Proof.
  intros Hoff Hx Hy Hside Hx0 Hx1 Hy0 Hy1.
  destruct (get_low_res_dem_offset_Ok_inv _ _ _ _ Hoff) as (Hsrc & Hpx & _).
  destruct (querry_low_res_dem_Ok lr off low_res_dem coordinates Hsrc)
    as (x' & y' & Ex & Ey & E).
  rewrite Hpx in Ex, Ey. cbn [fst snd] in Ex, Ey.
  rewrite Hx in Ex. rewrite Hy in Ey.
  apply Ok_inj in Ex. apply Ok_inj in Ey. subst x' y'.
  eexists. split; [exact E |].
  destruct (slice_inside (Np.shape0 low_res_dem)
              (x - interpolation_padding lr) (patch_side lr off))
    as [L0 E0]; try assumption.
  destruct (slice_inside (Np.shape1 low_res_dem)
              (y - interpolation_padding lr) (patch_side lr off))
    as [L1 E1]; try assumption.
  cbn [Np.getslice Np.shape0 Np.shape1 Np.cell].
  rewrite L0, L1, E0, E1. by split_and!.
Qed.

Lemma querry_low_res_dem_interior_witness :
  get_low_res_dem_offset demo_cfg demo_lr demo_low_res = Ok demo_offsets
  /\ lr_dem_coordinate demo_lr (Np.shape0 demo_low_res / 2) 0 = Ok 50
  /\ lr_dem_coordinate demo_lr (Np.shape1 demo_low_res / 2) (50 # 1) = Ok 60
  /\ 0 <= patch_side demo_lr demo_offsets
  /\ 0 <= 50 - interpolation_padding demo_lr
  /\ 50 - interpolation_padding demo_lr + patch_side demo_lr demo_offsets
     <= Np.shape0 demo_low_res
  /\ 0 <= 60 - interpolation_padding demo_lr
  /\ 60 - interpolation_padding demo_lr + patch_side demo_lr demo_offsets
     <= Np.shape1 demo_low_res
  /\ exists patch,
       querry_low_res_dem demo_lr demo_offsets demo_low_res (0, 50 # 1)%Q
       = Ok patch
       /\ Np.shape0 patch = patch_side demo_lr demo_offsets
       /\ Np.shape1 patch = patch_side demo_lr demo_offsets
       /\ forall i j,
            Np.cell patch i j
            = Np.cell demo_low_res (50 - interpolation_padding demo_lr + i)
                (60 - interpolation_padding demo_lr + j).
Proof.
  assert (Hx : lr_dem_coordinate demo_lr (Np.shape0 demo_low_res / 2) 0
               = Ok 50) by (vm_compute; reflexivity).
  assert (Hy : lr_dem_coordinate demo_lr (Np.shape1 demo_low_res / 2)
                 (50 # 1) = Ok 60) by (vm_compute; reflexivity).
  assert (H0 : 0 <= patch_side demo_lr demo_offsets)
    by (intros H; discriminate H).
  assert (H1 : 0 <= 50 - interpolation_padding demo_lr)
    by (intros H; discriminate H).
  assert (H2 : 50 - interpolation_padding demo_lr
               + patch_side demo_lr demo_offsets <= Np.shape0 demo_low_res)
    by (intros H; discriminate H).
  assert (H3 : 0 <= 60 - interpolation_padding demo_lr)
    by (intros H; discriminate H).
  assert (H4 : 60 - interpolation_padding demo_lr
               + patch_side demo_lr demo_offsets <= Np.shape1 demo_low_res)
    by (intros H; discriminate H).
  split; [exact demo_offsets_eq |]. split; [exact Hx |]. split; [exact Hy |].
  split; [exact H0 |]. split; [exact H1 |]. split; [exact H2 |].
  split; [exact H3 |]. split; [exact H4 |].
  exact (querry_low_res_dem_interior demo_cfg demo_lr demo_low_res
           demo_offsets (0, 50 # 1)%Q 50 60 demo_offsets_eq Hx Hy
           H0 H1 H2 H3 H4).
Defined.

(** X22: for a block whose padded footprint starts before the first row of
    the low resolution DEM and ends inside it, querry_low_res_dem raises
    nothing and returns a patch without rows. *)
Theorem querry_low_res_dem_low_edge_empty (cfg : HighResDEMCfg)
    (lr : LowResCfg) (low_res_dem : Np.ndarray) (off : LowResOffsets)
    (coordinates : Q * Q) (x : Z) :
  get_low_res_dem_offset cfg lr low_res_dem = Ok off ->
  lr_dem_coordinate lr (Np.shape0 low_res_dem / 2) coordinates.1 = Ok x ->
  x - interpolation_padding lr < 0 ->
  0 <= x - interpolation_padding lr + patch_side lr off ->
  patch_side lr off <= Np.shape0 low_res_dem ->
  exists patch,
    querry_low_res_dem lr off low_res_dem coordinates = Ok patch
    /\ Np.shape0 patch = 0.
Proof.
  intros Hoff Hx Hx0 Hx1 Hside.
  destruct (get_low_res_dem_offset_Ok_inv _ _ _ _ Hoff) as (Hsrc & Hpx & _).
  destruct (querry_low_res_dem_Ok lr off low_res_dem coordinates Hsrc)
    as (x' & y' & Ex & Ey & E).
  rewrite Hpx in Ex. cbn [fst snd] in Ex.
  rewrite Hx in Ex. apply Ok_inj in Ex. subst x'.
  eexists. split; [exact E |].
  cbn [Np.getslice Np.shape0]. by apply slice_straddles.
Qed.

Lemma querry_low_res_dem_low_edge_empty_witness :
  get_low_res_dem_offset demo_cfg demo_lr demo_low_res = Ok demo_offsets
  /\ lr_dem_coordinate demo_lr (Np.shape0 demo_low_res / 2) (-250 # 1) = Ok 0
  /\ 0 - interpolation_padding demo_lr < 0
  /\ 0 <= 0 - interpolation_padding demo_lr + patch_side demo_lr demo_offsets
  /\ patch_side demo_lr demo_offsets <= Np.shape0 demo_low_res
  /\ exists patch,
       querry_low_res_dem demo_lr demo_offsets demo_low_res (-250 # 1, 0)%Q
       = Ok patch
       /\ Np.shape0 patch = 0.
Proof.
  assert (Hx : lr_dem_coordinate demo_lr (Np.shape0 demo_low_res / 2)
                 (-250 # 1) = Ok 0) by (vm_compute; reflexivity).
  assert (H0 : 0 - interpolation_padding demo_lr < 0) by reflexivity.
  assert (H1 : 0 <= 0 - interpolation_padding demo_lr
                    + patch_side demo_lr demo_offsets)
    by (intros H; discriminate H).
  assert (H2 : patch_side demo_lr demo_offsets <= Np.shape0 demo_low_res)
    by (intros H; discriminate H).
  split; [exact demo_offsets_eq |]. split; [exact Hx |].
  split; [exact H0 |]. split; [exact H1 |]. split; [exact H2 |].
  exact (querry_low_res_dem_low_edge_empty demo_cfg demo_lr demo_low_res
           demo_offsets (-250 # 1, 0)%Q 0 demo_offsets_eq Hx H0 H1 H2).
Defined.

(** X23: for a block whose padded footprint lies before the first row of
    the low resolution DEM, querry_low_res_dem raises nothing and returns a
    full patch read from the other end of the DEM. *)
Theorem querry_low_res_dem_wraps (cfg : HighResDEMCfg) (lr : LowResCfg)
    (low_res_dem : Np.ndarray) (off : LowResOffsets) (coordinates : Q * Q)
    (x y : Z) :
  get_low_res_dem_offset cfg lr low_res_dem = Ok off ->
  lr_dem_coordinate lr (Np.shape0 low_res_dem / 2) coordinates.1 = Ok x ->
  lr_dem_coordinate lr (Np.shape1 low_res_dem / 2) coordinates.2 = Ok y ->
  0 <= patch_side lr off ->
  - Np.shape0 low_res_dem <= x - interpolation_padding lr ->
  x - interpolation_padding lr + patch_side lr off < 0 ->
  0 <= y - interpolation_padding lr ->
  y - interpolation_padding lr + patch_side lr off <= Np.shape1 low_res_dem ->
  exists patch,
    querry_low_res_dem lr off low_res_dem coordinates = Ok patch
    /\ Np.shape0 patch = patch_side lr off
    /\ Np.shape1 patch = patch_side lr off
    /\ forall i j,
         Np.cell patch i j
         = Np.cell low_res_dem
             (x - interpolation_padding lr + Np.shape0 low_res_dem + i)
             (y - interpolation_padding lr + j).
Proof.
  intros Hoff Hx Hy Hside Hx0 Hx1 Hy0 Hy1.
  destruct (get_low_res_dem_offset_Ok_inv _ _ _ _ Hoff) as (Hsrc & Hpx & _).
  destruct (querry_low_res_dem_Ok lr off low_res_dem coordinates Hsrc)
    as (x' & y' & Ex & Ey & E).
  rewrite Hpx in Ex, Ey. cbn [fst snd] in Ex, Ey.
  rewrite Hx in Ex. rewrite Hy in Ey.
  apply Ok_inj in Ex. apply Ok_inj in Ey. subst x' y'.
  eexists. split; [exact E |].
  destruct (slice_wraps (Np.shape0 low_res_dem)
              (x - interpolation_padding lr) (patch_side lr off))
    as [L0 E0]; try assumption.
  destruct (slice_inside (Np.shape1 low_res_dem)
              (y - interpolation_padding lr) (patch_side lr off))
    as [L1 E1]; try assumption.
  cbn [Np.getslice Np.shape0 Np.shape1 Np.cell].
  rewrite L0, L1, E0, E1. by split_and!.
Qed.

Lemma querry_low_res_dem_wraps_witness :
  get_low_res_dem_offset demo_cfg demo_lr demo_low_res = Ok demo_offsets
  /\ lr_dem_coordinate demo_lr (Np.shape0 demo_low_res / 2) (-350 # 1)
     = Ok (-20)
  /\ lr_dem_coordinate demo_lr (Np.shape1 demo_low_res / 2) 0 = Ok 50
  /\ 0 <= patch_side demo_lr demo_offsets
  /\ - Np.shape0 demo_low_res <= -20 - interpolation_padding demo_lr
  /\ -20 - interpolation_padding demo_lr + patch_side demo_lr demo_offsets < 0
  /\ 0 <= 50 - interpolation_padding demo_lr
  /\ 50 - interpolation_padding demo_lr + patch_side demo_lr demo_offsets
     <= Np.shape1 demo_low_res
  /\ exists patch,
       querry_low_res_dem demo_lr demo_offsets demo_low_res (-350 # 1, 0)%Q
       = Ok patch
       /\ Np.shape0 patch = patch_side demo_lr demo_offsets
       /\ Np.shape1 patch = patch_side demo_lr demo_offsets
       /\ forall i j,
            Np.cell patch i j
            = Np.cell demo_low_res
                (-20 - interpolation_padding demo_lr
                 + Np.shape0 demo_low_res + i)
                (50 - interpolation_padding demo_lr + j).
Proof.
  assert (Hx : lr_dem_coordinate demo_lr (Np.shape0 demo_low_res / 2)
                 (-350 # 1) = Ok (-20)) by (vm_compute; reflexivity).
  assert (Hy : lr_dem_coordinate demo_lr (Np.shape1 demo_low_res / 2) 0
               = Ok 50) by (vm_compute; reflexivity).
  assert (H0 : 0 <= patch_side demo_lr demo_offsets)
    by (intros H; discriminate H).
  assert (H1 : - Np.shape0 demo_low_res
               <= -20 - interpolation_padding demo_lr)
    by (intros H; discriminate H).
  assert (H2 : -20 - interpolation_padding demo_lr
               + patch_side demo_lr demo_offsets < 0) by reflexivity.
  assert (H3 : 0 <= 50 - interpolation_padding demo_lr)
    by (intros H; discriminate H).
  assert (H4 : 50 - interpolation_padding demo_lr
               + patch_side demo_lr demo_offsets <= Np.shape1 demo_low_res)
    by (intros H; discriminate H).
  split; [exact demo_offsets_eq |]. split; [exact Hx |]. split; [exact Hy |].
  split; [exact H0 |]. split; [exact H1 |]. split; [exact H2 |].
  split; [exact H3 |]. split; [exact H4 |].
  exact (querry_low_res_dem_wraps demo_cfg demo_lr demo_low_res
           demo_offsets (-350 # 1, 0)%Q (-20) 50 demo_offsets_eq Hx Hy
           H0 H1 H2 H3 H4).
Defined.

(** X24: the region sampled for craters contains every block of the
    window, with a margin of one block on its low sides; on the high sides
    the outermost blocks end on the border of the region. *)
Theorem crater_region_covers_window (self : HighResDEMGen) :
  reachable self ->
  0 <= block_size (settings self) ->
  -1 <= num_blocks (settings self) ->
  (forall k rel, map_grid_block2coords self !! k = Some rel ->
     block_inside (settings self) (crater_region self)
       (block_size (settings self)) k)
  /\ exists k, is_Some (map_grid_block2coords self !! k)
       /\ k.1 + block_size (settings self) = x_max (crater_region self)
       /\ k.2 + block_size (settings self) = y_max (crater_region self).
Proof.
  intros Hr Hbs Hn. destruct (reachable_wf _ Hr) as (Hm & _). split.
  - intros k rel Hk. apply Hm in Hk as ([x y] & Hin & -> & _).
    apply elem_of_grid_cells in Hin as [Hx Hy].
    unfold block_inside, crater_region, abs_of. cbn. nia.
  - set (n := num_blocks (settings self)).
    exists (abs_of (settings self) (current_block_coord self) (n + 1, n + 1)).
    split_and!.
    + eexists. apply Hm. exists (n + 1, n + 1). split_and!; try reflexivity.
      apply elem_of_grid_cells. unfold n. lia.
    + unfold crater_region, abs_of. cbn. fold n. ring.
    + unfold crater_region, abs_of. cbn. fold n. ring.
Qed.

Lemma crater_region_covers_window_witness :
  reachable crater_init
  /\ 0 <= block_size (settings crater_init)
  /\ -1 <= num_blocks (settings crater_init)
  /\ (forall k rel, map_grid_block2coords crater_init !! k = Some rel ->
        block_inside (settings crater_init) (crater_region crater_init)
          (block_size (settings crater_init)) k)
  /\ exists k, is_Some (map_grid_block2coords crater_init !! k)
       /\ k.1 + block_size (settings crater_init)
          = x_max (crater_region crater_init)
       /\ k.2 + block_size (settings crater_init)
          = y_max (crater_region crater_init).
Proof.
  assert (Hbs : 0 <= block_size (settings crater_init))
    by (vm_compute; intros H; discriminate H).
  assert (Hn : -1 <= num_blocks (settings crater_init))
    by (vm_compute; intros H; discriminate H).
  split; [exact crater_init_reachable |]. split; [exact Hbs |].
  split; [exact Hn |].
  exact (crater_region_covers_window crater_init crater_init_reachable
           Hbs Hn).
Defined.

(** X25: after construction with a nonzero block size, the padding flag of
    every slot tells whether the slot is in the outermost ring of the
    window, and every slot holds a block without data. *)
Theorem init_padding_follows_ring (cfg : HighResDEMCfg)
    (self : HighResDEMGen) :
  block_size cfg <> 0 ->
  init cfg = Ok self ->
  padding_follows_ring self /\ all_empty self.
Proof.
  intros Hbs H.
  apply init_Ok_inv in H as (h & t & m & side & Hb & _ & _ & ->).
  apply (build_block_grid_ring (blank cfg) _ Hbs) in Hb. exact Hb.
Qed.

Lemma init_padding_follows_ring_witness :
  block_size demo_cfg <> 0
  /\ init demo_cfg = Ok demo_init
  /\ padding_follows_ring demo_init /\ all_empty demo_init.
Proof.
  assert (Hbs : block_size demo_cfg <> 0) by (intros H; discriminate H).
  split; [exact Hbs |]. split; [exact demo_init_eq |].
  exact (init_padding_follows_ring demo_cfg demo_init Hbs demo_init_eq).
Defined.

(** X26: the current block coordinate of a reachable state is a corner of
    the lattice of blocks: a multiple of the block size on both axes. *)
Theorem current_block_on_lattice (self : HighResDEMGen) :
  reachable self ->
  exists kx ky,
    current_block_coord self
    = (kx * block_size (settings self), ky * block_size (settings self)).
Proof. intros Hr. exact (reachable_on_lattice self Hr). Qed.

Lemma current_block_on_lattice_witness :
  reachable demo_shifted
  /\ exists kx ky,
       current_block_coord demo_shifted
       = (kx * block_size (settings demo_shifted),
          ky * block_size (settings demo_shifted)).
Proof.
  split; [exact demo_shifted_reachable |].
  exact (current_block_on_lattice demo_shifted demo_shifted_reachable).
Defined.

(** X27: the buffer of a reachable state is the square of side
    int((num_blocks * 2 + 3) * block_size / resolution) it was built with:
    no update, shift or collection resizes it. *)
Theorem buffer_shape_invariant (self : HighResDEMGen) :
  reachable self ->
  dem_side (settings self) = Ok (Np.shape0 (high_res_dem self))
  /\ Np.shape1 (high_res_dem self) = Np.shape0 (high_res_dem self).
Proof. apply reachable_shape. Qed.

Lemma buffer_shape_invariant_witness :
  reachable demo_shifted
  /\ dem_side (settings demo_shifted)
     = Ok (Np.shape0 (high_res_dem demo_shifted))
  /\ Np.shape1 (high_res_dem demo_shifted)
     = Np.shape0 (high_res_dem demo_shifted).
Proof.
  split; [exact demo_shifted_reachable |].
  exact (buffer_shape_invariant demo_shifted demo_shifted_reachable).
Defined.

(** X3: when building the grid, the buffer and the offsets of the low
    resolution DEM returns, neither resolution is zero; the generator is
    cold and centered on (0, 0); its buffer is a square of zeros whose
    side, not negative, is the value of
    int((num_blocks * 2 + 3) * block_size / resolution); and the offsets
    are the halved shape of the low resolution DEM, the quotient
    source_resolution / resolution and int(block_size / source_resolution). *)
Theorem build_outcome (cfg : HighResDEMCfg) (lr : LowResCfg)
    (low_res_dem : Np.ndarray) (self : HighResDEMGen) (off : LowResOffsets) :
  build cfg lr low_res_dem = Ok (self, off) ->
  ~ (resolution cfg == 0)%Q
  /\ ~ (source_resolution lr == 0)%Q
  /\ settings self = cfg
  /\ current_block_coord self = (0, 0)
  /\ sim_is_warm self = false
  /\ dem_side cfg = Ok (Np.shape0 (high_res_dem self))
  /\ 0 <= Np.shape0 (high_res_dem self)
  /\ Np.shape1 (high_res_dem self) = Np.shape0 (high_res_dem self)
  /\ (forall i j, Np.cell (high_res_dem self) i j = 0%Q)
  /\ lr_dem_px_offset off
     = (Np.shape0 low_res_dem / 2, Np.shape1 low_res_dem / 2)
  /\ py_div (source_resolution lr) (resolution cfg) = Ok (lr_dem_ratio off)
  /\ exists size,
       py_div (inject_Z (block_size cfg)) (source_resolution lr) = Ok size
       /\ lr_dem_block_size off = py_int size.
Proof.
  intros H. unfold build in H.
  apply bind_Ok_inv in H as (self0 & E & H).
  apply bind_Ok_inv in H as (off0 & Eo & H).
  apply Ok_inj in H. injection H as -> ->.
  destruct (init_frame cfg self E) as (Hset & Hcur & Hwarm).
  destruct (init_Ok_inv cfg self E)
    as (h & t & m & side & _ & Hside & Hpos & Es).
  assert (Hres : ~ (resolution cfg == 0)%Q).
  { unfold dem_side in Hside.
    apply bind_Ok_inv in Hside as (q & Hq & _).
    exact (py_div_Ok_inv _ _ _ Hq). }
  unfold get_low_res_dem_offset in Eo.
  apply bind_Ok_inv in Eo as (ratio & Hratio & Eo).
  apply bind_Ok_inv in Eo as (size & Hsize & Eo).
  apply Ok_inj in Eo. subst off. cbn.
  split_and!; try assumption; try (by rewrite Es); try reflexivity.
  - exact (py_div_Ok_inv _ _ _ Hsize).
  - by exists size.
Qed.

Lemma demo_build_eq :
  build demo_cfg demo_lr demo_low_res = Ok (demo_init, demo_offsets).
Proof.
  unfold build. rewrite demo_init_eq, bind_Ok, demo_offsets_eq. reflexivity.
Qed.

Lemma build_outcome_witness :
  build demo_cfg demo_lr demo_low_res = Ok (demo_init, demo_offsets)
  /\ ~ (resolution demo_cfg == 0)%Q
  /\ ~ (source_resolution demo_lr == 0)%Q
  /\ settings demo_init = demo_cfg
  /\ current_block_coord demo_init = (0, 0)
  /\ sim_is_warm demo_init = false
  /\ dem_side demo_cfg = Ok (Np.shape0 (high_res_dem demo_init))
  /\ 0 <= Np.shape0 (high_res_dem demo_init)
  /\ Np.shape1 (high_res_dem demo_init) = Np.shape0 (high_res_dem demo_init)
  /\ (forall i j, Np.cell (high_res_dem demo_init) i j = 0%Q)
  /\ lr_dem_px_offset demo_offsets
     = (Np.shape0 demo_low_res / 2, Np.shape1 demo_low_res / 2)
  /\ py_div (source_resolution demo_lr) (resolution demo_cfg)
     = Ok (lr_dem_ratio demo_offsets)
  /\ exists size,
       py_div (inject_Z (block_size demo_cfg)) (source_resolution demo_lr)
       = Ok size
       /\ lr_dem_block_size demo_offsets = py_int size.
Proof.
  split; [exact demo_build_eq |].
  exact (build_outcome demo_cfg demo_lr demo_low_res demo_init demo_offsets
           demo_build_eq).
Defined.

Lemma collected_reachable self self' :
  reachable self -> collected self self' -> reachable self'.
Proof.
  intros Hr Hc. induction Hc as [| cr tr self self1 self2 _ IH H];
    [exact Hr |].
  by apply (reach_collect cr tr self1 self2 (IH Hr)).
Qed.

Lemma collected_cons cr tr self self1 self' :
  collect_terrain_data cr tr self = Ok self1 ->
  collected self1 self' -> collected self self'.
Proof.
  intros H1 Hc. induction Hc as [s | cr' tr' s s1 s2 _ IHc H'].
  - apply (collected_step cr tr self self s);
      [apply collected_refl | exact H1].
  - apply (collected_step cr' tr' self s1 s2); [| exact H'].
    by apply IHc.
Qed.

Lemma threaded_update_done batches self self' :
  threaded_high_res_dem_update batches self = Ok (Some self') ->
  is_map_done self' = Ok true /\ collected self self'.
Proof.
  revert self. induction batches as [| [cr tr] rest IH]; intros self H.
  - cbn in H. apply bind_Ok_inv in H as (b & Hb & H).
    destruct b; [| discriminate H].
    apply Ok_inj in H. injection H as <-.
    split; [exact Hb | apply collected_refl].
  - cbn in H. apply bind_Ok_inv in H as (b & Hb & H).
    destruct b.
    + apply Ok_inj in H. injection H as <-.
      split; [exact Hb | apply collected_refl].
    + apply bind_Ok_inv in H as (self1 & H1 & H).
      destruct (IH self1 H) as [Hd Hc]. split; [exact Hd |].
      by apply (collected_cons cr tr self self1).
Qed.

(** X28: when the update thread returns, the map is done and the state is
    the one it started in after some collection passes: the thread has not
    moved the window, and the tracker, the map and the shape of the buffer
    are unchanged. *)
Theorem threaded_update_returns_done
    (batches : list (list (coord * Np.ndarray) * list (coord * Np.ndarray)))
    (self self' : HighResDEMGen) :
  reachable self ->
  threaded_high_res_dem_update batches self = Ok (Some self') ->
  is_map_done self' = Ok true
  /\ reachable self'
  /\ collected self self'
  /\ same_frame self self'
  /\ block_grid_tracker self' = block_grid_tracker self
  /\ map_grid_block2coords self' = map_grid_block2coords self.
Proof.
  intros Hr H. destruct (threaded_update_done batches self self' H) as [Hd Hc].
  destruct (collected_frame self self' (reachable_wf _ Hr) Hc)
    as (_ & Hf & Ht & Hm).
  split_and!; try assumption. by apply (collected_reachable self).
Qed.

Lemma demo_threaded_eq :
  threaded_high_res_dem_update [([], demo_rasters)] demo_warm
  = Ok (Some demo_full).
Proof.
  assert (Hn : is_map_done demo_warm = Ok false) by (vm_compute; reflexivity).
  assert (Hd : is_map_done demo_full = Ok true) by (vm_compute; reflexivity).
  cbn [threaded_high_res_dem_update].
  rewrite Hn, bind_Ok, demo_full_eq, bind_Ok, Hd, bind_Ok. reflexivity.
Qed.

Lemma threaded_update_returns_done_witness :
  reachable demo_warm
  /\ threaded_high_res_dem_update [([], demo_rasters)] demo_warm
     = Ok (Some demo_full)
  /\ is_map_done demo_full = Ok true
  /\ reachable demo_full
  /\ collected demo_warm demo_full
  /\ same_frame demo_warm demo_full
  /\ block_grid_tracker demo_full = block_grid_tracker demo_warm
  /\ map_grid_block2coords demo_full = map_grid_block2coords demo_warm.
Proof.
  split; [exact demo_warm_reachable |]. split; [exact demo_threaded_eq |].
  exact (threaded_update_returns_done [([], demo_rasters)] demo_warm
           demo_full demo_warm_reachable demo_threaded_eq).
Defined.

(** ** The buffer during a collection *)

Lemma addslice_Ok_inv (a : Np.ndarray) (rs cs : Np.slice)
    (v dem : Np.ndarray) :
  Np.addslice a rs cs v = Ok dem ->
  Np.broadcastable (Np.shape0 v) (Np.extent rs (Np.shape0 a)) = true
  /\ Np.broadcastable (Np.shape1 v) (Np.extent cs (Np.shape1 a)) = true
  /\ Np.shape0 dem = Np.shape0 a
  /\ Np.shape1 dem = Np.shape1 a
  /\ forall i j,
       Np.selects rs (Np.shape0 a) i && Np.selects cs (Np.shape1 a) j = false ->
       Np.cell dem i j = Np.cell a i j.
Proof.
  unfold Np.addslice, Np.update_region. intros H.
  destruct (Np.broadcastable (Np.shape0 v) (Np.extent rs (Np.shape0 a))
            && Np.broadcastable (Np.shape1 v) (Np.extent cs (Np.shape1 a)))
    eqn:Hb; [| discriminate H].
  apply andb_prop in Hb as [Hb0 Hb1].
  apply Ok_inj in H. subst dem. cbn.
  split_and!; try done.
  intros i j Hsel. by rewrite Hsel.
Qed.

Lemma addslice_mismatch (a : Np.ndarray) (rs cs : Np.slice)
    (v : Np.ndarray) :
  Np.broadcastable (Np.shape0 v) (Np.extent rs (Np.shape0 a)) = false
  \/ Np.broadcastable (Np.shape1 v) (Np.extent cs (Np.shape1 a)) = false ->
  Np.addslice a rs cs v = Raise ValueError.
Proof.
  unfold Np.addslice, Np.update_region.
  intros [-> | ->]; [reflexivity | by rewrite andb_false_r].
Qed.

Lemma not_broadcastable (src tgt : Z) :
  src <> tgt -> src <> 1 -> Np.broadcastable src tgt = false.
Proof.
  intros H1 H2. unfold Np.broadcastable.
  destruct (Z.eqb_spec src tgt); [done |].
  by destruct (Z.eqb_spec src 1).
Qed.

Lemma collect_body_frame mark k data self self' :
  collect_body mark (collect_offset (settings self)) (k, data) self
  = Ok self' ->
  collect_frame self [(k, data)] self'.
Proof.
  intros H. apply collect_body_Ok_inv in H
    as (rel & l & dem & Hk & _ & _ & Hadd & ->).
  apply addslice_Ok_inv in Hadd as (Hb0 & Hb1 & S0 & S1 & Hcell).
  unfold collect_frame. cbn. split_and!; try done.
  - intros k' d Hin. apply list_elem_of_singleton in Hin.
    injection Hin as -> ->. exists rel. split; [exact Hk |]. by split.
  - intros i j Hout. apply Hcell.
    apply not_true_is_false. intros Hsel.
    apply andb_prop in Hsel as [Hs0 Hs1]. apply Hout.
    exists k, data, rel. split_and!; try done.
    by apply list_elem_of_singleton.
Qed.

Lemma collect_frame_nil self : collect_frame self [] self.
Proof.
  unfold collect_frame. split_and!; try done.
  intros k d Hin. by apply elem_of_nil in Hin.
Qed.

Lemma in_collected_region_ext self1 self2 results i j :
  settings self2 = settings self1 ->
  map_grid_block2coords self2 = map_grid_block2coords self1 ->
  Np.shape0 (high_res_dem self2) = Np.shape0 (high_res_dem self1) ->
  Np.shape1 (high_res_dem self2) = Np.shape1 (high_res_dem self1) ->
  in_collected_region self2 results i j ->
  in_collected_region self1 results i j.
Proof.
  intros Hs Hm H0 H1 (k & d & rel & Hin & Hk & Hi & Hj).
  rewrite Hs, Hm, ?H0, ?H1 in *. by exists k, d, rel.
Qed.

Lemma collect_frame_app self self1 self2 results1 results2 :
  collect_frame self results1 self1 ->
  collect_frame self1 results2 self2 ->
  collect_frame self (results1 ++ results2) self2.
Proof.
  intros (Hs & Hm & H0 & H1 & Hf & Hc) (Hs' & Hm' & H0' & H1' & Hf' & Hc').
  unfold collect_frame. split_and!; try congruence.
  - intros k d Hin. apply elem_of_app in Hin as [Hin | Hin].
    + by apply Hf.
    + destruct (Hf' k d Hin) as (rel & Hk & Hfit).
      exists rel. rewrite <- Hm. split; [exact Hk |].
      unfold fits_block in *. by rewrite <- Hs, <- H0, <- H1.
  - intros i j Hout. rewrite Hc', Hc; [reflexivity | |].
    + intros (k & d & rel & Hin & Hrest). apply Hout.
      exists k, d, rel. split; [| exact Hrest].
      apply elem_of_app. by left.
    + intros Hreg.
      apply (in_collected_region_ext self self1 results2 i j Hs Hm H0 H1)
        in Hreg.
      destruct Hreg as (k & d & rel & Hin & Hrest). apply Hout.
      exists k, d, rel. split; [| exact Hrest].
      apply elem_of_app. by right.
Qed.

Lemma collect_loop_frame mark results self self' :
  for_each (collect_body mark (collect_offset (settings self))) results self
  = Ok self' ->
  collect_frame self results self'.
Proof.
  revert self. induction results as [| [k data] rest IH]; intros self H.
  - apply Ok_inj in H. subst self'. apply collect_frame_nil.
  - cbn [for_each] in H.
    destruct (collect_body mark (collect_offset (settings self)) (k, data)
                self) as [e | self1] eqn:Hb; [discriminate H |].
    pose proof (collect_body_frame _ _ _ _ _ Hb) as Hf1.
    assert (Hs : settings self1 = settings self) by apply Hf1.
    rewrite <- Hs in H. apply IH in H.
    change ((k, data) :: rest) with ([(k, data)] ++ rest).
    by apply (collect_frame_app self self1 self').
Qed.

(** X19: when a collection returns, every result named a block of the
    window with a raster that fits the slices of that block (their length
    or 1 along each axis), the buffer has kept its shape, and every sample
    outside the slices of the collected blocks has kept its value. *)
Theorem collect_keeps_other_samples
    (crater_results terrain_results : list (coord * Np.ndarray))
    (self self' : HighResDEMGen) :
  collect_terrain_data crater_results terrain_results self = Ok self' ->
  Np.shape0 (high_res_dem self') = Np.shape0 (high_res_dem self)
  /\ Np.shape1 (high_res_dem self') = Np.shape1 (high_res_dem self)
  /\ (forall k d, (k, d) ∈ crater_results ++ terrain_results ->
        exists rel, map_grid_block2coords self !! k = Some rel
                    /\ fits_block self rel d)
  /\ (forall i j,
        ~ in_collected_region self (crater_results ++ terrain_results) i j ->
        Np.cell (high_res_dem self') i j = Np.cell (high_res_dem self) i j).
Proof.
  intros H.
  apply collect_terrain_data_Ok_inv in H as (_ & self1 & H1 & H2).
  cbn zeta in H1, H2.
  apply collect_loop_frame in H1.
  assert (Hs : settings self1 = settings self) by apply H1.
  change (py_int _) with (collect_offset (settings self)) in H2.
  rewrite <- Hs in H2. apply collect_loop_frame in H2.
  destruct (collect_frame_app _ _ _ _ _ H1 H2) as (_ & _ & S0 & S1 & Hf & Hc).
  by split_and!.
Qed.

Lemma collect_keeps_other_samples_witness :
  collect_terrain_data [] [((0, 0), ramp)] demo_warm = Ok demo_center
  /\ Np.shape0 (high_res_dem demo_center) = Np.shape0 (high_res_dem demo_warm)
  /\ Np.shape1 (high_res_dem demo_center) = Np.shape1 (high_res_dem demo_warm)
  /\ (forall k d, (k, d) ∈ [] ++ [((0, 0), ramp)] ->
        exists rel, map_grid_block2coords demo_warm !! k = Some rel
                    /\ fits_block demo_warm rel d)
  /\ (forall i j,
        ~ in_collected_region demo_warm ([] ++ [((0, 0), ramp)]) i j ->
        Np.cell (high_res_dem demo_center) i j
        = Np.cell (high_res_dem demo_warm) i j).
Proof.
  split; [exact demo_center_eq |].
  exact (collect_keeps_other_samples [] [((0, 0), ramp)] demo_warm
           demo_center demo_center_eq).
Defined.

(** X29: a raster whose length along an axis is neither that of the slice
    of its block nor 1 makes the collection raise ValueError, as a crater
    result and as a terrain result alike: nothing is added to the buffer. *)
Theorem collect_wrong_shape_raises (self : HighResDEMGen) (k rel : coord)
    (data : Np.ndarray) :
  reachable self ->
  map_grid_block2coords self !! k = Some rel ->
  (Np.shape0 data
   <> Np.extent (collect_slice (settings self) rel.1)
        (Np.shape0 (high_res_dem self))
   /\ Np.shape0 data <> 1)
  \/ (Np.shape1 data
      <> Np.extent (collect_slice (settings self) rel.2)
           (Np.shape1 (high_res_dem self))
      /\ Np.shape1 data <> 1) ->
  collect_terrain_data [] [(k, data)] self = Raise ValueError
  /\ collect_terrain_data [(k, data)] [] self = Raise ValueError.
Proof.
  intros Hr Hk Hbad.
  destruct (reachable_buffer_ok self Hr) as (Hres & _ & _).
  assert (Hbody : forall mark,
            collect_body mark (collect_offset (settings self)) (k, data) self
            = Raise ValueError).
  { intros mark. unfold collect_body, dict_get. rewrite Hk.
    destruct rel as [x_c y_c]. rewrite bind_Ok.
    rewrite !(py_div_nonzero _ _ Hres), !bind_Ok.
    fold (collect_slice (settings self) x_c).
    fold (collect_slice (settings self) y_c).
    rewrite addslice_mismatch; [reflexivity |].
    destruct Hbad as [[H1 H2] | [H1 H2]]; [left | right];
      by apply not_broadcastable. }
  unfold collect_terrain_data.
  rewrite (py_div_nonzero _ _ Hres), !bind_Ok.
  fold (collect_offset (settings self)). split.
  - change (for_each ?b [] self) with (Ok self). rewrite bind_Ok.
    apply for_each_cons_Raise. apply Hbody.
  - match goal with
    | |- ?m ≫= _ = _ =>
        assert (E : m = Raise ValueError)
          by (apply for_each_cons_Raise; apply Hbody);
        rewrite E
    end.
    reflexivity.
Qed.

Lemma collect_wrong_shape_raises_witness :
  reachable demo_warm
  /\ map_grid_block2coords demo_warm !! (0, 0) = Some (0, 0)
  /\ ((Np.shape0 small_raster
       <> Np.extent (collect_slice (settings demo_warm) 0)
            (Np.shape0 (high_res_dem demo_warm))
       /\ Np.shape0 small_raster <> 1)
      \/ (Np.shape1 small_raster
          <> Np.extent (collect_slice (settings demo_warm) 0)
               (Np.shape1 (high_res_dem demo_warm))
          /\ Np.shape1 small_raster <> 1))
  /\ collect_terrain_data [] [((0, 0), small_raster)] demo_warm
     = Raise ValueError
  /\ collect_terrain_data [((0, 0), small_raster)] [] demo_warm
     = Raise ValueError.
Proof.
  assert (Hk : map_grid_block2coords demo_warm !! (0, 0) = Some (0, 0))
    by (vm_compute; reflexivity).
  assert (He : Np.extent (collect_slice (settings demo_warm) 0)
                 (Np.shape0 (high_res_dem demo_warm)) = 1000)
    by (vm_compute; reflexivity).
  assert (Hbad : (Np.shape0 small_raster
                  <> Np.extent (collect_slice (settings demo_warm) 0)
                       (Np.shape0 (high_res_dem demo_warm))
                  /\ Np.shape0 small_raster <> 1)
                 \/ (Np.shape1 small_raster
                     <> Np.extent (collect_slice (settings demo_warm) 0)
                          (Np.shape1 (high_res_dem demo_warm))
                     /\ Np.shape1 small_raster <> 1)).
  { left. rewrite He. split; intros H; discriminate H. }
  split; [exact demo_warm_reachable |].
  split; [exact Hk |]. split; [exact Hbad |].
  exact (collect_wrong_shape_raises demo_warm (0, 0) (0, 0) small_raster
           demo_warm_reachable Hk Hbad).
Defined.

(** X30: for a block whose padded footprint starts inside the low
    resolution DEM and runs past its last row, querry_low_res_dem raises
    nothing and returns a patch cut at the last row: it has fewer rows than
    a full patch, and its row i is still the DEM row x - padding + i. *)
Theorem querry_low_res_dem_high_edge_cut (cfg : HighResDEMCfg)
    (lr : LowResCfg) (low_res_dem : Np.ndarray) (off : LowResOffsets)
    (coordinates : Q * Q) (x y : Z) :
  get_low_res_dem_offset cfg lr low_res_dem = Ok off ->
  lr_dem_coordinate lr (Np.shape0 low_res_dem / 2) coordinates.1 = Ok x ->
  lr_dem_coordinate lr (Np.shape1 low_res_dem / 2) coordinates.2 = Ok y ->
  0 <= patch_side lr off ->
  0 <= x - interpolation_padding lr <= Np.shape0 low_res_dem ->
  Np.shape0 low_res_dem < x - interpolation_padding lr + patch_side lr off ->
  0 <= y - interpolation_padding lr ->
  y - interpolation_padding lr + patch_side lr off <= Np.shape1 low_res_dem ->
  exists patch,
    querry_low_res_dem lr off low_res_dem coordinates = Ok patch
    /\ Np.shape0 patch
       = Np.shape0 low_res_dem - (x - interpolation_padding lr)
    /\ Np.shape0 patch < patch_side lr off
    /\ Np.shape1 patch = patch_side lr off
    /\ forall i j,
         Np.cell patch i j
         = Np.cell low_res_dem (x - interpolation_padding lr + i)
             (y - interpolation_padding lr + j).
Proof.
  intros Hoff Hx Hy Hside Hx0 Hx1 Hy0 Hy1.
  destruct (get_low_res_dem_offset_Ok_inv _ _ _ _ Hoff) as (Hsrc & Hpx & _).
  destruct (querry_low_res_dem_Ok lr off low_res_dem coordinates Hsrc)
    as (x' & y' & Ex & Ey & E).
  rewrite Hpx in Ex, Ey. cbn [fst snd] in Ex, Ey.
  rewrite Hx in Ex. rewrite Hy in Ey.
  apply Ok_inj in Ex. apply Ok_inj in Ey. subst x' y'.
  eexists. split; [exact E |].
  destruct (slice_cut (Np.shape0 low_res_dem)
              (x - interpolation_padding lr) (patch_side lr off) Hx0 Hx1)
    as [L0 E0].
  destruct (slice_inside (Np.shape1 low_res_dem)
              (y - interpolation_padding lr) (patch_side lr off))
    as [L1 E1]; try assumption.
  cbn [Np.getslice Np.shape0 Np.shape1 Np.cell].
  rewrite L0, L1, E0, E1. split_and!; try reflexivity. lia.
Qed.

Lemma querry_low_res_dem_high_edge_cut_witness :
  get_low_res_dem_offset demo_cfg demo_lr demo_low_res = Ok demo_offsets
  /\ lr_dem_coordinate demo_lr (Np.shape0 demo_low_res / 2) (200 # 1) = Ok 90
  /\ lr_dem_coordinate demo_lr (Np.shape1 demo_low_res / 2) 0 = Ok 50
  /\ 0 <= patch_side demo_lr demo_offsets
  /\ 0 <= 90 - interpolation_padding demo_lr <= Np.shape0 demo_low_res
  /\ Np.shape0 demo_low_res
     < 90 - interpolation_padding demo_lr + patch_side demo_lr demo_offsets
  /\ 0 <= 50 - interpolation_padding demo_lr
  /\ 50 - interpolation_padding demo_lr + patch_side demo_lr demo_offsets
     <= Np.shape1 demo_low_res
  /\ exists patch,
       querry_low_res_dem demo_lr demo_offsets demo_low_res (200 # 1, 0)%Q
       = Ok patch
       /\ Np.shape0 patch
          = Np.shape0 demo_low_res - (90 - interpolation_padding demo_lr)
       /\ Np.shape0 patch < patch_side demo_lr demo_offsets
       /\ Np.shape1 patch = patch_side demo_lr demo_offsets
       /\ forall i j,
            Np.cell patch i j
            = Np.cell demo_low_res (90 - interpolation_padding demo_lr + i)
                (50 - interpolation_padding demo_lr + j).
Proof.
  assert (Hx : lr_dem_coordinate demo_lr (Np.shape0 demo_low_res / 2)
                 (200 # 1) = Ok 90) by (vm_compute; reflexivity).
  assert (Hy : lr_dem_coordinate demo_lr (Np.shape1 demo_low_res / 2) 0
               = Ok 50) by (vm_compute; reflexivity).
  assert (H0 : 0 <= patch_side demo_lr demo_offsets)
    by (intros H; discriminate H).
  assert (H1 : 0 <= 90 - interpolation_padding demo_lr
               <= Np.shape0 demo_low_res)
    by (split; intros H; discriminate H).
  assert (H2 : Np.shape0 demo_low_res
               < 90 - interpolation_padding demo_lr
                 + patch_side demo_lr demo_offsets) by reflexivity.
  assert (H3 : 0 <= 50 - interpolation_padding demo_lr)
    by (intros H; discriminate H).
  assert (H4 : 50 - interpolation_padding demo_lr
               + patch_side demo_lr demo_offsets <= Np.shape1 demo_low_res)
    by (intros H; discriminate H).
  split; [exact demo_offsets_eq |]. split; [exact Hx |]. split; [exact Hy |].
  split; [exact H0 |]. split; [exact H1 |]. split; [exact H2 |].
  split; [exact H3 |]. split; [exact H4 |].
  exact (querry_low_res_dem_high_edge_cut demo_cfg demo_lr demo_low_res
           demo_offsets (200 # 1, 0)%Q 90 50 demo_offsets_eq Hx Hy
           H0 H1 H2 H3 H4).
Defined.
